(** * Query-formula compiler of the Airtable MCP server

    A shallow embedding of [src/utils/query-helpers.ts]: the sanitizers, the
    age-range, multiple-select, number-range and date-range formula builders,
    the fuzzy option resolver and the AND/OR combinators, followed by the
    properties the specification states about them.

    Modelling conventions.
    - A JavaScript string is a [string] of the Standard Library; a character
      stands for the UTF-16 code unit of the same number, so the model covers
      the strings whose code units are below 256 (Latin-1).
    - A JavaScript number is a [number]: [NaN], the two infinities, an integer
      [Finite z], or a value with a fractional part, [Fraction m k] for
      [m / 2^k]. The doubles are the values of [Num.isDouble]; the two zeros
      are one value, as they compare and print alike. Integers are rounded to
      doubles where the code makes a number ([Num.ofInteger] in [parseInt]),
      and a number is printed with the digits JavaScript prints
      ([Num.toString]).
    - A [throw] is the [Throw] constructor of [result]; a function that cannot
      throw returns its value directly.
    - An optional parameter ([x?: T]) is an [option], [None] being [undefined]. *)

From Stdlib Require Import String Ascii List ZArith Lia Bool.
From Stdlib Require Import DecimalString.
Import ListNotations.

Open Scope string_scope.
Open Scope bool_scope.

(** ** Thrown errors *)

Inductive result (A : Type) : Type :=
| Ok (a : A)
| Throw (msg : string).

Arguments Ok {A} a.
Arguments Throw {A} msg.

Definition bind {A B : Type} (r : result A) (k : A -> result B) : result B :=
  match r with
  | Ok a => k a
  | Throw msg => Throw msg
  end.

Notation "'let*' x ':=' r 'in' k" := (bind r (fun x => k))
  (at level 10, x name, r at level 100, k at level 200).

Definition throws {A : Type} (r : result A) : Prop := exists msg, r = Throw msg.

(** ** The JavaScript built-ins the helpers call *)

Module JS.

Definition chr (n : nat) : ascii := ascii_of_nat n.

Definition code (c : ascii) : nat := nat_of_ascii c.

Definition char_eqb (a b : ascii) : bool := Ascii.eqb a b.

(** [str.length] *)
Definition length (s : string) : nat := String.length s.

(** Truthiness of a string: every string but the empty one. *)
Definition truthy (s : string) : bool := negb (s =? "").

(** Truthiness of a possibly [undefined] string. *)
Definition truthy_opt (o : option string) : bool :=
  match o with
  | Some s => truthy s
  | None => false
  end.

(** WhiteSpace and LineTerminator code units below 256: TAB, LF, VT, FF, CR,
    SP and NBSP. *)
Definition isWhiteSpace (c : ascii) : bool :=
  let n := code c in
  Nat.eqb n 9 || Nat.eqb n 10 || Nat.eqb n 11 || Nat.eqb n 12
  || Nat.eqb n 13 || Nat.eqb n 32 || Nat.eqb n 160.

(** LineTerminator code units below 256: the characters [.] never matches. *)
Definition isLineTerminator (c : ascii) : bool :=
  let n := code c in Nat.eqb n 10 || Nat.eqb n 13.

Definition isDigit (c : ascii) : bool :=
  let n := code c in Nat.leb 48 n && Nat.leb n 57.

Fixpoint all (p : ascii -> bool) (s : string) : bool :=
  match s with
  | EmptyString => true
  | String c s' => p c && all p s'
  end.

Fixpoint any (p : ascii -> bool) (s : string) : bool :=
  match s with
  | EmptyString => false
  | String c s' => p c || any p s'
  end.

(** [str.trimStart()] *)
Fixpoint trimStart (s : string) : string :=
  match s with
  | EmptyString => EmptyString
  | String c s' => if isWhiteSpace c then trimStart s' else s
  end.

(** [str.trimEnd()]: a character is dropped when it is white space and
    everything after it is dropped too. *)
Fixpoint trimEnd (s : string) : string :=
  match s with
  | EmptyString => EmptyString
  | String c s' =>
      match trimEnd s' with
      | EmptyString => if isWhiteSpace c then EmptyString else String c EmptyString
      | t => String c t
      end
  end.

(** [str.trim()] *)
Definition trim (s : string) : string := trimEnd (trimStart s).

(** [c.toLowerCase()] on one code unit below 256: A-Z and the capital
    letters of Latin-1 (U+00C0 to U+00DE but the multiplication sign). *)
Definition lowerChar (c : ascii) : ascii :=
  let n := code c in
  if (Nat.leb 65 n && Nat.leb n 90)
     || (Nat.leb 192 n && Nat.leb n 222 && negb (Nat.eqb n 215))
  then chr (n + 32) else c.

(** [str.toLowerCase()] *)
Fixpoint toLowerCase (s : string) : string :=
  match s with
  | EmptyString => EmptyString
  | String c s' => String (lowerChar c) (toLowerCase s')
  end.

(** [hay.startsWith(needle)] *)
Fixpoint startsWith (needle hay : string) : bool :=
  match needle, hay with
  | EmptyString, _ => true
  | String _ _, EmptyString => false
  | String a n', String b h' => char_eqb a b && startsWith n' h'
  end.

(** [hay.includes(needle)] *)
Fixpoint includes (needle hay : string) : bool :=
  startsWith needle hay ||
  match hay with
  | EmptyString => false
  | String _ h' => includes needle h'
  end.

(** [str.split(sep)] for a separator of one character. *)
Fixpoint split (sep : ascii) (s : string) : list string :=
  match s with
  | EmptyString => [EmptyString]
  | String c s' =>
      if char_eqb c sep then EmptyString :: split sep s'
      else match split sep s' with
           | piece :: rest => String c piece :: rest
           | [] => [String c EmptyString]
           end
  end.

(** [str.replace(pat, by)] for a pattern string of one character: only the
    first occurrence is replaced. The replacement has no [$] pattern. *)
Fixpoint replaceFirst (pat : ascii) (by_ : string) (s : string) : string :=
  match s with
  | EmptyString => EmptyString
  | String c s' =>
      if char_eqb c pat then by_ ++ s' else String c (replaceFirst pat by_ s')
  end.

(** [str.replace(/c/g, by)] for a regular expression matching the one
    character [c]: every occurrence is replaced, left to right. The
    replacement has no [$] pattern. *)
Fixpoint replaceAll (pat : ascii) (by_ : string) (s : string) : string :=
  match s with
  | EmptyString => EmptyString
  | String c s' =>
      if char_eqb c pat then by_ ++ replaceAll pat by_ s'
      else String c (replaceAll pat by_ s')
  end.

(** [arr.join(sep)] *)
Definition join (sep : string) (l : list string) : string := String.concat sep l.

(** [arr.find(p)]: the first element satisfying [p], or [undefined]. *)
Definition find (p : string -> bool) (l : list string) : option string :=
  List.find p l.

(** [arr[i]] *)
Definition index (l : list string) (i : nat) : option string := nth_error l i.

End JS.

(** ** Numbers *)

(** [Finite z] is the integer [z]; [Fraction m k] is [m / 2^k], written with
    an odd [m] when it stands for a double. *)
Inductive number : Type :=
| NaN
| Infinity
| NegInfinity
| Finite (z : Z)
| Fraction (m : Z) (k : positive).

Module Num.

(** The values that are doubles: a significand of at most 53 bits, a
    magnitude below 2^1024, and no bit below 2^-1074. *)
Definition isDouble (a : number) : bool :=
  match a with
  | Finite z =>
      (z =? 0)%Z
      || ((Z.abs z <? Z.shiftl 1 1024)%Z
          && (Z.abs z
              =? Z.shiftl (Z.shiftr (Z.abs z) (Z.log2 (Z.abs z) - 52))
                   (Z.log2 (Z.abs z) - 52))%Z)
  | Fraction m k =>
      Z.odd m && (Z.abs m <? Z.shiftl 1 53)%Z && (Zpos k <=? 1074)%Z
  | _ => true
  end.

(** [a <= b] *)
Definition le (a b : number) : bool :=
  match a, b with
  | NaN, _ | _, NaN => false
  | NegInfinity, _ => true
  | _, Infinity => true
  | Infinity, _ => false
  | _, NegInfinity => false
  | Finite x, Finite y => Z.leb x y
  | Finite x, Fraction n j => Z.leb (x * 2 ^ Zpos j) n
  | Fraction m k, Finite y => Z.leb m (y * 2 ^ Zpos k)
  | Fraction m k, Fraction n j => Z.leb (m * 2 ^ Zpos j) (n * 2 ^ Zpos k)
  end.

(** [a >= b] *)
Definition ge (a b : number) : bool :=
  match a, b with
  | NaN, _ | _, NaN => false
  | Infinity, _ => true
  | _, NegInfinity => true
  | NegInfinity, _ => false
  | _, Infinity => false
  | Finite x, Finite y => Z.geb x y
  | Finite x, Fraction n j => Z.geb (x * 2 ^ Zpos j) n
  | Fraction m k, Finite y => Z.geb m (y * 2 ^ Zpos k)
  | Fraction m k, Fraction n j => Z.geb (m * 2 ^ Zpos j) (n * 2 ^ Zpos k)
  end.

(** [Number.isFinite(a)] *)
Definition isFinite (a : number) : bool :=
  match a with
  | Finite _ | Fraction _ _ => true
  | _ => false
  end.

(** The double nearest to an integer, a tie going to the even significand,
    and an infinity from 2^1024 - 2^970 on: the conversion of a mathematical
    integer to a number. *)
Definition ofInteger (z : Z) : number :=
  let a := Z.abs z in
  let extra := (Z.log2 a + 1 - 53)%Z in
  if (extra <=? 0)%Z then Finite z
  else
    let q := Z.shiftr a extra in
    let r := (a - Z.shiftl q extra)%Z in
    let half := Z.shiftl 1 (extra - 1) in
    let q' :=
      if (half <? r)%Z || ((r =? half)%Z && Z.odd q) then (q + 1)%Z else q in
    let v := Z.shiftl q' extra in
    if (v <? Z.shiftl 1 1024)%Z then Finite (Z.sgn z * v)
    else if (z <? 0)%Z then NegInfinity else Infinity.

(** *** Printing a number

    [Number::toString] of the language specification, radix 10: the digits
    [s] and the exponent [n] with [s * 10^(n-k)] the shortest decimal, of [k]
    digits, that is read back as the number, the nearest one if there are
    several; then plain notation when [-5 <= n <= 21] and exponent notation
    otherwise. A positive finite value is given as [p / 2^q]. *)

(** The decimal digits of a natural number. *)
Definition decimal (z : Z) : string := NilZero.string_of_int (Z.to_int z).

Fixpoint zeros (n : nat) : string :=
  match n with
  | O => ""
  | S n' => String "0" (zeros n')
  end.

(** [2^e] and [10^e], and 1 for a negative [e]. *)
Definition pow2 (e : Z) : Z := Z.shiftl 1 (Z.max e 0).

Definition pow10 (e : Z) : Z := Z.pow 10 (Z.max e 0).

(** The exponent of the last bit of the significand of [p / 2^q]. *)
Definition ulpExponent (p q : Z) : Z := Z.max (Z.log2 p + 1 - 53 - q) (-1074).

(** The digits [s] with [s * 10^t] read back as [p / 2^q], if there are
    any: such a decimal lies no further from the number than half the way to
    the next double above and below, the ends of this interval counting when
    the significand is even. The way down is half as long when the number is
    a power of two. All values are compared in quarters of the last bit. *)
Definition candidate (p q t : Z) : option Z :=
  let e := ulpExponent p q in
  let x := Z.shiftl p (2 - q - e) in
  let even := Z.even (Z.shiftl p (- q - e)) in
  let below :=
    if (p =? Z.shiftl 1 (Z.log2 p))%Z && (-1074 <? e)%Z then 1%Z else 2%Z in
  let unit := (pow2 (e - 2) * pow10 (- t))%Z in
  let den := (pow10 t * pow2 (2 - e))%Z in
  let lo := ((x - below) * unit)%Z in
  let mid := (x * unit)%Z in
  let hi := ((x + 2) * unit)%Z in
  let inside (s : Z) :=
    (0 <? s)%Z
    && (if even then (lo <=? s * den)%Z && (s * den <=? hi)%Z
        else (lo <? s * den)%Z && (s * den <? hi)%Z) in
  let s1 := (mid / den)%Z in
  let s2 := (s1 + 1)%Z in
  let d1 := (mid - s1 * den)%Z in
  let d2 := (s2 * den - mid)%Z in
  match inside s1, inside s2 with
  | true, true =>
      if (d1 <? d2)%Z then Some s1
      else if (d2 <? d1)%Z then Some s2
      else if Z.even s1 then Some s1 else Some s2
  | true, false => Some s1
  | false, true => Some s2
  | false, false => None
  end.

(** The largest exponent [t] that has digits, looked for downwards from
    [t]: it gives the fewest digits. *)
Fixpoint shortest (fuel : nat) (p q t : Z) : Z * Z :=
  match fuel with
  | O => (0, 0)%Z
  | S fuel' =>
      match candidate p q t with
      | Some s => (s, t)
      | None => shortest fuel' p q (t - 1)
      end
  end.

(** An exponent [t] with [10^t] above [p / 2^q] and the interval around
    it, from the number of bits: 30103/100000 is the logarithm of 2. *)
Definition firstExponent (p q : Z) : Z :=
  ((Z.log2 p - q + 1) * 30103 / 100000 + 2)%Z.

(** The notation of the digits [s] with the exponent [t], that is of
    [n = k + t]. *)
Definition layout (s t : Z) : string :=
  let d := decimal s in
  let k := Z.of_nat (String.length d) in
  let n := (k + t)%Z in
  if (-5 <=? n)%Z && (n <=? 21)%Z then
    if (k <=? n)%Z then d ++ zeros (Z.to_nat (n - k))
    else if (0 <? n)%Z then
      substring 0 (Z.to_nat n) d ++ "."
      ++ substring (Z.to_nat n) (Z.to_nat (k - n)) d
    else "0." ++ zeros (Z.to_nat (- n)) ++ d
  else
    let e := (n - 1)%Z in
    let exponent := (if (e <? 0)%Z then "-" else "+") ++ decimal (Z.abs e) in
    if (k =? 1)%Z then d ++ "e" ++ exponent
    else
      substring 0 1 d ++ "." ++ substring 1 (Z.to_nat (k - 1)) d
      ++ "e" ++ exponent.

Definition positiveToString (p q : Z) : string :=
  let '(s, t) := shortest 40 p q (firstExponent p q) in
  layout s t.

Definition finiteToString (p q : Z) : string :=
  if (p =? 0)%Z then "0"
  else if (p <? 0)%Z then "-" ++ positiveToString (- p) q
  else positiveToString p q.

(** The string a template literal gives for a number. *)
Definition toString (a : number) : string :=
  match a with
  | NaN => "NaN"
  | Infinity => "Infinity"
  | NegInfinity => "-Infinity"
  | Finite z => finiteToString z 0
  | Fraction m k => finiteToString m (Zpos k)
  end.

(** Value of a digit in a radix, if it is one: 0-9, a-z, A-Z. *)
Definition digitValue (radix : Z) (c : ascii) : option Z :=
  let n := Z.of_nat (JS.code c) in
  let v :=
    (if (48 <=? n)%Z && (n <=? 57)%Z then Some (n - 48)
     else if (97 <=? n)%Z && (n <=? 122)%Z then Some (n - 97 + 10)
     else if (65 <=? n)%Z && (n <=? 90)%Z then Some (n - 65 + 10)
     else None)%Z in
  match v with
  | Some d => if (d <? radix)%Z then Some d else None
  | None => None
  end.

(** The longest prefix of radix digits, read left to right: the value
    accumulated so far and whether a digit was seen. *)
Fixpoint digits (radix : Z) (acc : Z) (seen : bool) (s : string) : option Z :=
  match s with
  | EmptyString => if seen then Some acc else None
  | String c s' =>
      match digitValue radix c with
      | Some d => digits radix (acc * radix + d)%Z true s'
      | None => if seen then Some acc else None
      end
  end.

(** [parseInt(s)] with no radix argument: leading white space is skipped, a
    sign is read, a [0x] or [0X] prefix selects radix 16, and the longest
    prefix of digits is the value, rounded to a double; [NaN] when there is
    no digit. Beyond 20 significant decimal digits the language leaves the
    last digits to the engine; the value is rounded exactly here, as the
    engines do. *)
Definition parseInt (s : string) : number :=
  let s1 := JS.trimStart s in
  let '(sign, s2) :=
    match s1 with
    | String c r =>
        if JS.char_eqb c "-" then ((-1)%Z, r)
        else if JS.char_eqb c "+" then (1%Z, r)
        else (1%Z, s1)
    | EmptyString => (1%Z, s1)
    end in
  let '(radix, s3) :=
    match s2 with
    | String c0 (String c1 r) =>
        if JS.char_eqb c0 "0" && (JS.char_eqb c1 "x" || JS.char_eqb c1 "X")
        then (16%Z, r) else (10%Z, s2)
    | _ => (10%Z, s2)
    end in
  match digits radix 0 false s3 with
  | Some v => ofInteger (sign * v)
  | None => NaN
  end.

(** [parseInt(x)] for a possibly [undefined] argument: [undefined] is first
    converted to the string ["undefined"]. *)
Definition parseIntOpt (o : option string) : number :=
  match o with
  | Some s => parseInt s
  | None => parseInt "undefined"
  end.

End Num.

(** ** Sanitizers *)

Definition quote : ascii := "'"%char.

(** [escapeFormulaString]: [str.replace(/'/g, "''")]. *)
Definition escapeFormulaString (str : string) : string :=
  JS.replaceAll quote "''" str.

(** The character class [[{}\n\r]]. *)
Definition forbiddenChar (c : ascii) : bool :=
  JS.char_eqb c "{" || JS.char_eqb c "}"
  || JS.char_eqb c (JS.chr 10) || JS.char_eqb c (JS.chr 13).

(** [sanitizeFieldName] *)
Definition sanitizeFieldName (fieldName : string) : result string :=
  if JS.any forbiddenChar fieldName then
    Throw "Invalid field name: contains forbidden characters ({}, newlines)"
  else
    let trimmed := JS.trim fieldName in
    if Nat.eqb (JS.length trimmed) 0 then
      Throw "Field name cannot be empty"
    else Ok trimmed.

(** ** Age ranges *)

Module AgeRangeOption.

(** [maxAge] is [None] for [null], the bucket without upper bound. *)
Record t : Type := mk {
  id : string;
  name : string;
  minAge : number;
  maxAge : option number
}.

End AgeRangeOption.

(** [parseAgeRange] *)
Definition parseAgeRange (rangeStr : string) : AgeRangeOption.t :=
  let parts := JS.split "-" rangeStr in
  if JS.includes "+" rangeStr then
    let minAge := Num.parseInt (JS.replaceFirst "+" "" rangeStr) in
    AgeRangeOption.mk "" rangeStr minAge None
  else
    AgeRangeOption.mk "" rangeStr
      (Num.parseIntOpt (JS.index parts 0))
      (Some (Num.parseIntOpt (JS.index parts 1))).

(** One turn of the loop of [findOverlappingAgeRanges]: [overlapping] after
    [range] has been looked at. *)
Definition overlapStep (minAge maxAge : number)
    (overlapping : list string) (range : AgeRangeOption.t) : list string :=
  match AgeRangeOption.maxAge range with
  | None =>
      if Num.ge maxAge (AgeRangeOption.minAge range)
      then (overlapping ++ [AgeRangeOption.name range])%list
      else overlapping
  | Some rangeMax =>
      if Num.le (AgeRangeOption.minAge range) maxAge && Num.ge rangeMax minAge
      then (overlapping ++ [AgeRangeOption.name range])%list
      else overlapping
  end.

(** [findOverlappingAgeRanges] *)
Definition findOverlappingAgeRanges (minAge maxAge : number)
    (availableRanges : list string) : list string :=
  let parsedRanges := map parseAgeRange availableRanges in
  fold_left (overlapStep minAge maxAge) parsedRanges [].

(** The template [{field} = 'escaped'] of [buildAgeRangeFormula]. *)
Definition equalityLeaf (sanitizedFieldName range : string) : string :=
  let escapedRange := escapeFormulaString range in
  "{" ++ sanitizedFieldName ++ "} = '" ++ escapedRange ++ "'".

(** [buildAgeRangeFormula] *)
Definition buildAgeRangeFormula (fieldName : string) (minAge maxAge : number)
    (availableRanges : list string) : result string :=
  let* sanitizedFieldName := sanitizeFieldName fieldName in
  let overlappingRanges := findOverlappingAgeRanges minAge maxAge availableRanges in
  match overlappingRanges with
  | [] => Ok "FALSE()"
  | [range] => Ok (equalityLeaf sanitizedFieldName range)
  | _ =>
      let conditions := map (equalityLeaf sanitizedFieldName) overlappingRanges in
      Ok ("OR(" ++ JS.join ", " conditions ++ ")")
  end.

(** ** Fuzzy resolution *)

(** [fuzzyMatchOptions] *)
Definition fuzzyMatchOptions (searchTerm : string)
    (availableOptions : list string) : list string :=
  let lowerSearch := JS.toLowerCase searchTerm in
  filter (fun option => JS.includes lowerSearch (JS.toLowerCase option))
    availableOptions.

(** A [Set<string>] is the list of its elements in insertion order. *)
Module StringSet.

Definition t : Type := list string.

Definition empty : t := [].

Definition has (x : string) (s : t) : bool := existsb (String.eqb x) s.

(** [s.add(x)] *)
Definition add (x : string) (s : t) : t := if has x s then s else (s ++ [x])%list.

(** [Array.from(s)] *)
Definition toArray (s : t) : list string := s.

End StringSet.

(** What one [value] adds to [resolved] in the loop of
    [resolveOptionsWithFuzzyMatch]. The test [if (exactMatch)] is a test of
    truthiness: it fails for [undefined] and for the empty string. *)
Definition resolveStep (availableOptions : list string)
    (resolved : StringSet.t) (value : string) : StringSet.t :=
  let exactMatch :=
    JS.find (fun opt => JS.toLowerCase opt =? JS.toLowerCase value)
      availableOptions in
  let fuzzy :=
    let fuzzyMatches := fuzzyMatchOptions value availableOptions in
    fold_left (fun acc match_ => StringSet.add match_ acc) fuzzyMatches resolved in
  match exactMatch with
  | Some found =>
      if JS.truthy found then StringSet.add found resolved else fuzzy
  | None => fuzzy
  end.

(** [resolveOptionsWithFuzzyMatch] *)
Definition resolveOptionsWithFuzzyMatch (values : list string)
    (availableOptions : option (list string)) : list string :=
  match availableOptions with
  | None => values
  | Some options =>
      if Nat.eqb (List.length options) 0 then values
      else
        StringSet.toArray
          (fold_left (resolveStep options) values StringSet.empty)
  end.

(** ** Multiple-select builders *)

(** The template [FIND('escaped', ARRAYJOIN({field}))]. *)
Definition findLeaf (sanitizedFieldName value : string) : string :=
  let escaped := escapeFormulaString value in
  "FIND('" ++ escaped ++ "', ARRAYJOIN({" ++ sanitizedFieldName ++ "}))".

(** A parameter declared [useFuzzyMatch: boolean = true]. *)
Definition defaultTrue (o : option bool) : bool :=
  match o with
  | Some b => b
  | None => true
  end.

Definition isDefined {A : Type} (o : option A) : bool :=
  match o with
  | Some _ => true
  | None => false
  end.

(** The values the three builders work on:
    [useFuzzyMatch && availableOptions ? resolveOptionsWithFuzzyMatch(...) : values]. *)
Definition resolvedValuesOf (values : list string)
    (availableOptions : option (list string)) (useFuzzyMatch : option bool)
    : list string :=
  if defaultTrue useFuzzyMatch && isDefined availableOptions
  then resolveOptionsWithFuzzyMatch values availableOptions
  else values.

(** [buildMultipleSelectHasAny] *)
Definition buildMultipleSelectHasAny (fieldName : string) (values : list string)
    (availableOptions : option (list string)) (useFuzzyMatch : option bool)
    : result string :=
  let* sanitizedFieldName := sanitizeFieldName fieldName in
  if Nat.eqb (List.length values) 0 then Ok "FALSE()"
  else
    let resolvedValues := resolvedValuesOf values availableOptions useFuzzyMatch in
    match resolvedValues with
    | [] => Ok "FALSE()"
    | [value] => Ok (findLeaf sanitizedFieldName value)
    | _ =>
        let conditions := map (findLeaf sanitizedFieldName) resolvedValues in
        Ok ("OR(" ++ JS.join ", " conditions ++ ")")
    end.

(** [buildMultipleSelectHasAll] *)
Definition buildMultipleSelectHasAll (fieldName : string) (values : list string)
    (availableOptions : option (list string)) (useFuzzyMatch : option bool)
    : result string :=
  let* sanitizedFieldName := sanitizeFieldName fieldName in
  if Nat.eqb (List.length values) 0 then Ok "TRUE()"
  else
    let resolvedValues := resolvedValuesOf values availableOptions useFuzzyMatch in
    match resolvedValues with
    | [] => Ok "TRUE()"
    | _ =>
        let conditions := map (findLeaf sanitizedFieldName) resolvedValues in
        Ok ("AND(" ++ JS.join ", " conditions ++ ")")
    end.

(** [buildMultipleSelectHasNone] *)
Definition buildMultipleSelectHasNone (fieldName : string) (values : list string)
    (availableOptions : option (list string)) (useFuzzyMatch : option bool)
    : result string :=
  let* sanitizedFieldName := sanitizeFieldName fieldName in
  if Nat.eqb (List.length values) 0 then Ok "TRUE()"
  else
    let resolvedValues := resolvedValuesOf values availableOptions useFuzzyMatch in
    match resolvedValues with
    | [] => Ok "TRUE()"
    | [value] => Ok ("NOT(" ++ findLeaf sanitizedFieldName value ++ ")")
    | _ =>
        let conditions := map (findLeaf sanitizedFieldName) resolvedValues in
        Ok ("NOT(OR(" ++ JS.join ", " conditions ++ "))")
    end.

(** ** Number and date ranges *)

(** The end of the range builders: no condition, one, or several. *)
Definition wrapAnd (conditions : list string) : string :=
  match conditions with
  | [] => "TRUE()"
  | [condition] => condition
  | _ => "AND(" ++ JS.join ", " conditions ++ ")"
  end.

(** One bound of [buildNumberRangeFormula]: [conditions] after the bound has
    been checked and its comparison pushed; [None] is [undefined] or [null]. *)
Definition pushNumberBound (sanitizedFieldName op message : string)
    (bound : option number) (conditions : list string) : result (list string) :=
  match bound with
  | Some value =>
      if negb (Num.isFinite value) then Throw message
      else
        let condition :=
          "{" ++ sanitizedFieldName ++ "} " ++ op ++ " " ++ Num.toString value in
        Ok (conditions ++ [condition])%list
  | None => Ok conditions
  end.

(** [buildNumberRangeFormula] *)
Definition buildNumberRangeFormula (fieldName : string)
    (min max : option number) : result string :=
  let* sanitizedFieldName := sanitizeFieldName fieldName in
  let conditions := [] in
  let* conditions :=
    pushNumberBound sanitizedFieldName ">="
      "Minimum value must be a finite number" min conditions in
  let* conditions :=
    pushNumberBound sanitizedFieldName "<="
      "Maximum value must be a finite number" max conditions in
  Ok (wrapAnd conditions).

(** Consumes one character per class of [classes] from the front of [s]; the
    rest of [s] when every class matched. *)
Fixpoint matchClasses (classes : list (ascii -> bool)) (s : string)
    : option string :=
  match classes with
  | [] => Some s
  | p :: classes' =>
      match s with
      | String c s' => if p c then matchClasses classes' s' else None
      | EmptyString => None
      end
  end.

Definition isChar (c : ascii) : ascii -> bool := fun x => JS.char_eqb x c.

(** The [.test] of the regular expression of the date check: from the start
    of the string four digits, a dash, two digits, a dash and two digits;
    then, optionally, a [T], two digits, a colon, two digits, a colon, two
    digits and any number of characters that are not line terminators; then
    the end of the string. *)
Definition isoDateTest (s : string) : bool :=
  let d := JS.isDigit in
  match matchClasses [d; d; d; d; isChar "-"; d; d; isChar "-"; d; d] s with
  | None => false
  | Some rest =>
      (rest =? "") ||
      match matchClasses
              [isChar "T"; d; d; isChar ":"; d; d; isChar ":"; d; d] rest with
      | None => false
      | Some tail => JS.all (fun c => negb (JS.isLineTerminator c)) tail
      end
  end.

(** One bound of [buildDateRangeFormula]: a falsy bound ([undefined] or the
    empty string) is skipped. *)
Definition pushDateBound (sanitizedFieldName fn message : string)
    (bound : option string) (conditions : list string) : result (list string) :=
  match bound with
  | Some date =>
      if JS.truthy date then
        if negb (isoDateTest date) then Throw message
        else
          let escapedDate := escapeFormulaString date in
          let condition :=
            fn ++ "({" ++ sanitizedFieldName ++ "}, '" ++ escapedDate ++ "')" in
          Ok (conditions ++ [condition])%list
      else Ok conditions
  | None => Ok conditions
  end.

(** [buildDateRangeFormula] *)
Definition buildDateRangeFormula (fieldName : string)
    (startDate endDate : option string) : result string :=
  let* sanitizedFieldName := sanitizeFieldName fieldName in
  let conditions := [] in
  let* conditions :=
    pushDateBound sanitizedFieldName "IS_AFTER"
      "Start date must be in ISO 8601 format (YYYY-MM-DD or YYYY-MM-DDTHH:mm:ss)"
      startDate conditions in
  let* conditions :=
    pushDateBound sanitizedFieldName "IS_BEFORE"
      "End date must be in ISO 8601 format (YYYY-MM-DD or YYYY-MM-DDTHH:mm:ss)"
      endDate conditions in
  Ok (wrapAnd conditions).

(** ** Combinators *)

(** [combineFormulasAnd] *)
Definition combineFormulasAnd (formulas : list string) : string :=
  let filtered :=
    filter (fun f => JS.truthy f && negb (f =? "TRUE()")) formulas in
  match filtered with
  | [] => "TRUE()"
  | [f] => f
  | _ => "AND(" ++ JS.join ", " filtered ++ ")"
  end.

(** [combineFormulasOr] *)
Definition combineFormulasOr (formulas : list string) : string :=
  let filtered :=
    filter (fun f => JS.truthy f && negb (f =? "FALSE()")) formulas in
  match filtered with
  | [] => "FALSE()"
  | [f] => f
  | _ => "OR(" ++ JS.join ", " filtered ++ ")"
  end.

(** ** Legacy builders *)

(** [buildMultipleSelectFormula]: [buildMultipleSelectHasAny] with neither
    vocabulary nor flag. *)
Definition buildMultipleSelectFormula (fieldName : string)
    (values : list string) : result string :=
  buildMultipleSelectHasAny fieldName values None None.

(** [buildMultipleSelectAllFormula] *)
Definition buildMultipleSelectAllFormula (fieldName : string)
    (values : list string) : result string :=
  buildMultipleSelectHasAll fieldName values None None.

(** ** The query tools of [index.ts]

    The three query tools build a formula from their validated arguments
    before they list the records; the formula part of each case of the
    request handler is a function here. *)

(** The catalogue the tools fall back on. *)
Definition defaultAgeRanges : list string :=
  ["12-17"; "18-24"; "25-34"; "35-44"; "45-65"; "65+"].

(** Case [airtable_query_by_age_range]: [ageFieldName || 'Age'],
    [availableAgeRanges ?? default], and the additional filters joined by
    [combineFormulasAnd] when they are truthy. *)
Definition ageRangeQueryFormula (ageFieldName : option string)
    (minAge maxAge : number) (availableAgeRanges : option (list string))
    (additionalFilters : option string) : result string :=
  let fieldName :=
    match ageFieldName with
    | Some name => if JS.truthy name then name else "Age"
    | None => "Age"
    end in
  let ranges :=
    match availableAgeRanges with
    | Some l => l
    | None => defaultAgeRanges
    end in
  let* ageFormula := buildAgeRangeFormula fieldName minAge maxAge ranges in
  match additionalFilters with
  | Some filters =>
      if JS.truthy filters
      then Ok (combineFormulasAnd [ageFormula; filters])
      else Ok ageFormula
  | None => Ok ageFormula
  end.

Inductive matchType : Type := hasAny | hasAll | hasNone.

(** Case [airtable_query_multiple_select]. *)
Definition multipleSelectQueryFormula (fieldName : string) (mt : matchType)
    (values : list string) (availableOptions : option (list string))
    (useFuzzyMatch : option bool) (additionalFilters : option string)
    : result string :=
  let* multiSelectFormula :=
    match mt with
    | hasAny =>
        buildMultipleSelectHasAny fieldName values availableOptions useFuzzyMatch
    | hasAll =>
        buildMultipleSelectHasAll fieldName values availableOptions useFuzzyMatch
    | hasNone =>
        buildMultipleSelectHasNone fieldName values availableOptions useFuzzyMatch
    end in
  match additionalFilters with
  | Some filters =>
      if JS.truthy filters
      then Ok (combineFormulasAnd [multiSelectFormula; filters])
      else Ok multiSelectFormula
  | None => Ok multiSelectFormula
  end.

(** A condition of [airtable_smart_query], by its [type]. *)
Inductive condition : Type :=
| ageRange (fieldName : string) (minAge maxAge : number)
    (availableOptions : option (list string))
| multipleSelect (fieldName : string) (mt : matchType) (values : list string)
    (availableOptions : option (list string)) (useFuzzyMatch : option bool)
| numberRange (fieldName : string) (min max : option number)
| customFormula (formula : string).

Inductive combineWith : Type := AND | OR.

(** The [switch] over [condition.type]: the formula of one condition. *)
Definition conditionFormula (c : condition) : result string :=
  match c with
  | ageRange fieldName minAge maxAge availableOptions =>
      buildAgeRangeFormula fieldName minAge maxAge
        match availableOptions with
        | Some l => l
        | None => defaultAgeRanges
        end
  | multipleSelect fieldName mt values availableOptions useFuzzyMatch =>
      let fuzzy := Some (defaultTrue useFuzzyMatch) in
      match mt with
      | hasAny => buildMultipleSelectHasAny fieldName values availableOptions fuzzy
      | hasAll => buildMultipleSelectHasAll fieldName values availableOptions fuzzy
      | hasNone => buildMultipleSelectHasNone fieldName values availableOptions fuzzy
      end
  | numberRange fieldName min max => buildNumberRangeFormula fieldName min max
  | customFormula formula => Ok formula
  end.

(** The loop over the conditions: each formula is pushed on [formulas]; the
    first error leaves the loop. *)
Fixpoint collectFormulas (conditions : list condition) (formulas : list string)
    : result (list string) :=
  match conditions with
  | [] => Ok formulas
  | c :: rest =>
      let* formula := conditionFormula c in
      collectFormulas rest (formulas ++ [formula])
  end.

(** Case [airtable_smart_query]: the final formula. *)
Definition smartQueryFormula (conditions : list condition) (cw : combineWith)
    : result string :=
  let* formulas := collectFormulas conditions [] in
  match cw with
  | OR => Ok (combineFormulasOr formulas)
  | AND => Ok (combineFormulasAnd formulas)
  end.

(** ** Regular expressions

    The patterns of [field-filters.ts] are regular expressions used through
    [pattern.test(s)] only, with the [i] flag and without anchors or groups:
    the test succeeds when some substring of [s] is in the language of the
    pattern. The patterns are written as terms of [Regex.t] and tested by
    derivatives. *)

Module Regex.

Inductive t : Type :=
| Void
| Eps
| Chr (p : ascii -> bool)
| Cat (r1 r2 : t)
| Alt (r1 r2 : t)
| Star (r : t).

Fixpoint nullable (r : t) : bool :=
  match r with
  | Void => false
  | Eps => true
  | Chr _ => false
  | Cat r1 r2 => nullable r1 && nullable r2
  | Alt r1 r2 => nullable r1 || nullable r2
  | Star _ => true
  end.

(** What is left of [r] to match once the character [c] has been read. *)
Fixpoint deriv (c : ascii) (r : t) : t :=
  match r with
  | Void => Void
  | Eps => Void
  | Chr p => if p c then Eps else Void
  | Cat r1 r2 =>
      if nullable r1
      then Alt (Cat (deriv c r1) r2) (deriv c r2)
      else Cat (deriv c r1) r2
  | Alt r1 r2 => Alt (deriv c r1) (deriv c r2)
  | Star r1 => Cat (deriv c r1) (Star r1)
  end.

(** The whole of [s] is in the language of [r]. *)
Fixpoint matches (r : t) (s : string) : bool :=
  match s with
  | EmptyString => nullable r
  | String c s' => matches (deriv c r) s'
  end.

(** Any character, line terminators too: what may stand before and after a
    match. *)
Definition anything : t := Star (Chr (fun _ => true)).

(** [r.test(s)] for a pattern without anchors. *)
Definition test (r : t) (s : string) : bool :=
  matches (Cat anything (Cat r anything)) s.

(** A pattern character under the [i] flag: two characters are the same
    when their canonical forms are, which for code units below 256 is when
    their lower-case forms are. *)
Definition ci (c : ascii) : t :=
  Chr (fun x => JS.char_eqb (JS.lowerChar x) (JS.lowerChar c)).

(** A literal under the [i] flag. *)
Fixpoint lit (w : string) : t :=
  match w with
  | EmptyString => Eps
  | String c w' => Cat (ci c) (lit w')
  end.

(** [.]: any character but a line terminator. *)
Definition dot : t := Chr (fun c => negb (JS.isLineTerminator c)).

(** [r?] *)
Definition opt (r : t) : t := Alt r Eps.

(** [a.*b] for two literals. *)
Definition gap (a b : string) : t := Cat (lit a) (Cat (Star dot) (lit b)).

End Regex.

(** ** Field filters ([field-filters.ts]) *)

Module FieldFilterOptions.

Record t : Type := mk {
  includeFields : option (list string);
  excludeFields : option (list string);
  excludeAttachments : option bool;
  excludeLongText : option bool;
  preset : option string;
  maxFields : option number
}.

(** The options object with no property set. *)
Definition none : t := mk None None None None None None.

End FieldFilterOptions.

(** [ATTACHMENT_FIELD_PATTERNS] *)
Definition ATTACHMENT_FIELD_PATTERNS : list Regex.t :=
  [ Regex.lit "headshot";
    Regex.lit "photo";
    Regex.lit "image";
    Regex.lit "picture";
    Regex.lit "sample";
    Regex.lit "video";
    Regex.lit "attachment";
    Regex.Cat (Regex.lit "file") (Regex.opt (Regex.lit "s"));
    Regex.lit "media";
    Regex.lit "screenshot";
    Regex.lit "living room";
    Regex.lit "bathroom";
    Regex.lit "home photos";
    Regex.lit "current setup";
    Regex.lit "dropbox";
    Regex.gap "ai" "image";
    Regex.gap "generated" "image" ].

(** [LONG_TEXT_FIELD_PATTERNS] *)
Definition LONG_TEXT_FIELD_PATTERNS : list Regex.t :=
  [ Regex.lit "feedback";
    Regex.Cat (Regex.lit "note") (Regex.opt (Regex.lit "s"));
    Regex.lit "description";
    Regex.lit "bio";
    Regex.gap "additional" "notes";
    Regex.gap "project" "notes";
    Regex.lit "comments";
    Regex.gap "rich" "text";
    Regex.gap "ai" "text";
    Regex.gap "generated" "text";
    Regex.lit "summary";
    Regex.lit "content" ].

(** [matchesPatterns] *)
Definition matchesPatterns (fieldName : string) (patterns : list Regex.t)
    : bool :=
  existsb (fun pattern => Regex.test pattern fieldName) patterns.

(** [isAttachmentField] *)
Definition isAttachmentField (fieldName : string) : bool :=
  matchesPatterns fieldName ATTACHMENT_FIELD_PATTERNS.

(** [isLongTextField] *)
Definition isLongTextField (fieldName : string) : bool :=
  matchesPatterns fieldName LONG_TEXT_FIELD_PATTERNS.

(** [getSafeFields] *)
Definition getSafeFields (allFields : list string) : list string :=
  let filtered :=
    filter (fun field =>
              if matchesPatterns field ATTACHMENT_FIELD_PATTERNS then false
              else if matchesPatterns field LONG_TEXT_FIELD_PATTERNS then false
              else true)
      allFields in
  filtered.

(** [arr.includes(x)] on strings. *)
Definition arrayIncludes (l : list string) (x : string) : bool :=
  existsb (String.eqb x) l.

(** [arr.slice(0, n)] for a number [n] that is greater than zero: the
    fractional part of [n] is dropped. *)
Definition sliceFromStart (l : list string) (n : number) : list string :=
  match n with
  | Finite z => firstn (Z.to_nat z) l
  | Fraction m k => firstn (Z.to_nat (Z.shiftr m (Zpos k))) l
  | Infinity => l
  | _ => []
  end.

(** [options.maxFields && options.maxFields > 0]: zero and [NaN] are falsy. *)
Definition positiveNumber (o : option number) : bool :=
  match o with
  | Some (Finite z) => (0 <? z)%Z
  | Some (Fraction m _) => (0 <? m)%Z
  | Some Infinity => true
  | _ => false
  end.

Definition isTrue (o : option bool) : bool :=
  match o with
  | Some b => b
  | None => false
  end.

Definition nonEmptyList (o : option (list string)) : bool :=
  match o with
  | Some l => Nat.ltb 0 (List.length l)
  | None => false
  end.

Section Presets.

(** The list of the preset ['summary']. Two of its seventeen names have a
    character above U+00FF, which the strings of this model cannot hold, so
    the list is a parameter of [getFieldPreset] and of what calls it. *)
Variable summaryPreset : list string.

(** [getFieldPreset]; [None] is [undefined]. *)
Definition getFieldPreset (preset : string) (allFields : option (list string))
    : option (list string) :=
  if preset =? "minimal" then
    Some ["Creator Name"; "First Name"; "Last Name"; "Email"]
  else if preset =? "contact" then
    Some ["Creator Name"; "First Name"; "Last Name"; "Email"; "Phone Number";
          "Instagram Handle"; "TikTok Handle"; "Instagram URL"; "TikTok URL"]
  else if preset =? "summary" then Some summaryPreset
  else if preset =? "full" then None
  else None.

(** The fields of [filterFields] once the white list and the preset have
    been passed: the four steps that remove fields. *)
Definition removeFields (allFields : list string) (options : FieldFilterOptions.t)
    : list string :=
  let fields := allFields in
  let fields :=
    if nonEmptyList (FieldFilterOptions.excludeFields options) then
      match FieldFilterOptions.excludeFields options with
      | Some excluded => filter (fun f => negb (arrayIncludes excluded f)) fields
      | None => fields
      end
    else fields in
  let fields :=
    if isTrue (FieldFilterOptions.excludeAttachments options)
    then filter (fun f => negb (matchesPatterns f ATTACHMENT_FIELD_PATTERNS)) fields
    else fields in
  let fields :=
    if isTrue (FieldFilterOptions.excludeLongText options)
    then filter (fun f => negb (matchesPatterns f LONG_TEXT_FIELD_PATTERNS)) fields
    else fields in
  let fields :=
    if positiveNumber (FieldFilterOptions.maxFields options) then
      match FieldFilterOptions.maxFields options with
      | Some n => sliceFromStart fields n
      | None => fields
      end
    else fields in
  fields.

(** [filterFields]; [None] is [undefined], which asks for every field. *)
Definition filterFields (allFields : list string) (options : FieldFilterOptions.t)
    : option (list string) :=
  if nonEmptyList (FieldFilterOptions.includeFields options) then
    FieldFilterOptions.includeFields options
  else
    let presetFields :=
      match FieldFilterOptions.preset options with
      | Some preset =>
          if JS.truthy preset then getFieldPreset preset (Some allFields)
          else None
      | None => None
      end in
    match presetFields with
    | Some fields => Some fields
    | None =>
        let fields := removeFields allFields options in
        if Nat.eqb (List.length fields) (List.length allFields) then None
        else Some fields
    end.

(** [smartFilterFields] *)
Definition smartFilterFields (allFields : list string) : list string :=
  match filterFields allFields
          (FieldFilterOptions.mk None None (Some true) (Some true) None None)
  with
  | Some fields => fields
  | None => allFields
  end.

End Presets.

(** ** Errors ([errors.ts]) *)

(** An instance of [AirtableMCPError] or of one of its subclasses, with the
    properties its constructor was given. [BaseError] is an instance of the
    base class itself. The original error kept by an [InternalServerError]
    is known by its message. *)
Inductive AirtableMCPError : Type :=
| BaseError (message code : string) (statusCode : number)
| ValidationError (message : string) (details : option (list string))
| AuthenticationError (message : string)
| AuthorizationError (message : string)
| NotFoundError (message : string)
| RateLimitError (message : string) (retryAfter : option number)
| AirtableAPIError (message : string) (airtableErrorCode : option string)
    (statusCode : number)
| InternalServerError (message : string) (originalError : option string)
| FormulaInjectionError (message : string)
| PayloadTooLargeError (message : string)
| ConfigurationError (message : string).

Module Err.

(** [this.message] *)
Definition message (e : AirtableMCPError) : string :=
  match e with
  | BaseError m _ _ | ValidationError m _ | AuthenticationError m
  | AuthorizationError m | NotFoundError m | RateLimitError m _
  | AirtableAPIError m _ _ | InternalServerError m _
  | FormulaInjectionError m | PayloadTooLargeError m
  | ConfigurationError m => m
  end.

(** [this.code], as each constructor passes it to the base class. *)
Definition code (e : AirtableMCPError) : string :=
  match e with
  | BaseError _ c _ => c
  | ValidationError _ _ => "VALIDATION_ERROR"
  | AuthenticationError _ => "AUTHENTICATION_ERROR"
  | AuthorizationError _ => "AUTHORIZATION_ERROR"
  | NotFoundError _ => "NOT_FOUND"
  | RateLimitError _ _ => "RATE_LIMIT_EXCEEDED"
  | AirtableAPIError _ _ _ => "AIRTABLE_API_ERROR"
  | InternalServerError _ _ => "INTERNAL_SERVER_ERROR"
  | FormulaInjectionError _ => "FORMULA_INJECTION_DETECTED"
  | PayloadTooLargeError _ => "PAYLOAD_TOO_LARGE"
  | ConfigurationError _ => "CONFIGURATION_ERROR"
  end.

(** [this.statusCode] *)
Definition statusCode (e : AirtableMCPError) : number :=
  match e with
  | BaseError _ _ s => s
  | ValidationError _ _ => Finite 400
  | AuthenticationError _ => Finite 401
  | AuthorizationError _ => Finite 403
  | NotFoundError _ => Finite 404
  | RateLimitError _ _ => Finite 429
  | AirtableAPIError _ _ s => s
  | InternalServerError _ _ => Finite 500
  | FormulaInjectionError _ => Finite 400
  | PayloadTooLargeError _ => Finite 413
  | ConfigurationError _ => Finite 400
  end.

(** The default value of a parameter [message: string = '...']. *)
Definition orDefault (o : option string) (default : string) : string :=
  match o with
  | Some s => s
  | None => default
  end.

(** [new AuthenticationError(message?)] *)
Definition newAuthenticationError (m : option string) : AirtableMCPError :=
  AuthenticationError (orDefault m "Invalid or missing API credentials").

(** [new AuthorizationError(message?)] *)
Definition newAuthorizationError (m : option string) : AirtableMCPError :=
  AuthorizationError (orDefault m "Permission denied").

(** [new NotFoundError(resource, id?)] *)
Definition newNotFoundError (resource : string) (id : option string)
    : AirtableMCPError :=
  let m :=
    if JS.truthy_opt id
    then resource ++ " with ID '" ++ orDefault id "" ++ "' not found"
    else resource ++ " not found" in
  NotFoundError m.

(** [new RateLimitError(message?, retryAfter?)] *)
Definition newRateLimitError (m : option string) (retryAfter : option number)
    : AirtableMCPError :=
  RateLimitError (orDefault m "Too many requests. Please try again later.")
    retryAfter.

(** [new AirtableAPIError(message, airtableErrorCode?, statusCode = 500)] *)
Definition newAirtableAPIError (m : string) (airtableErrorCode : option string)
    (status : option number) : AirtableMCPError :=
  AirtableAPIError m airtableErrorCode
    match status with
    | Some s => s
    | None => Finite 500
    end.

(** [new InternalServerError(message?, originalError?)] *)
Definition newInternalServerError (m : option string)
    (originalError : option string) : AirtableMCPError :=
  InternalServerError (orDefault m "An internal error occurred") originalError.

(** [new FormulaInjectionError(fieldName)] *)
Definition newFormulaInjectionError (fieldName : string) : AirtableMCPError :=
  FormulaInjectionError
    ("Invalid field name " ++ String (JS.chr 34) fieldName
     ++ String (JS.chr 34) ": contains potentially dangerous characters").

(** [new PayloadTooLargeError(resource, limit, actual)] *)
Definition newPayloadTooLargeError (resource : string) (limit actual : number)
    : AirtableMCPError :=
  PayloadTooLargeError
    (resource ++ " exceeds maximum size limit. Max: " ++ Num.toString limit
     ++ ", Actual: " ++ Num.toString actual).

(** A literal under the [i] flag at the start of [s]: what follows it. *)
Fixpoint afterWord (word s : string) : option string :=
  match word with
  | EmptyString => Some s
  | String w word' =>
      match s with
      | String c s' =>
          if JS.char_eqb (JS.lowerChar c) (JS.lowerChar w)
          then afterWord word' s' else None
      | EmptyString => None
      end
  end.

Fixpoint takeWhile (p : ascii -> bool) (s : string) : string :=
  match s with
  | EmptyString => EmptyString
  | String c s' => if p c then String c (takeWhile p s') else EmptyString
  end.

Fixpoint dropWhile (p : ascii -> bool) (s : string) : string :=
  match s with
  | EmptyString => EmptyString
  | String c s' => if p c then dropWhile p s' else s
  end.

(** The class [[a-zA-Z0-9]]. *)
Definition isAlnum (c : ascii) : bool :=
  let n := JS.code c in
  (Nat.leb 48 n && Nat.leb n 57) || (Nat.leb 65 n && Nat.leb n 90)
  || (Nat.leb 97 n && Nat.leb n 122).

(** The class of the two quotes, the single one and the double one. *)
Definition isQuote (c : ascii) : bool :=
  JS.char_eqb c "'" || JS.char_eqb c (JS.chr 34).

Definition notQuote (c : ascii) : bool := negb (isQuote c).

Definition notSpace (c : ascii) : bool := negb (JS.isWhiteSpace c).

(** The last character of a string that is not empty. *)
Fixpoint lastChar (c : ascii) (s : string) : ascii :=
  match s with
  | EmptyString => c
  | String d s' => lastChar d s'
  end.

(** The pattern [table], white space, an optional quote, a group of
    characters that are not quotes, an optional quote, under the [i] flag,
    matched at the start of [s]: the group of the first match the
    backtracking finds. The white space is taken whole; then a quote is
    taken when a character that is not a quote follows it, and the group is
    the longest run of characters that are not quotes. When this fails,
    because the string ends or a quote stands where the group should begin,
    the matcher gives one white-space character back, and the group is that
    character. *)
Definition matchTableAt (s : string) : option string :=
  match afterWord "table" s with
  | None => None
  | Some rest =>
      let spaces := takeWhile JS.isWhiteSpace rest in
      let after := dropWhile JS.isWhiteSpace rest in
      let giveBack :=
        match spaces with
        | String c1 (String c2 more) => Some (String (lastChar c2 more) "")
        | _ => None
        end in
      match spaces with
      | EmptyString => None
      | String _ _ =>
          match after with
          | EmptyString => giveBack
          | String q after' =>
              if isQuote q then
                match after' with
                | String c _ =>
                    if isQuote c then giveBack
                    else Some (takeWhile notQuote after')
                | EmptyString => giveBack
                end
              else Some (takeWhile notQuote after)
          end
      end
  end.

(** [message.match(...)[1]]: the group of the leftmost match, [None] when
    the pattern matches nowhere. *)
Fixpoint searchTable (s : string) : option string :=
  match matchTableAt s with
  | Some group => Some group
  | None =>
      match s with
      | String _ s' => searchTable s'
      | EmptyString => None
      end
  end.

(** [str.replace(pattern, by)] for a pattern with the [g] flag that matches
    no empty string: [matchAt] gives the length of the match at the start
    of a string. Matches are replaced from left to right and do not
    overlap; [skip] counts the characters of the last match still to be
    passed over. *)
Fixpoint replaceMatches (matchAt : string -> option nat) (by_ : string)
    (skip : nat) (s : string) : string :=
  match s with
  | EmptyString => EmptyString
  | String c s' =>
      match skip with
      | S k => replaceMatches matchAt by_ k s'
      | O =>
          match matchAt s with
          | Some n => by_ ++ replaceMatches matchAt by_ (Nat.pred n) s'
          | None => String c (replaceMatches matchAt by_ 0 s')
          end
      end
  end.

(** [key], then fourteen or more letters and digits, under the [i] flag. *)
Definition matchKey (s : string) : option nat :=
  match afterWord "key" s with
  | Some rest =>
      let run := String.length (takeWhile isAlnum rest) in
      if Nat.leb 14 run then Some (3 + run) else None
  | None => None
  end.

(** [word], then exactly fourteen letters and digits, under the [i] flag. *)
Definition matchId (word : string) (s : string) : option nat :=
  match afterWord word s with
  | Some rest =>
      if Nat.leb 14 (String.length (takeWhile isAlnum rest))
      then Some (String.length word + 14) else None
  | None => None
  end.

(** [Bearer], white space, then characters that are not white space, under
    the [i] flag. *)
Definition matchBearer (s : string) : option nat :=
  match afterWord "bearer" s with
  | Some rest =>
      let spaces := String.length (takeWhile JS.isWhiteSpace rest) in
      let token :=
        String.length (takeWhile notSpace (dropWhile JS.isWhiteSpace rest)) in
      if Nat.leb 1 spaces && Nat.leb 1 token
      then Some (6 + spaces + token) else None
  | None => None
  end.

(** [sanitizeAirtableError] *)
Definition sanitizeAirtableError (m : string) : string :=
  let m := replaceMatches matchKey "key***" 0 m in
  let m := replaceMatches (matchId "app") "app***" 0 m in
  let m := replaceMatches (matchId "rec") "rec***" 0 m in
  replaceMatches matchBearer "Bearer ***" 0 m.

(** What [toClientError] returns; a property that the class does not set
    is [None]. *)
Record ClientError : Type := mkClientError {
  error : string;
  clientCode : string;
  details : option (list string);
  retryAfter : option number
}.

(** [toClientError], by the class of the error. *)
Definition toClientError (e : AirtableMCPError) : ClientError :=
  match e with
  | ValidationError m d => mkClientError m (code e) d None
  | AuthenticationError _ =>
      mkClientError "Authentication failed. Please check your API credentials."
        (code e) None None
  | AuthorizationError _ =>
      mkClientError "You do not have permission to perform this action."
        (code e) None None
  | RateLimitError m r => mkClientError m (code e) None r
  | AirtableAPIError m _ _ =>
      let sanitizedMessage := sanitizeAirtableError m in
      mkClientError sanitizedMessage (code e) None None
  | InternalServerError _ _ =>
      mkClientError "An internal error occurred. Please try again later."
        (code e) None None
  | BaseError m _ _ | NotFoundError m | FormulaInjectionError m
  | PayloadTooLargeError m | ConfigurationError m =>
      mkClientError m (code e) None None
  end.

End Err.

(** What a [catch] clause receives: an [AirtableMCPError], another [Error]
    with its message, or a value that is not an [Error]. *)
Inductive thrown : Type :=
| ThrownMCPError (e : AirtableMCPError)
| ThrownError (message : string)
| ThrownOther.

(** [wrapError] *)
Definition wrapError (error : thrown) : AirtableMCPError :=
  match error with
  | ThrownMCPError e => e
  | ThrownError message =>
      if JS.includes "AIRTABLE" message || JS.includes "API" message then
        Err.newAirtableAPIError message None None
      else
        let lowerMessage := JS.toLowerCase message in
        if JS.includes "unauthorized" lowerMessage
           || JS.includes "invalid api key" lowerMessage
           || JS.includes "invalid key" lowerMessage
           || JS.includes "authentication failed" lowerMessage
        then Err.newAuthenticationError None
        else if JS.includes "not found" (JS.toLowerCase message)
                || JS.includes "could not find" (JS.toLowerCase message)
        then
          let resource :=
            match Err.searchTable message with
            | Some name => "Table '" ++ name ++ "'"
            | None => "Resource"
            end in
          Err.newNotFoundError resource None
        else Err.newInternalServerError (Some message) (Some message)
  | ThrownOther =>
      Err.newInternalServerError (Some "An unexpected error occurred") None
  end.

(** * Vocabulary of the statements *)

(** [contains c s]: the character [c] occurs in [s]. *)
Definition contains (c : ascii) (s : string) : Prop :=
  exists a b, s = a ++ String c b.

(** The escaping in the words of the specification: each character is mapped
    on its own, a single quote to two single quotes and any other character to
    itself, and the pieces are put together in order. *)
Definition doubleQuotes (s : string) : string :=
  String.concat ""
    (map (fun c => if JS.char_eqb c quote then "''" else String c "")
       (list_ascii_of_string s)).

(** Reading an escaped literal back: a quote followed by a quote stands for
    one quote. *)
Fixpoint unescape (s : string) : string :=
  match s with
  | EmptyString => EmptyString
  | String c s' =>
      if JS.char_eqb c quote then
        match s' with
        | String c' s'' =>
            if JS.char_eqb c' quote then String quote (unescape s'')
            else String c (unescape s')
        | EmptyString => String c EmptyString
        end
      else String c (unescape s')
  end.

(** The quotes of [s], read from the left, come two by two: no quote is left
    alone, which is what would end a literal quoted with single quotes. *)
Fixpoint quotesPaired (s : string) : bool :=
  match s with
  | EmptyString => true
  | String c s' =>
      if JS.char_eqb c quote then
        match s' with
        | String c' s'' => JS.char_eqb c' quote && quotesPaired s''
        | EmptyString => false
        end
      else quotesPaired s'
  end.

(** A backslash followed by a single quote. *)
Definition backslashQuote : string := String (JS.chr 92) (String quote "").


(** The characters a field name must not have. *)
Definition LF : ascii := JS.chr 10.
Definition CR : ascii := JS.chr 13.

Definition hasForbiddenChar (s : string) : Prop :=
  contains "{" s \/ contains "}" s \/ contains LF s \/ contains CR s.

(** [s] begins with a white-space character. *)
Definition startsWithSpace (s : string) : bool :=
  match s with
  | String c _ => JS.isWhiteSpace c
  | EmptyString => false
  end.

(** [s] ends with a white-space character. *)
Fixpoint endsWithSpace (s : string) : bool :=
  match s with
  | EmptyString => false
  | String c EmptyString => JS.isWhiteSpace c
  | String _ s' => endsWithSpace s'
  end.

(** [t] is [s] without its leading and trailing white space: white space
    only was removed at both ends, and none is left there. *)
Definition isTrimOf (s t : string) : Prop :=
  (exists l r, s = l ++ t ++ r
               /\ JS.all JS.isWhiteSpace l = true
               /\ JS.all JS.isWhiteSpace r = true)
  /\ startsWithSpace t = false
  /\ endsWithSpace t = false.

(** A non-empty string of decimal digits. *)
Definition isDecimal (s : string) : Prop :=
  JS.all JS.isDigit s = true /\ s <> "".

(** The number a string of decimal digits writes, read after [acc]. *)
Fixpoint decimalFrom (acc : Z) (s : string) : Z :=
  match s with
  | EmptyString => acc
  | String c s' => decimalFrom (acc * 10 + (Z.of_nat (JS.code c) - 48)) s'
  end.

Definition decimalValue (s : string) : Z := decimalFrom 0 s.

(** The overlap test in the words of the specification: a bucket with the
    bounds [low] and [high] overlaps the query range when
    [low <= maxAge] and [high >= minAge]; a bucket without upper bound
    overlaps it when [maxAge >= low]. *)
Definition overlapsQuery (minAge maxAge : number) (bucket : AgeRangeOption.t)
    : bool :=
  let low := AgeRangeOption.minAge bucket in
  match AgeRangeOption.maxAge bucket with
  | Some high => Num.le low maxAge && Num.ge high minAge
  | None => Num.ge maxAge low
  end.

(** The bucket catalogue of the examples. *)
Definition sampleRanges : list string :=
  ["12-17"; "18-24"; "25-34"; "35-44"; "45-65"; "65+"].

(** The buckets of a catalogue that overlap the query range, in the order of
    the catalogue. *)
Definition overlappingBuckets (minAge maxAge : number)
    (availableRanges : list string) : list string :=
  filter (fun r => overlapsQuery minAge maxAge (parseAgeRange r))
    availableRanges.

(** The formulas a combinator keeps: those that are neither empty nor its
    identity sentinel. *)
Definition survivors (sentinel : string) (formulas : list string)
    : list string :=
  filter (fun f => negb (f =? "") && negb (f =? sentinel)) formulas.

(** The formulas [first], [rest] written one after the other, a comma and a
    space between two of them. *)
Fixpoint commaSeparated (first : string) (rest : list string) : string :=
  match rest with
  | [] => first
  | next :: rest' => first ++ ", " ++ commaSeparated next rest'
  end.

(** [opt] is [token] up to case. *)
Definition sameIgnoringCase (opt token : string) : bool :=
  JS.toLowerCase opt =? JS.toLowerCase token.

(** The resolution of one token in the words of the specification: the
    first vocabulary entry equal to the token up to case and nothing else
    when there is one, and otherwise every vocabulary entry that has the
    token as a substring up to case. *)
Definition statedResolution (vocabulary : list string) (token : string)
    : list string :=
  match List.find (fun opt => sameIgnoringCase opt token) vocabulary with
  | Some canonical => [canonical]
  | None =>
      filter (fun opt =>
                JS.includes (JS.toLowerCase token) (JS.toLowerCase opt))
        vocabulary
  end.

(** What the code resolves one token to: the names [resolveStep] adds. *)
Definition codeResolution (vocabulary : list string) (token : string)
    : list string :=
  resolveStep vocabulary StringSet.empty token.

(** A bound that was supplied and is not a finite number. *)
Definition notFinite (bound : option number) : Prop :=
  exists value, bound = Some value /\ Num.isFinite value = false.

(** A date bound that was supplied, is not the empty string and does not
    match the date pattern. *)
Definition badDate (bound : option string) : Prop :=
  exists date, bound = Some date /\ date <> "" /\ isoDateTest date = false.

(** The combinator a smart query asks for. *)
Definition combineBy (cw : combineWith) (formulas : list string) : string :=
  match cw with
  | OR => combineFormulasOr formulas
  | AND => combineFormulasAnd formulas
  end.

(** The additional filters of a query tool, once joined to the formula [g]
    of the tool by [combineFormulasAnd]. *)
Definition withFilters (g filters : string) : string :=
  if (filters =? "") || (filters =? "TRUE()") then g
  else if g =? "TRUE()" then filters
  else "AND(" ++ g ++ ", " ++ filters ++ ")".

(** The language of a regular expression. *)
Inductive lang : Regex.t -> string -> Prop :=
| lang_eps : lang Regex.Eps ""
| lang_chr (p : ascii -> bool) (c : ascii) :
    p c = true -> lang (Regex.Chr p) (String c "")
| lang_cat (r1 r2 : Regex.t) (s1 s2 : string) :
    lang r1 s1 -> lang r2 s2 -> lang (Regex.Cat r1 r2) (s1 ++ s2)
| lang_alt_l (r1 r2 : Regex.t) (s : string) :
    lang r1 s -> lang (Regex.Alt r1 r2) s
| lang_alt_r (r1 r2 : Regex.t) (s : string) :
    lang r2 s -> lang (Regex.Alt r1 r2) s
| lang_star_nil (r : Regex.t) : lang (Regex.Star r) ""
| lang_star_cons (r : Regex.t) (s1 s2 : string) :
    lang r s1 -> lang (Regex.Star r) s2 -> lang (Regex.Star r) (s1 ++ s2).

(** [m] occurs in [s]. *)
Definition occursIn (m s : string) : Prop := exists a b, s = a ++ m ++ b.

(** [l1] is [l2] with some elements left out, the others in their order. *)
Inductive subsequence : list string -> list string -> Prop :=
| subsequence_nil : subsequence [] []
| subsequence_skip (x : string) (l1 l2 : list string) :
    subsequence l1 l2 -> subsequence l1 (x :: l2)
| subsequence_take (x : string) (l1 l2 : list string) :
    subsequence l1 l2 -> subsequence (x :: l1) (x :: l2).

(** The words that make a field an attachment field, and a long text
    field, when its name has one of them whatever the case. *)
Definition attachmentKeywords : list string :=
  ["headshot"; "photo"; "image"; "picture"; "sample"; "video"; "attachment";
   "file"; "media"; "screenshot"; "living room"; "bathroom"; "current setup";
   "dropbox"].

Definition longTextKeywords : list string :=
  ["feedback"; "note"; "description"; "bio"; "comments"; "summary"; "content"].

(** [fieldName] has the word [keyword], whatever the case of its letters. *)
Definition hasKeyword (fieldName keyword : string) : bool :=
  JS.includes keyword (JS.toLowerCase fieldName).

(** The name [fieldName] has the word [a], then any characters other than
    line terminators, then the word [b], whatever the case of the letters:
    the pattern [a.*b]. *)
Definition wordsApart (fieldName a b : string) : Prop :=
  exists x g y,
    occursIn (x ++ g ++ y) fieldName
    /\ JS.toLowerCase x = a /\ JS.toLowerCase y = b
    /\ JS.any JS.isLineTerminator g = false.

(** The fields a call of [filterFields] stands for: [undefined] asks for
    every field. *)
Definition returnedFields (allFields : list string)
    (result : option (list string)) : list string :=
  match result with
  | Some fields => fields
  | None => allFields
  end.

(** The two texts a client is given in place of the message of an error. *)
Definition authenticationText : string :=
  "Authentication failed. Please check your API credentials.".

Definition internalText : string :=
  "An internal error occurred. Please try again later.".

(** [word], whatever the case of its letters, followed by at least fourteen
    letters or digits, stands at the start of [s]: an API key for [key], a
    base for [app], a record for [rec]. *)
Definition tokenAt (word s : string) : bool :=
  match Err.afterWord word s with
  | Some rest => Nat.leb 14 (String.length (Err.takeWhile Err.isAlnum rest))
  | None => false
  end.

(** Such a token stands somewhere in [s]. *)
Definition hasToken (word s : string) : Prop :=
  exists a b, s = a ++ b /\ tokenAt word b = true.

(** [o] is [s] with some of its parts replaced by [R], from left to right:
    each replaced part begins with the word [W] up to case, and a character
    that is kept stands where [matchAt] finds no match. *)
Inductive redacts (matchAt : string -> option nat) (W R : string)
    : string -> string -> Prop :=
| redacts_nil : redacts matchAt W R "" ""
| redacts_keep (c : ascii) (s o : string) :
    matchAt (String c s) = None ->
    redacts matchAt W R s o ->
    redacts matchAt W R (String c s) (String c o)
| redacts_match (wm mr s o : string) :
    JS.toLowerCase wm = JS.toLowerCase W ->
    redacts matchAt W R s o ->
    redacts matchAt W R (wm ++ mr ++ s) (R ++ o).

(** A matcher gives the length of a match that is not empty, lies in the
    string and begins with the word [W] up to case. *)
Definition matcherOf (W : string) (matchAt : string -> option nat) : Prop :=
  forall s n,
    matchAt s = Some n ->
    exists wm mr t,
      s = wm ++ mr ++ t
      /\ JS.toLowerCase wm = JS.toLowerCase W
      /\ String.length (wm ++ mr) = n
      /\ 1 <= n.

(** * Properties *)

(** ** Strings *)

Lemma char_eqb_eq (a b : ascii) : JS.char_eqb a b = true <-> a = b.
Proof. unfold JS.char_eqb. apply Ascii.eqb_eq. Qed.

Lemma char_eqb_refl (a : ascii) : JS.char_eqb a a = true.
Proof. apply char_eqb_eq. reflexivity. Qed.

Lemma char_eqb_neq (a b : ascii) : JS.char_eqb a b = false <-> a <> b.
Proof. unfold JS.char_eqb. apply Ascii.eqb_neq. Qed.

Lemma append_nil_r (s : string) : s ++ "" = s.
Proof. induction s as [|c s IH]; simpl; [reflexivity | now rewrite IH]. Qed.

Lemma append_assoc (a b c : string) : (a ++ b) ++ c = a ++ (b ++ c).
Proof. induction a as [|x a IH]; simpl; [reflexivity | now rewrite IH]. Qed.

Lemma all_append (p : ascii -> bool) (a b : string) :
  JS.all p (a ++ b) = JS.all p a && JS.all p b.
Proof.
  induction a as [|x a IH]; simpl; [reflexivity|].
  rewrite IH. now rewrite andb_assoc.
Qed.

Lemma any_append (p : ascii -> bool) (a b : string) :
  JS.any p (a ++ b) = JS.any p a || JS.any p b.
Proof.
  induction a as [|x a IH]; simpl; [reflexivity|].
  rewrite IH. now rewrite orb_assoc.
Qed.

Lemma any_true_iff (p : ascii -> bool) (s : string) :
  JS.any p s = true <-> exists c, p c = true /\ contains c s.
Proof.
  induction s as [|x s IH]; simpl.
  - split; [discriminate|]. intros (c & _ & a & b & E).
    destruct a; discriminate.
  - rewrite orb_true_iff, IH. split.
    + intros [H | (c & Hc & a & b & E)].
      * exists x. split; [exact H|]. exists "", s. reflexivity.
      * exists c. split; [exact Hc|]. exists (String x a), b. now rewrite E.
    + intros (c & Hc & a & b & E). destruct a as [|y a]; simpl in E.
      * injection E as -> _. now left.
      * injection E as _ ->. right. exists c. split; [exact Hc|]. now exists a, b.
Qed.

(** ** C1: escaping *)

Lemma concat_empty_cons (x : string) (l : list string) :
  String.concat "" (x :: l) = x ++ String.concat "" l.
Proof.
  destruct l as [|y l]; simpl; [now rewrite append_nil_r | reflexivity].
Qed.

Lemma escape_doubleQuotes (s : string) : escapeFormulaString s = doubleQuotes s.
Proof.
  unfold escapeFormulaString, doubleQuotes.
  induction s as [|c s IH]; [reflexivity|].
  cbn [JS.replaceAll list_ascii_of_string map].
  rewrite concat_empty_cons, IH.
  destruct (JS.char_eqb c quote); reflexivity.
Qed.

Lemma escape_append (a b : string) :
  escapeFormulaString (a ++ b) = escapeFormulaString a ++ escapeFormulaString b.
Proof.
  unfold escapeFormulaString.
  induction a as [|c a IH]; simpl; [reflexivity|].
  destruct (JS.char_eqb c quote); simpl; now rewrite IH.
Qed.

Lemma unescape_escape (s : string) : unescape (escapeFormulaString s) = s.
Proof.
  unfold escapeFormulaString.
  induction s as [|c s IH]; [reflexivity|].
  cbn [JS.replaceAll]. destruct (JS.char_eqb c quote) eqn:E.
  - apply char_eqb_eq in E. subst c. simpl. now rewrite IH.
  - cbn [unescape]. rewrite E. now rewrite IH.
Qed.

Lemma escape_quotesPaired (s : string) :
  quotesPaired (escapeFormulaString s) = true.
Proof.
  unfold escapeFormulaString.
  induction s as [|c s IH]; [reflexivity|].
  cbn [JS.replaceAll]. destruct (JS.char_eqb c quote) eqn:E.
  - simpl. exact IH.
  - cbn [quotesPaired]. rewrite E. exact IH.
Qed.

(** In a string whose quotes are paired every quote has a quote next to it. *)
Lemma quotesPaired_neighbour (n : nat) :
  forall t, String.length t <= n -> quotesPaired t = true ->
  forall i, String.get i t = Some quote ->
    String.get (S i) t = Some quote \/
    exists j, i = S j /\ String.get j t = Some quote.
Proof.
  induction n as [|n IH]; intros t Hlen Hp i Hi.
  - destruct t; simpl in *; [discriminate | lia].
  - destruct t as [|c t]; [discriminate|].
    cbn [quotesPaired] in Hp. destruct (JS.char_eqb c quote) eqn:E.
    + destruct t as [|c' t]; [discriminate|].
      apply andb_true_iff in Hp as [E' Hp].
      apply char_eqb_eq in E, E'. subst c c'.
      destruct i as [|[|i]].
      * left. reflexivity.
      * right. exists 0. split; reflexivity.
      * cbn [String.get] in Hi.
        assert (L : String.length t <= n) by (simpl in Hlen; lia).
        destruct (IH t L Hp i Hi) as [H | (j & -> & H)].
        -- left. exact H.
        -- right. exists (S (S j)). split; [reflexivity | exact H].
    + destruct i as [|i].
      * simpl in Hi. injection Hi as ->.
        rewrite char_eqb_refl in E. discriminate.
      * cbn [String.get] in Hi.
        assert (L : String.length t <= n) by (simpl in Hlen; lia).
        destruct (IH t L Hp i Hi) as [H | (j & -> & H)].
        -- left. exact H.
        -- right. exists (S j). split; [reflexivity | exact H].
Qed.

Lemma startsWith_quote_escape (s : string) :
  JS.startsWith (String quote "") (escapeFormulaString s)
  = JS.startsWith (String quote "") s.
Proof.
  unfold escapeFormulaString. destruct s as [|c s]; [reflexivity|].
  cbn [JS.replaceAll]. destruct (JS.char_eqb c quote) eqn:E.
  - apply char_eqb_eq in E. subst c. reflexivity.
  - reflexivity.
Qed.

Lemma escape_backslashQuote (s : string) :
  JS.includes backslashQuote (escapeFormulaString s)
  = JS.includes backslashQuote s.
Proof.
  induction s as [|c s IH]; [reflexivity|].
  cbn [JS.includes]. rewrite <- IH.
  unfold escapeFormulaString in *. cbn [JS.replaceAll].
  destruct (JS.char_eqb c quote) eqn:E.
  - apply char_eqb_eq in E. subst c. reflexivity.
  - cbn [JS.includes]. f_equal.
    unfold backslashQuote. cbn [JS.startsWith]. f_equal.
    apply startsWith_quote_escape.
Qed.

(** C1, as amended. [escapeFormulaString] is a total function (it returns a
    string, never an error) that replaces every single quote of its input by
    two single quotes and changes nothing else: it is the character-wise
    doubling, it distributes over concatenation and reading the pairs back
    gives the input. In its output the quotes come in pairs, so every quote
    has another quote immediately before or after it. The output has a
    backslash immediately followed by a quote exactly when the input has one:
    the function adds no backslash but leaves those of the input in place. *)
Theorem escapeFormulaString_spec (s : string) :
  escapeFormulaString s = doubleQuotes s
  /\ (forall a b, escapeFormulaString (a ++ b)
                  = escapeFormulaString a ++ escapeFormulaString b)
  /\ unescape (escapeFormulaString s) = s
  /\ quotesPaired (escapeFormulaString s) = true
  /\ (forall i, String.get i (escapeFormulaString s) = Some quote ->
        String.get (S i) (escapeFormulaString s) = Some quote \/
        exists j, i = S j /\ String.get j (escapeFormulaString s) = Some quote)
  /\ JS.includes backslashQuote (escapeFormulaString s)
     = JS.includes backslashQuote s.
Proof.
  split; [apply escape_doubleQuotes|].
  split; [apply escape_append|].
  split; [apply unescape_escape|].
  split; [apply escape_quotesPaired|].
  split; [|apply escape_backslashQuote].
  intros i Hi.
  apply (quotesPaired_neighbour (String.length (escapeFormulaString s)));
    [lia | apply escape_quotesPaired | exact Hi].
Qed.

(** C1 as first stated fails: the escaped form of a backslash followed by a
    quote is a backslash followed by two quotes, which contains a backslash
    immediately followed by a quote. *)
Lemma escapeFormulaString_keeps_backslash :
  escapeFormulaString backslashQuote = String (JS.chr 92) "''"
  /\ JS.includes backslashQuote (escapeFormulaString backslashQuote) = true.
Proof. split; reflexivity. Qed.

(** ** C2: field names *)

Lemma forbiddenChar_iff (c : ascii) :
  forbiddenChar c = true <-> c = "{"%char \/ c = "}"%char \/ c = LF \/ c = CR.
Proof.
  unfold forbiddenChar, LF, CR.
  rewrite !orb_true_iff, !char_eqb_eq. tauto.
Qed.

Lemma any_forbidden_iff (s : string) :
  JS.any forbiddenChar s = true <-> hasForbiddenChar s.
Proof.
  rewrite any_true_iff. unfold hasForbiddenChar. split.
  - intros (c & Hc & Hin). apply forbiddenChar_iff in Hc.
    destruct Hc as [-> | [-> | [-> | ->]]]; tauto.
  - intros [H | [H | [H | H]]];
      eexists; (split; [|exact H]); apply forbiddenChar_iff; tauto.
Qed.

Lemma trimStart_split (s : string) :
  exists l, s = l ++ JS.trimStart s /\ JS.all JS.isWhiteSpace l = true.
Proof.
  induction s as [|c s (l & E & Hl)]; simpl.
  - exists "". split; reflexivity.
  - destruct (JS.isWhiteSpace c) eqn:W.
    + exists (String c l). simpl. rewrite W, Hl. split; [now rewrite <- E | reflexivity].
    + exists "". split; reflexivity.
Qed.

Lemma trimStart_head (s : string) : startsWithSpace (JS.trimStart s) = false.
Proof.
  induction s as [|c s IH]; simpl; [reflexivity|].
  destruct (JS.isWhiteSpace c) eqn:W; [exact IH | exact W].
Qed.

Lemma trimEnd_split (s : string) :
  exists r, s = JS.trimEnd s ++ r /\ JS.all JS.isWhiteSpace r = true.
Proof.
  induction s as [|c s (r & E & Hr)]; simpl.
  - exists "". split; reflexivity.
  - destruct (JS.trimEnd s) as [|d t] eqn:T.
    + simpl in E. subst r. destruct (JS.isWhiteSpace c) eqn:W.
      * exists (String c s). simpl. rewrite W, Hr. split; reflexivity.
      * exists s. split; [reflexivity | exact Hr].
    + exists r. split; [|exact Hr]. simpl in E |- *. now rewrite <- E.
Qed.

Lemma trimEnd_last (s : string) : endsWithSpace (JS.trimEnd s) = false.
Proof.
  induction s as [|c s IH]; simpl; [reflexivity|].
  destruct (JS.trimEnd s) as [|d t] eqn:T.
  - destruct (JS.isWhiteSpace c) eqn:W; simpl; [reflexivity | exact W].
  - exact IH.
Qed.

Lemma trimEnd_head (s : string) :
  startsWithSpace s = false -> startsWithSpace (JS.trimEnd s) = false.
Proof.
  destruct s as [|c s]; simpl; [reflexivity|]. intros W.
  destruct (JS.trimEnd s); [rewrite W|]; simpl; exact W.
Qed.

Lemma trim_isTrimOf (s : string) : isTrimOf s (JS.trim s).
Proof.
  unfold isTrimOf, JS.trim. split; [|split].
  - destruct (trimStart_split s) as (l & El & Hl).
    destruct (trimEnd_split (JS.trimStart s)) as (r & Er & Hr).
    exists l, r. split; [|split; assumption].
    now rewrite <- Er.
  - apply trimEnd_head, trimStart_head.
  - apply trimEnd_last.
Qed.

Lemma length_zero_iff (s : string) : Nat.eqb (JS.length s) 0 = true <-> s = "".
Proof. destruct s; simpl; split; intros H; congruence. Qed.

Lemma sanitizeFieldName_throws_iff (fieldName : string) :
  throws (sanitizeFieldName fieldName)
  <-> hasForbiddenChar fieldName \/ JS.trim fieldName = "".
Proof.
  unfold sanitizeFieldName, throws. rewrite <- any_forbidden_iff.
  destruct (JS.any forbiddenChar fieldName).
  - split; [now left | eexists; reflexivity].
  - destruct (Nat.eqb (JS.length (JS.trim fieldName)) 0) eqn:L.
    + apply length_zero_iff in L. split; [now right | eexists; reflexivity].
    + split.
      * intros (msg & H). discriminate.
      * intros [H | H]; [discriminate|].
        apply length_zero_iff in H. congruence.
Qed.

Lemma sanitizeFieldName_ok_or_throws (fieldName : string) :
  sanitizeFieldName fieldName = Ok (JS.trim fieldName)
  \/ throws (sanitizeFieldName fieldName).
Proof.
  unfold sanitizeFieldName, throws.
  destruct (JS.any forbiddenChar fieldName); [right; eexists; reflexivity|].
  destruct (Nat.eqb (JS.length (JS.trim fieldName)) 0);
    [right; eexists; reflexivity | now left].
Qed.

(** C2. [sanitizeFieldName] throws exactly when its input has an opening or
    closing brace, a line feed or a carriage return, or trims to the empty
    string; on every other input it returns the trimmed input, which is the
    input with white space removed at its two ends and nothing else changed.
    It is a function of its argument alone. *)
Theorem sanitizeFieldName_spec (fieldName : string) :
  (throws (sanitizeFieldName fieldName)
   <-> hasForbiddenChar fieldName \/ JS.trim fieldName = "")
  /\ (~ (hasForbiddenChar fieldName \/ JS.trim fieldName = "")
      -> sanitizeFieldName fieldName = Ok (JS.trim fieldName))
  /\ isTrimOf fieldName (JS.trim fieldName).
Proof.
  split; [apply sanitizeFieldName_throws_iff|].
  split; [|apply trim_isTrimOf].
  intros H. destruct (sanitizeFieldName_ok_or_throws fieldName) as [E | T];
    [exact E|].
  apply sanitizeFieldName_throws_iff in T. contradiction.
Qed.

(** ** C3: overlapping age ranges *)

(** Facts about single characters are settled on the 256 characters. *)
Ltac by_chars c :=
  destruct c as [[|] [|] [|] [|] [|] [|] [|] [|]];
  vm_compute; try reflexivity; try discriminate; try (intuition congruence).

Lemma digit_not_space (c : ascii) :
  JS.isDigit c = true -> JS.isWhiteSpace c = false.
Proof. by_chars c. Qed.

Lemma digit_not_sign (c : ascii) :
  JS.isDigit c = true ->
  JS.char_eqb c "-" = false /\ JS.char_eqb c "+" = false.
Proof. by_chars c. Qed.

Lemma digit_not_x (c : ascii) :
  JS.isDigit c = true ->
  JS.char_eqb c "x" || JS.char_eqb c "X" = false.
Proof. by_chars c. Qed.

Lemma digitValue_decimal (c : ascii) :
  JS.isDigit c = true ->
  Num.digitValue 10 c = Some (Z.of_nat (JS.code c) - 48)%Z.
Proof. by_chars c. Qed.

Lemma digits_decimal (s : string) :
  JS.all JS.isDigit s = true ->
  forall acc seen,
    Num.digits 10 acc seen s
    = if seen || negb (s =? "") then Some (decimalFrom acc s) else None.
Proof.
  induction s as [|c s IH]; intros H acc seen.
  - simpl. now rewrite orb_false_r.
  - simpl in H. apply andb_true_iff in H as [Hc Hs].
    cbn [Num.digits decimalFrom]. rewrite (digitValue_decimal c Hc).
    rewrite (IH Hs). simpl. now rewrite orb_true_r.
Qed.

Lemma parseInt_decimal (s : string) :
  isDecimal s -> Num.parseInt s = Num.ofInteger (decimalValue s).
Proof.
  intros [Hd Hne]. destruct s as [|c s]; [congruence|].
  pose proof Hd as Hall.
  simpl in Hd. apply andb_true_iff in Hd as [Hc Hs].
  unfold Num.parseInt. cbn [JS.trimStart].
  rewrite (digit_not_space c Hc).
  destruct (digit_not_sign c Hc) as [-> ->].
  assert (R : (match String c s with
               | String c0 (String c1 r) =>
                   if JS.char_eqb c0 "0"
                      && (JS.char_eqb c1 "x" || JS.char_eqb c1 "X")
                   then (16%Z, r) else (10%Z, String c s)
               | _ => (10%Z, String c s)
               end) = (10%Z, String c s)).
  { destruct s as [|d s]; [reflexivity|].
    simpl in Hs. apply andb_true_iff in Hs as [Hd _].
    rewrite (digit_not_x d Hd), andb_false_r. reflexivity. }
  rewrite R. rewrite (digits_decimal _ Hall).
  cbn [orb negb String.eqb]. rewrite Z.mul_1_l. reflexivity.
Qed.

(** An integer below 2^53 in magnitude is a double. *)
Lemma ofInteger_safe (z : Z) :
  (Z.abs z < 2 ^ 53)%Z -> Num.ofInteger z = Finite z.
Proof.
  intros H. unfold Num.ofInteger.
  assert (L : (Z.log2 (Z.abs z) < 53)%Z).
  { destruct (Z.eq_dec (Z.abs z) 0) as [E|E].
    - rewrite E. reflexivity.
    - apply Z.log2_lt_pow2; lia. }
  destruct (Z.leb_spec (Z.log2 (Z.abs z) + 1 - 53) 0); [reflexivity | lia].
Qed.

(** *** The numbers [parseInt] gives are doubles *)

Section Doubles.

Local Open Scope Z_scope.

(** A significand of 53 bits over a power of two. *)
Lemma double_multiple (q e : Z) :
  0 <= e -> 2 ^ 52 <= q <= 2 ^ 53 -> q * 2 ^ e < 2 ^ 1024 ->
  Num.isDouble (Finite (q * 2 ^ e)) = true.
Proof.
  intros He Hq Hv.
  assert (P : 0 < 2 ^ e) by (apply Z.pow_pos_nonneg; lia).
  assert (V : 0 < q * 2 ^ e) by nia.
  cbn [Num.isDouble]. rewrite (Z.abs_eq (q * 2 ^ e)) by lia.
  apply orb_true_iff. right. apply andb_true_iff. split.
  - apply Z.ltb_lt. rewrite Z.shiftl_1_l. exact Hv.
  - apply Z.eqb_eq. rewrite Z.log2_mul_pow2 by lia.
    destruct (Z.eq_dec q (2 ^ 53)) as [->|N].
    + rewrite Z.log2_pow2 by lia.
      replace (e + 53 - 52) with (e + 1) by lia.
      rewrite Z.shiftr_div_pow2, Z.shiftl_mul_pow2 by lia.
      rewrite Z.pow_add_r by lia.
      replace (2 ^ 53 * 2 ^ e) with (2 ^ 52 * (2 ^ e * 2 ^ 1)) by (change (2 ^ 53) with (2 ^ 52 * 2 ^ 1); ring).
      rewrite Z.div_mul by lia. reflexivity.
    + assert (L : Z.log2 q = 52).
      { apply Z.log2_unique; [lia|]. change (Z.succ 52) with 53. lia. }
      rewrite L. replace (e + 52 - 52) with e by lia.
      rewrite Z.shiftr_div_pow2, Z.shiftl_mul_pow2 by lia.
      rewrite Z.div_mul by lia. reflexivity.
Qed.

(** The rounding of an integer gives a double or an infinity. *)
Lemma ofInteger_isDouble (z : Z) : Num.isDouble (Num.ofInteger z) = true.
Proof.
  unfold Num.ofInteger.
  set (a := Z.abs z). set (extra := Z.log2 a + 1 - 53).
  destruct (Z.leb_spec extra 0) as [Hle|Hgt].
  - cbn [Num.isDouble]. fold a.
    destruct (Z.eqb_spec z 0) as [Hz|Hz]; [reflexivity|]. cbn [orb].
    assert (Ha : 0 < a) by (unfold a; lia).
    assert (Hb : a < 2 ^ 53) by (apply Z.log2_lt_pow2; unfold extra in Hle; lia).
    apply andb_true_iff. split.
    + apply Z.ltb_lt. rewrite Z.shiftl_1_l.
      apply Z.lt_trans with (2 ^ 53); [exact Hb | reflexivity].
    + apply Z.eqb_eq.
      replace (Z.log2 a - 52) with (- (52 - Z.log2 a)) by lia.
      rewrite Z.shiftr_opp_r, Z.shiftl_opp_r.
      rewrite Z.shiftr_shiftl_l by (unfold extra in Hle; lia).
      rewrite Z.sub_diag. reflexivity.
  - assert (Ha : 0 < a).
    { destruct (Z.eq_dec a 0) as [E|E]; [|unfold a in *; lia].
      unfold extra in Hgt. rewrite E in Hgt. cbn in Hgt. lia. }
    assert (He : 0 <= extra) by lia.
    pose proof (Z.log2_spec a Ha) as [Lo Hi].
    replace (Z.log2 a) with (52 + extra) in Lo by (unfold extra; lia).
    replace (Z.succ (Z.log2 a)) with (53 + extra) in Hi by (unfold extra; lia).
    rewrite Z.pow_add_r in Lo, Hi by lia.
    assert (P : 0 < 2 ^ extra) by (apply Z.pow_pos_nonneg; lia).
    set (q := Z.shiftr a extra).
    assert (Q : 2 ^ 52 <= q < 2 ^ 53).
    { unfold q. rewrite Z.shiftr_div_pow2 by lia. split.
      - apply Z.div_le_lower_bound; lia.
      - apply Z.div_lt_upper_bound; lia. }
    match goal with |- context [if ?c then (q + 1) else q] => set (q' := if c then q + 1 else q) end.
    assert (Q' : 2 ^ 52 <= q' <= 2 ^ 53) by (unfold q'; destruct (_ || _); lia).
    rewrite (Z.shiftl_mul_pow2 q') by lia.
    rewrite Z.shiftl_1_l.
    destruct (Z.ltb_spec (q' * 2 ^ extra) (2 ^ 1024)) as [Hv|Hv].
    + assert (Hz : z <> 0) by (unfold a in Ha; lia).
      destruct (Z.sgn_spec z) as [[Hs E]|[[Hs E]|[Hs E]]]; try lia; rewrite E.
      * rewrite Z.mul_1_l. now apply double_multiple.
      * pose proof (double_multiple q' extra He Q' Hv) as D.
        cbn [Num.isDouble] in D |- *.
        rewrite Z.mul_opp_l, Z.mul_1_l, !Z.abs_opp.
        apply orb_true_iff in D as [D|D].
        -- apply Z.eqb_eq in D. nia.
        -- rewrite D. apply orb_true_r.
    + destruct (z <? 0); reflexivity.
Qed.

(** So does [parseInt], whatever the string. *)
Lemma parseInt_isDouble (s : string) : Num.isDouble (Num.parseInt s) = true.
Proof.
  unfold Num.parseInt.
  destruct (match JS.trimStart s with String c r => _ | EmptyString => _ end) as [sign s2].
  destruct (match s2 with String c0 (String c1 r) => _ | _ => _ end) as [radix s3].
  destruct (Num.digits radix 0 false s3); [apply ofInteger_isDouble | reflexivity].
Qed.

End Doubles.

Lemma digit_code (c : ascii) :
  JS.isDigit c = true -> (0 <= Z.of_nat (JS.code c) - 48)%Z.
Proof. by_chars c. Qed.

Lemma decimalFrom_nonneg (s : string) :
  JS.all JS.isDigit s = true ->
  forall acc, (0 <= acc)%Z -> (0 <= decimalFrom acc s)%Z.
Proof.
  induction s as [|c s IH]; intros H acc Hacc; [exact Hacc|].
  simpl in H. apply andb_true_iff in H as [Hc Hs].
  cbn [decimalFrom]. apply (IH Hs). pose proof (digit_code c Hc). lia.
Qed.

(** A decimal below 2^53 is parsed to its value. *)
Lemma ofInteger_decimal (s : string) :
  isDecimal s -> (decimalValue s < 2 ^ 53)%Z ->
  Num.ofInteger (decimalValue s) = Finite (decimalValue s).
Proof.
  intros [Hd _] H. apply ofInteger_safe.
  pose proof (decimalFrom_nonneg s Hd 0%Z (Z.le_refl 0)) as N.
  fold (decimalValue s) in N. lia.
Qed.

Lemma includes_char (c : ascii) (s : string) :
  JS.includes (String c "") s = JS.any (fun x => JS.char_eqb c x) s.
Proof.
  induction s as [|x s IH]; [reflexivity|].
  cbn [JS.includes JS.any JS.startsWith]. rewrite IH.
  now rewrite andb_true_r.
Qed.

Lemma digits_no_char (c : ascii) (s : string) :
  (forall d, JS.isDigit d = true -> JS.char_eqb c d = false) ->
  JS.all JS.isDigit s = true ->
  JS.any (fun x => JS.char_eqb c x) s = false.
Proof.
  intros Hc. induction s as [|x s IH]; simpl; [reflexivity|].
  intros H. apply andb_true_iff in H as [Hx Hs].
  now rewrite (Hc x Hx), (IH Hs).
Qed.

Lemma plus_not_digit (d : ascii) :
  JS.isDigit d = true -> JS.char_eqb "+" d = false.
Proof. by_chars d. Qed.

Lemma split_digits (s : string) :
  JS.all JS.isDigit s = true -> JS.split "-" s = [s].
Proof.
  induction s as [|c s IH]; simpl; [reflexivity|].
  intros H. apply andb_true_iff in H as [Hc Hs].
  destruct (digit_not_sign c Hc) as [-> _]. now rewrite (IH Hs).
Qed.

Lemma split_digits_dash (low rest : string) :
  JS.all JS.isDigit low = true ->
  JS.split "-" (low ++ String "-" rest) = low :: JS.split "-" rest.
Proof.
  induction low as [|c s IH]; simpl; [reflexivity|].
  intros H. apply andb_true_iff in H as [Hc Hs].
  destruct (digit_not_sign c Hc) as [-> _]. now rewrite (IH Hs).
Qed.

Lemma replaceFirst_digits_plus (low : string) :
  JS.all JS.isDigit low = true ->
  JS.replaceFirst "+" "" (low ++ "+") = low.
Proof.
  induction low as [|c s IH]; simpl; [reflexivity|].
  intros H. apply andb_true_iff in H as [Hc Hs].
  destruct (digit_not_sign c Hc) as [_ ->]. now rewrite (IH Hs).
Qed.

(** A label [low-high] is a bucket with the two bounds. *)
Lemma parseAgeRange_bounded (low high : string) :
  isDecimal low -> isDecimal high ->
  parseAgeRange (low ++ "-" ++ high)
  = AgeRangeOption.mk "" (low ++ "-" ++ high)
      (Num.ofInteger (decimalValue low))
      (Some (Num.ofInteger (decimalValue high))).
Proof.
  intros Hl Hh. unfold parseAgeRange.
  rewrite includes_char, any_append. cbn [append JS.any].
  rewrite (digits_no_char "+" low plus_not_digit (proj1 Hl)).
  rewrite (digits_no_char "+" high plus_not_digit (proj1 Hh)).
  cbn [orb JS.char_eqb]. change (JS.char_eqb "+" "-") with false. cbn [orb].
  rewrite (split_digits_dash low high (proj1 Hl)).
  rewrite (split_digits high (proj1 Hh)).
  cbn [JS.index nth_error Num.parseIntOpt].
  now rewrite (parseInt_decimal low Hl), (parseInt_decimal high Hh).
Qed.

(** A label [low+] is a bucket with a lower bound only. *)
Lemma parseAgeRange_unbounded (low : string) :
  isDecimal low ->
  parseAgeRange (low ++ "+")
  = AgeRangeOption.mk "" (low ++ "+")
      (Num.ofInteger (decimalValue low)) None.
Proof.
  intros Hl. unfold parseAgeRange.
  rewrite includes_char, any_append. cbn [JS.any].
  rewrite char_eqb_refl, orb_true_r.
  rewrite (replaceFirst_digits_plus low (proj1 Hl)).
  now rewrite (parseInt_decimal low Hl).
Qed.

Lemma parseAgeRange_name (rangeStr : string) :
  AgeRangeOption.name (parseAgeRange rangeStr) = rangeStr.
Proof. unfold parseAgeRange. destruct (JS.includes "+" rangeStr); reflexivity. Qed.

Lemma overlapStep_overlapsQuery (minAge maxAge : number)
    (overlapping : list string) (rangeStr : string) :
  overlapStep minAge maxAge overlapping (parseAgeRange rangeStr)
  = (overlapping ++
       if overlapsQuery minAge maxAge (parseAgeRange rangeStr)
       then [rangeStr] else [])%list.
Proof.
  unfold overlapStep, overlapsQuery. rewrite parseAgeRange_name.
  destruct (AgeRangeOption.maxAge (parseAgeRange rangeStr)) as [high|].
  - destruct (_ && _); [reflexivity | now rewrite app_nil_r].
  - destruct (Num.ge _ _); [reflexivity | now rewrite app_nil_r].
Qed.

Lemma overlap_loop (minAge maxAge : number) (availableRanges : list string) :
  forall overlapping,
    fold_left (overlapStep minAge maxAge)
      (map parseAgeRange availableRanges) overlapping
    = (overlapping ++
         filter (fun r => overlapsQuery minAge maxAge (parseAgeRange r))
           availableRanges)%list.
Proof.
  induction availableRanges as [|r rs IH]; intros overlapping; simpl.
  - now rewrite app_nil_r.
  - rewrite IH, overlapStep_overlapsQuery.
    destruct (overlapsQuery _ _ _); simpl.
    + now rewrite <- app_assoc.
    + now rewrite app_nil_r.
Qed.

Lemma findOverlappingAgeRanges_filter (minAge maxAge : number)
    (availableRanges : list string) :
  findOverlappingAgeRanges minAge maxAge availableRanges
  = filter (fun r => overlapsQuery minAge maxAge (parseAgeRange r))
      availableRanges.
Proof. unfold findOverlappingAgeRanges. now rewrite overlap_loop. Qed.

(** C3. [findOverlappingAgeRanges] returns the labels of [availableRanges]
    whose parsed bucket overlaps the query range, each as often and in the
    order it stands there. A label [low-high] of two decimal numbers below
    2^53 is returned exactly when [low <= maxAge] and [high >= minAge], and
    a label [low+] exactly when [maxAge >= low]. For decimal numbers of any
    size the same holds of the doubles nearest to them, which is what
    [parseInt] gives. For the range 29 to 42 and the catalogue 12-17, 18-24,
    25-34, 35-44, 45-65, 65+ the result is 25-34 and 35-44; for the range 0
    to 2^53 the label 9007199254740993+ is returned, its bound being read as
    2^53. *)
Theorem findOverlappingAgeRanges_spec :
  (forall minAge maxAge availableRanges,
     findOverlappingAgeRanges minAge maxAge availableRanges
     = filter (fun r => overlapsQuery minAge maxAge (parseAgeRange r))
         availableRanges)
  /\ (forall minAge maxAge availableRanges low high,
        isDecimal low -> isDecimal high ->
        (decimalValue low < 2 ^ 53)%Z -> (decimalValue high < 2 ^ 53)%Z ->
        (In (low ++ "-" ++ high)
            (findOverlappingAgeRanges minAge maxAge availableRanges)
         <-> In (low ++ "-" ++ high) availableRanges
             /\ Num.le (Finite (decimalValue low)) maxAge = true
             /\ Num.ge (Finite (decimalValue high)) minAge = true))
  /\ (forall minAge maxAge availableRanges low,
        isDecimal low -> (decimalValue low < 2 ^ 53)%Z ->
        (In (low ++ "+")
            (findOverlappingAgeRanges minAge maxAge availableRanges)
         <-> In (low ++ "+") availableRanges
             /\ Num.ge maxAge (Finite (decimalValue low)) = true))
  /\ (forall minAge maxAge availableRanges low high,
        isDecimal low -> isDecimal high ->
        (In (low ++ "-" ++ high)
            (findOverlappingAgeRanges minAge maxAge availableRanges)
         <-> In (low ++ "-" ++ high) availableRanges
             /\ Num.le (Num.ofInteger (decimalValue low)) maxAge = true
             /\ Num.ge (Num.ofInteger (decimalValue high)) minAge = true))
  /\ (forall minAge maxAge availableRanges low,
        isDecimal low ->
        (In (low ++ "+")
            (findOverlappingAgeRanges minAge maxAge availableRanges)
         <-> In (low ++ "+") availableRanges
             /\ Num.ge maxAge (Num.ofInteger (decimalValue low)) = true))
  /\ findOverlappingAgeRanges (Finite 29) (Finite 42) sampleRanges
     = ["25-34"; "35-44"]
  /\ findOverlappingAgeRanges (Finite 0) (Finite 9007199254740992)
       ["9007199254740991+"; "9007199254740993+"; "9007199254740995+"]
     = ["9007199254740991+"; "9007199254740993+"].
Proof.
  assert (B : forall minAge maxAge availableRanges low high,
             isDecimal low -> isDecimal high ->
             (In (low ++ "-" ++ high)
                 (findOverlappingAgeRanges minAge maxAge availableRanges)
              <-> In (low ++ "-" ++ high) availableRanges
                  /\ Num.le (Num.ofInteger (decimalValue low)) maxAge = true
                  /\ Num.ge (Num.ofInteger (decimalValue high)) minAge = true)).
  { intros minAge maxAge availableRanges low high Hl Hh.
    rewrite findOverlappingAgeRanges_filter, filter_In.
    unfold overlapsQuery. rewrite (parseAgeRange_bounded low high Hl Hh).
    cbn [AgeRangeOption.minAge AgeRangeOption.maxAge].
    now rewrite andb_true_iff. }
  assert (U : forall minAge maxAge availableRanges low,
             isDecimal low ->
             (In (low ++ "+")
                 (findOverlappingAgeRanges minAge maxAge availableRanges)
              <-> In (low ++ "+") availableRanges
                  /\ Num.ge maxAge (Num.ofInteger (decimalValue low)) = true)).
  { intros minAge maxAge availableRanges low Hl.
    rewrite findOverlappingAgeRanges_filter, filter_In.
    unfold overlapsQuery. rewrite (parseAgeRange_unbounded low Hl).
    cbn [AgeRangeOption.minAge AgeRangeOption.maxAge].
    reflexivity. }
  split; [exact findOverlappingAgeRanges_filter|].
  split; [|split; [|split; [exact B|split; [exact U|split; vm_compute; reflexivity]]]].
  - intros minAge maxAge availableRanges low high Hl Hh Sl Sh.
    rewrite <- (ofInteger_decimal low Hl Sl), <- (ofInteger_decimal high Hh Sh).
    now apply B.
  - intros minAge maxAge availableRanges low Hl Sl.
    rewrite <- (ofInteger_decimal low Hl Sl).
    now apply U.
Qed.

(** ** C4: the age-range formula *)

Lemma join_two_more (sep x y : string) (l : list string) :
  JS.join sep (x :: y :: l) = x ++ sep ++ JS.join sep (y :: l).
Proof. reflexivity. Qed.

Lemma buildAgeRangeFormula_throws (fieldName : string) (minAge maxAge : number)
    (availableRanges : list string) :
  throws (sanitizeFieldName fieldName) ->
  throws (buildAgeRangeFormula fieldName minAge maxAge availableRanges).
Proof.
  intros (msg & E). exists msg. unfold buildAgeRangeFormula.
  now rewrite E.
Qed.

(** C4. For a field name that passes [sanitizeFieldName], with [field] the
    sanitized name: [buildAgeRangeFormula] returns [FALSE()] when no bucket
    of the catalogue overlaps the query range; the one leaf
    [{field} = 'bucket'], without [OR], when exactly one does; and otherwise
    [OR(...)] of one such leaf for each overlapping bucket, separated by a
    comma and a space, in the order of the catalogue. The bucket label is
    escaped in every leaf. *)
Theorem buildAgeRangeFormula_spec (fieldName field : string)
    (minAge maxAge : number) (availableRanges : list string) :
  sanitizeFieldName fieldName = Ok field ->
  let overlapping := overlappingBuckets minAge maxAge availableRanges in
  let leaf bucket := "{" ++ field ++ "} = '" ++ escapeFormulaString bucket ++ "'" in
  (overlapping = [] ->
   buildAgeRangeFormula fieldName minAge maxAge availableRanges = Ok "FALSE()")
  /\ (forall bucket, overlapping = [bucket] ->
      buildAgeRangeFormula fieldName minAge maxAge availableRanges
      = Ok (leaf bucket))
  /\ (2 <= List.length overlapping ->
      buildAgeRangeFormula fieldName minAge maxAge availableRanges
      = Ok ("OR(" ++ JS.join ", " (map leaf overlapping) ++ ")")).
Proof.
  intros E overlapping leaf.
  unfold buildAgeRangeFormula. rewrite E. cbn [bind].
  rewrite findOverlappingAgeRanges_filter.
  fold (overlappingBuckets minAge maxAge availableRanges). fold overlapping.
  destruct overlapping as [|b [|b' rest]].
  - split; [reflexivity|]. split; [discriminate | simpl; lia].
  - split; [discriminate|]. split; [|simpl; lia].
    intros bucket H. injection H as <-. reflexivity.
  - split; [discriminate|]. split; [discriminate|]. reflexivity.
Qed.

Lemma buildAgeRangeFormula_witness :
  buildAgeRangeFormula "Nobody" (Finite 1) (Finite 5) sampleRanges
    = Ok "FALSE()"
  /\ buildAgeRangeFormula " Age " (Finite 18) (Finite 24) sampleRanges
     = Ok "{Age} = '18-24'"
  /\ buildAgeRangeFormula "Age" (Finite 29) (Finite 42) sampleRanges
     = Ok "OR({Age} = '25-34', {Age} = '35-44')".
Proof.
  split; [|split].
  - exact (proj1 (buildAgeRangeFormula_spec "Nobody" "Nobody" (Finite 1)
                    (Finite 5) sampleRanges eq_refl) eq_refl).
  - exact (proj1 (proj2 (buildAgeRangeFormula_spec " Age " "Age" (Finite 18)
                           (Finite 24) sampleRanges eq_refl)) "18-24" eq_refl).
  - exact (proj2 (proj2 (buildAgeRangeFormula_spec "Age" "Age" (Finite 29)
                           (Finite 42) sampleRanges eq_refl)) (le_n 2)).
Defined.

(** ** C5: combinators *)

Lemma survivors_In (sentinel : string) (formulas : list string) (f : string) :
  In f (survivors sentinel formulas)
  <-> In f formulas /\ f <> "" /\ f <> sentinel.
Proof.
  unfold survivors. rewrite filter_In, andb_true_iff, !negb_true_iff.
  rewrite !String.eqb_neq. tauto.
Qed.

Lemma combineFormulasAnd_survivors (formulas : list string) :
  combineFormulasAnd formulas
  = match survivors "TRUE()" formulas with
    | [] => "TRUE()"
    | [f] => f
    | kept => "AND(" ++ JS.join ", " kept ++ ")"
    end.
Proof.
  unfold combineFormulasAnd, survivors, JS.truthy.
  destruct (filter _ formulas) as [|a [|b l]]; reflexivity.
Qed.

Lemma combineFormulasOr_survivors (formulas : list string) :
  combineFormulasOr formulas
  = match survivors "FALSE()" formulas with
    | [] => "FALSE()"
    | [f] => f
    | kept => "OR(" ++ JS.join ", " kept ++ ")"
    end.
Proof.
  unfold combineFormulasOr, survivors, JS.truthy.
  destruct (filter _ formulas) as [|a [|b l]]; reflexivity.
Qed.

Lemma join_commaSeparated (first : string) (rest : list string) :
  JS.join ", " (first :: rest) = commaSeparated first rest.
Proof.
  revert first. induction rest as [|next rest IH]; intros first; [reflexivity|].
  cbn [commaSeparated]. rewrite <- IH. reflexivity.
Qed.

(** C5. [combineFormulasAnd] drops the empty formulas and the formulas
    [TRUE()], [combineFormulasOr] the empty formulas and the formulas
    [FALSE()]; [survivors] is exactly what is left, in order. With nothing
    left the result is the sentinel, [TRUE()] for AND and [FALSE()] for OR;
    with one formula left it is that formula, not wrapped; with two or more
    left it is [AND(a, b, ...)] or [OR(a, b, ...)], the formulas separated by
    a comma and a space. So [AND] of [TRUE()] and one leaf is the leaf, of
    two leaves around a [TRUE()] the two leaves wrapped, and [OR] of three
    leaves among empty and [FALSE()] entries the three leaves wrapped. *)
Theorem combineFormulas_spec (formulas : list string) :
  (forall f, In f (survivors "TRUE()" formulas)
             <-> In f formulas /\ f <> "" /\ f <> "TRUE()")
  /\ (forall f, In f (survivors "FALSE()" formulas)
                <-> In f formulas /\ f <> "" /\ f <> "FALSE()")
  /\ (survivors "TRUE()" formulas = [] -> combineFormulasAnd formulas = "TRUE()")
  /\ (survivors "FALSE()" formulas = [] -> combineFormulasOr formulas = "FALSE()")
  /\ (forall f, survivors "TRUE()" formulas = [f] -> combineFormulasAnd formulas = f)
  /\ (forall f, survivors "FALSE()" formulas = [f] -> combineFormulasOr formulas = f)
  /\ (forall a b, survivors "TRUE()" formulas = [a; b] ->
        combineFormulasAnd formulas = "AND(" ++ a ++ ", " ++ b ++ ")")
  /\ (forall a b, survivors "FALSE()" formulas = [a; b] ->
        combineFormulasOr formulas = "OR(" ++ a ++ ", " ++ b ++ ")")
  /\ (forall a b rest, survivors "TRUE()" formulas = a :: b :: rest ->
        combineFormulasAnd formulas
        = "AND(" ++ commaSeparated a (b :: rest) ++ ")")
  /\ (forall a b rest, survivors "FALSE()" formulas = a :: b :: rest ->
        combineFormulasOr formulas
        = "OR(" ++ commaSeparated a (b :: rest) ++ ")")
  /\ combineFormulasAnd ["TRUE()"; "{A} = 'x'"] = "{A} = 'x'"
  /\ combineFormulasAnd ["{A} = 'x'"; "TRUE()"; "{B} = 'y'"]
     = "AND({A} = 'x', {B} = 'y')"
  /\ combineFormulasAnd ["{A} = 'x'"; "{B} = 'y'"; ""; "{C} > 3"]
     = "AND({A} = 'x', {B} = 'y', {C} > 3)"
  /\ combineFormulasOr ["FALSE()"; "{A} = 'x'"; "{B} = 'y'"]
     = "OR({A} = 'x', {B} = 'y')"
  /\ combineFormulasOr [""; "{A} = 'x'"; "FALSE()"; "{B} = 'y'"; "TRUE()"]
     = "OR({A} = 'x', {B} = 'y', TRUE())".
Proof.
  rewrite combineFormulasAnd_survivors, combineFormulasOr_survivors.
  split; [intros f; apply survivors_In|].
  split; [intros f; apply survivors_In|].
  repeat split; try reflexivity;
    intros; match goal with H : survivors _ _ = _ |- _ => rewrite H end;
    rewrite ?join_commaSeparated; try reflexivity;
    cbn [commaSeparated]; repeat (cbn [append]; rewrite ?append_assoc);
    reflexivity.
Qed.

(** ** C6: fuzzy resolution *)

Lemma has_In (x : string) (s : StringSet.t) :
  StringSet.has x s = true <-> In x s.
Proof.
  unfold StringSet.has. rewrite existsb_exists. split.
  - intros (y & Hy & E). apply String.eqb_eq in E. now subst.
  - intros H. exists x. split; [exact H | apply String.eqb_refl].
Qed.

Lemma add_In (x y : string) (s : StringSet.t) :
  In x (StringSet.add y s) <-> In x s \/ x = y.
Proof.
  unfold StringSet.add. destruct (StringSet.has y s) eqn:H.
  - apply has_In in H. split; [tauto|]. intros [?| ->]; assumption.
  - rewrite in_app_iff. simpl. intuition congruence.
Qed.

Lemma add_NoDup (y : string) (s : StringSet.t) :
  NoDup s -> NoDup (StringSet.add y s).
Proof.
  intros N. unfold StringSet.add. destruct (StringSet.has y s) eqn:H; [exact N|].
  assert (~ In y s) as Hn by (rewrite <- has_In; congruence).
  apply NoDup_app; [exact N | constructor; [intros [] | constructor] |].
  intros a Ha [<- | []]. contradiction.
Qed.

Lemma addAll_In (x : string) (l : list string) :
  forall s : StringSet.t,
    In x (fold_left (fun acc match_ => StringSet.add match_ acc) l s)
    <-> In x s \/ In x l.
Proof.
  induction l as [|y l IH]; intros s; simpl; [tauto|].
  rewrite IH, add_In. intuition congruence.
Qed.

Lemma addAll_NoDup (l : list string) :
  forall s : StringSet.t,
    NoDup s ->
    NoDup (fold_left (fun acc match_ => StringSet.add match_ acc) l s).
Proof.
  induction l as [|y l IH]; intros s N; simpl; [exact N|].
  apply IH, add_NoDup, N.
Qed.

Lemma resolveStep_In (vocabulary : list string) (resolved : StringSet.t)
    (value x : string) :
  In x (resolveStep vocabulary resolved value)
  <-> In x resolved \/ In x (codeResolution vocabulary value).
Proof.
  unfold codeResolution, resolveStep.
  destruct (JS.find _ vocabulary) as [found|].
  - destruct (JS.truthy found).
    + rewrite !add_In. simpl. tauto.
    + rewrite !addAll_In. simpl. tauto.
  - rewrite !addAll_In. simpl. tauto.
Qed.

Lemma resolveStep_NoDup (vocabulary : list string) (resolved : StringSet.t)
    (value : string) :
  NoDup resolved -> NoDup (resolveStep vocabulary resolved value).
Proof.
  intros N. unfold resolveStep.
  destruct (JS.find _ vocabulary) as [found|];
    [destruct (JS.truthy found)|];
    auto using add_NoDup, addAll_NoDup.
Qed.

Lemma resolveLoop_In (vocabulary values : list string) (x : string) :
  forall resolved : StringSet.t,
    In x (fold_left (resolveStep vocabulary) values resolved)
    <-> In x resolved
        \/ exists value, In value values /\ In x (codeResolution vocabulary value).
Proof.
  induction values as [|v values IH]; intros resolved; simpl.
  - split; [tauto|]. intros [H | (value & [] & _)]. exact H.
  - rewrite IH, resolveStep_In. split.
    + intros [[H | H] | (value & Hv & H)]; [tauto | |]; right.
      * exists v. tauto.
      * exists value. tauto.
    + intros [H | (value & [<- | Hv] & H)]; [tauto | tauto |].
      right. exists value. tauto.
Qed.

Lemma resolveLoop_NoDup (vocabulary values : list string) :
  forall resolved : StringSet.t,
    NoDup resolved ->
    NoDup (fold_left (resolveStep vocabulary) values resolved).
Proof.
  induction values as [|v values IH]; intros resolved N; simpl; [exact N|].
  apply IH, resolveStep_NoDup, N.
Qed.

Lemma toLowerCase_empty (s : string) : JS.toLowerCase s = "" <-> s = "".
Proof. destruct s; simpl; split; intros H; congruence. Qed.

(** On a token that is not the empty string the code resolves to the names
    the specification states. *)
Lemma codeResolution_stated (vocabulary : list string) (token x : string) :
  token <> "" ->
  In x (codeResolution vocabulary token)
  <-> In x (statedResolution vocabulary token).
Proof.
  intros Hne. unfold codeResolution, statedResolution, resolveStep, JS.find.
  change (fun opt => JS.toLowerCase opt =? JS.toLowerCase token)
    with (fun opt => sameIgnoringCase opt token).
  destruct (List.find _ vocabulary) as [found|] eqn:F.
  - apply find_some in F as [_ E]. unfold sameIgnoringCase in E.
    apply String.eqb_eq in E.
    assert (found <> "") as Hf.
    { intros ->. simpl in E. symmetry in E.
      apply (proj1 (toLowerCase_empty token)) in E. contradiction. }
    unfold JS.truthy. apply String.eqb_neq in Hf. rewrite Hf.
    cbn [negb]. rewrite add_In. simpl. intuition congruence.
  - rewrite addAll_In. unfold fuzzyMatchOptions. simpl. tauto.
Qed.

Lemma resolve_without_vocabulary (values : list string) :
  resolveOptionsWithFuzzyMatch values None = values
  /\ resolveOptionsWithFuzzyMatch values (Some []) = values.
Proof. split; reflexivity. Qed.

Lemma resolve_In (vocabulary values : list string) (x : string) :
  vocabulary <> [] ->
  In x (resolveOptionsWithFuzzyMatch values (Some vocabulary))
  <-> exists value, In value values /\ In x (codeResolution vocabulary value).
Proof.
  intros Hne. unfold resolveOptionsWithFuzzyMatch, StringSet.toArray.
  destruct vocabulary as [|o vocabulary]; [congruence|].
  cbn [List.length Nat.eqb]. rewrite resolveLoop_In.
  unfold StringSet.empty. simpl. tauto.
Qed.

Lemma resolve_NoDup (vocabulary values : list string) :
  vocabulary <> [] ->
  NoDup (resolveOptionsWithFuzzyMatch values (Some vocabulary)).
Proof.
  intros Hne. unfold resolveOptionsWithFuzzyMatch, StringSet.toArray.
  destruct vocabulary as [|o vocabulary]; [congruence|].
  cbn [List.length Nat.eqb]. apply resolveLoop_NoDup. constructor.
Qed.

(** Where every token is a non-empty string the result is what C6 states:
    the input without a vocabulary; with one, a list without repetition of
    the names the tokens resolve to, the exact match alone for a token that
    has one and every substring match for a token that has none. *)
Lemma resolve_nonempty_tokens (vocabulary values : list string) :
  vocabulary <> [] ->
  (forall value, In value values -> value <> "") ->
  NoDup (resolveOptionsWithFuzzyMatch values (Some vocabulary))
  /\ forall x,
       In x (resolveOptionsWithFuzzyMatch values (Some vocabulary))
       <-> exists value,
             In value values /\ In x (statedResolution vocabulary value).
Proof.
  intros Hne Hv. split; [now apply resolve_NoDup|].
  intros x. rewrite (resolve_In vocabulary values x Hne).
  split; intros (value & Hin & H); exists value; (split; [exact Hin|]);
    apply (codeResolution_stated vocabulary value x (Hv value Hin)); exact H.
Qed.

(** C6 at the input where the code departs from it. The vocabulary has the
    empty string as an entry and the token is the empty string: the exact
    match exists, so the stated result is that entry alone; the code tests
    the match for truthiness, takes the empty string for no match, and
    returns every entry of the vocabulary. *)
Theorem resolveOptionsWithFuzzyMatch_empty_exact_match :
  List.find (fun opt => sameIgnoringCase opt "") [""; "A"] = Some ""
  /\ statedResolution [""; "A"] "" = [""]
  /\ resolveOptionsWithFuzzyMatch [""] (Some [""; "A"]) = [""; "A"].
Proof. repeat split. Qed.

(** The example of C6, on which the code agrees with it. *)
Lemma resolve_exact_match_example :
  resolveOptionsWithFuzzyMatch ["UGC Creator"]
    (Some ["UGC Creator"; "VO Creator"]) = ["UGC Creator"].
Proof. reflexivity. Qed.

(** ** C7 and C8: the multiple-select builders *)

Lemma resolvedValuesOf_nil (availableOptions : option (list string))
    (useFuzzyMatch : option bool) :
  resolvedValuesOf [] availableOptions useFuzzyMatch = [].
Proof.
  unfold resolvedValuesOf, resolveOptionsWithFuzzyMatch.
  destruct (defaultTrue useFuzzyMatch && isDefined availableOptions);
    [|reflexivity].
  destruct availableOptions as [options|]; [|reflexivity].
  destruct (Nat.eqb (List.length options) 0); reflexivity.
Qed.

Lemma values_dispatch {A : Type} (values : list string) (empty : A)
    (k : list string -> A) :
  k [] = empty ->
  forall availableOptions useFuzzyMatch,
    (if Nat.eqb (List.length values) 0 then empty
     else k (resolvedValuesOf values availableOptions useFuzzyMatch))
    = k (resolvedValuesOf values availableOptions useFuzzyMatch).
Proof.
  intros E availableOptions useFuzzyMatch. destruct values as [|v values].
  - now rewrite resolvedValuesOf_nil, E.
  - reflexivity.
Qed.

(** The three builders are decided by the resolved values alone. *)
Lemma buildMultipleSelectHasAny_resolved (fieldName field : string)
    (values : list string) (availableOptions : option (list string))
    (useFuzzyMatch : option bool) :
  sanitizeFieldName fieldName = Ok field ->
  buildMultipleSelectHasAny fieldName values availableOptions useFuzzyMatch
  = match resolvedValuesOf values availableOptions useFuzzyMatch with
    | [] => Ok "FALSE()"
    | [value] => Ok (findLeaf field value)
    | resolved => Ok ("OR(" ++ JS.join ", " (map (findLeaf field) resolved) ++ ")")
    end.
Proof.
  intros E. unfold buildMultipleSelectHasAny. rewrite E. cbn [bind].
  rewrite (values_dispatch values (Ok "FALSE()")
             (fun resolvedValues =>
                match resolvedValues with
                | [] => Ok "FALSE()"
                | [value] => Ok (findLeaf field value)
                | _ => Ok ("OR(" ++ JS.join ", " (map (findLeaf field) resolvedValues) ++ ")")
                end) eq_refl).
  destruct (resolvedValuesOf _ _ _) as [|a [|b l]]; reflexivity.
Qed.

Lemma buildMultipleSelectHasAll_resolved (fieldName field : string)
    (values : list string) (availableOptions : option (list string))
    (useFuzzyMatch : option bool) :
  sanitizeFieldName fieldName = Ok field ->
  buildMultipleSelectHasAll fieldName values availableOptions useFuzzyMatch
  = match resolvedValuesOf values availableOptions useFuzzyMatch with
    | [] => Ok "TRUE()"
    | resolved => Ok ("AND(" ++ JS.join ", " (map (findLeaf field) resolved) ++ ")")
    end.
Proof.
  intros E. unfold buildMultipleSelectHasAll. rewrite E. cbn [bind].
  rewrite (values_dispatch values (Ok "TRUE()")
             (fun resolvedValues =>
                match resolvedValues with
                | [] => Ok "TRUE()"
                | _ => Ok ("AND(" ++ JS.join ", " (map (findLeaf field) resolvedValues) ++ ")")
                end) eq_refl).
  destruct (resolvedValuesOf _ _ _) as [|a l]; reflexivity.
Qed.

Lemma buildMultipleSelectHasNone_resolved (fieldName field : string)
    (values : list string) (availableOptions : option (list string))
    (useFuzzyMatch : option bool) :
  sanitizeFieldName fieldName = Ok field ->
  buildMultipleSelectHasNone fieldName values availableOptions useFuzzyMatch
  = match resolvedValuesOf values availableOptions useFuzzyMatch with
    | [] => Ok "TRUE()"
    | [value] => Ok ("NOT(" ++ findLeaf field value ++ ")")
    | resolved =>
        Ok ("NOT(OR(" ++ JS.join ", " (map (findLeaf field) resolved) ++ "))")
    end.
Proof.
  intros E. unfold buildMultipleSelectHasNone. rewrite E. cbn [bind].
  rewrite (values_dispatch values (Ok "TRUE()")
             (fun resolvedValues =>
                match resolvedValues with
                | [] => Ok "TRUE()"
                | [value] => Ok ("NOT(" ++ findLeaf field value ++ ")")
                | _ => Ok ("NOT(OR(" ++ JS.join ", " (map (findLeaf field) resolvedValues) ++ "))")
                end) eq_refl).
  destruct (resolvedValuesOf _ _ _) as [|a [|b l]]; reflexivity.
Qed.

(** C7. For a field name that passes [sanitizeFieldName]: when the values
    are empty, or are not empty but resolve to nothing,
    [buildMultipleSelectHasAny] returns [FALSE()] and
    [buildMultipleSelectHasAll] returns [TRUE()]; neither throws. *)
Theorem buildMultipleSelect_empty (fieldName field : string)
    (values : list string) (availableOptions : option (list string))
    (useFuzzyMatch : option bool) :
  sanitizeFieldName fieldName = Ok field ->
  values = [] \/ resolvedValuesOf values availableOptions useFuzzyMatch = [] ->
  buildMultipleSelectHasAny fieldName values availableOptions useFuzzyMatch
  = Ok "FALSE()"
  /\ buildMultipleSelectHasAll fieldName values availableOptions useFuzzyMatch
     = Ok "TRUE()".
Proof.
  intros E H.
  assert (R : resolvedValuesOf values availableOptions useFuzzyMatch = []).
  { destruct H as [-> | H]; [apply resolvedValuesOf_nil | exact H]. }
  rewrite (buildMultipleSelectHasAny_resolved _ _ _ _ _ E).
  rewrite (buildMultipleSelectHasAll_resolved _ _ _ _ _ E).
  rewrite R. split; reflexivity.
Qed.

Lemma buildMultipleSelect_empty_witness :
  buildMultipleSelectHasAll "Field" [] None None = Ok "TRUE()"
  /\ buildMultipleSelectHasAny "Field" [] None None = Ok "FALSE()"
  /\ buildMultipleSelectHasAny "Gear" ["tripod"]
       (Some ["DSLR Podcast Setup"; "Ring Light"]) None = Ok "FALSE()"
  /\ buildMultipleSelectHasAll "Gear" ["tripod"]
       (Some ["DSLR Podcast Setup"; "Ring Light"]) (Some true) = Ok "TRUE()".
Proof.
  split; [|split; [|split]].
  - exact (proj2 (buildMultipleSelect_empty "Field" "Field" [] None None
                    eq_refl (or_introl eq_refl))).
  - exact (proj1 (buildMultipleSelect_empty "Field" "Field" [] None None
                    eq_refl (or_introl eq_refl))).
  - exact (proj1 (buildMultipleSelect_empty "Gear" "Gear" ["tripod"]
                    (Some ["DSLR Podcast Setup"; "Ring Light"]) None
                    eq_refl (or_intror eq_refl))).
  - exact (proj2 (buildMultipleSelect_empty "Gear" "Gear" ["tripod"]
                    (Some ["DSLR Podcast Setup"; "Ring Light"]) (Some true)
                    eq_refl (or_intror eq_refl))).
Defined.

(** C8. For a field name that passes [sanitizeFieldName], with [field] the
    sanitized name: [buildMultipleSelectHasNone] returns [TRUE()] when the
    resolved values are empty; for one resolved value the negation of its
    one leaf, [NOT(FIND('value', ARRAYJOIN({field})))] with the value
    escaped, and no [OR]; and for several resolved values [NOT(OR(...))]
    around one such leaf for each value, in order. *)
Theorem buildMultipleSelectHasNone_spec (fieldName field : string)
    (values : list string) (availableOptions : option (list string))
    (useFuzzyMatch : option bool) :
  sanitizeFieldName fieldName = Ok field ->
  let resolved := resolvedValuesOf values availableOptions useFuzzyMatch in
  let leaf value :=
    "FIND('" ++ escapeFormulaString value ++ "', ARRAYJOIN({" ++ field ++ "}))" in
  (resolved = [] ->
   buildMultipleSelectHasNone fieldName values availableOptions useFuzzyMatch
   = Ok "TRUE()")
  /\ (forall value, resolved = [value] ->
      buildMultipleSelectHasNone fieldName values availableOptions useFuzzyMatch
      = Ok ("NOT(FIND('" ++ escapeFormulaString value
              ++ "', ARRAYJOIN({" ++ field ++ "})))"))
  /\ (2 <= List.length resolved ->
      buildMultipleSelectHasNone fieldName values availableOptions useFuzzyMatch
      = Ok ("NOT(OR(" ++ JS.join ", " (map leaf resolved) ++ "))")).
Proof.
  intros E resolved leaf.
  rewrite (buildMultipleSelectHasNone_resolved _ _ _ _ _ E). fold resolved.
  destruct resolved as [|a [|b l]].
  - split; [reflexivity|]. split; [discriminate | simpl; lia].
  - split; [discriminate|]. split; [|simpl; lia].
    intros value H. injection H as <-. unfold findLeaf.
    f_equal. repeat (cbn [append]; rewrite ?append_assoc). reflexivity.
  - split; [discriminate|]. split; [discriminate|]. reflexivity.
Qed.

Lemma buildMultipleSelectHasNone_witness :
  buildMultipleSelectHasNone "Tags" [] None None = Ok "TRUE()"
  /\ buildMultipleSelectHasNone "Tags" ["X"] None None
     = Ok "NOT(FIND('X', ARRAYJOIN({Tags})))"
  /\ buildMultipleSelectHasNone "Tags" ["it's"; "X"] None None
     = Ok "NOT(OR(FIND('it''s', ARRAYJOIN({Tags})), FIND('X', ARRAYJOIN({Tags}))))".
Proof.
  split; [|split].
  - exact (proj1 (buildMultipleSelectHasNone_spec "Tags" "Tags" [] None None
                    eq_refl) eq_refl).
  - exact (proj1 (proj2 (buildMultipleSelectHasNone_spec "Tags" "Tags" ["X"]
                           None None eq_refl)) "X" eq_refl).
  - exact (proj2 (proj2 (buildMultipleSelectHasNone_spec "Tags" "Tags"
                           ["it's"; "X"] None None eq_refl)) (le_n 2)).
Defined.

(** ** C9: number ranges *)

Lemma pushNumberBound_notFinite (field op message : string)
    (bound : option number) (conditions : list string) :
  notFinite bound ->
  pushNumberBound field op message bound conditions = Throw message.
Proof.
  intros (value & -> & H). unfold pushNumberBound. now rewrite H.
Qed.

Lemma pushNumberBound_total (field op message : string)
    (bound : option number) (conditions : list string) :
  (exists conditions', pushNumberBound field op message bound conditions
                       = Ok conditions')
  \/ pushNumberBound field op message bound conditions = Throw message.
Proof.
  unfold pushNumberBound. destruct bound as [value|]; [|left; eexists; reflexivity].
  destruct (Num.isFinite value); [left; eexists; reflexivity | now right].
Qed.

Lemma buildNumberRangeFormula_rejects (fieldName : string)
    (min max : option number) :
  notFinite min \/ notFinite max ->
  throws (buildNumberRangeFormula fieldName min max).
Proof.
  intros H. unfold buildNumberRangeFormula, throws.
  destruct (sanitizeFieldName fieldName) as [field|msg]; cbn [bind];
    [|eexists; reflexivity].
  destruct (pushNumberBound_total field ">="
              "Minimum value must be a finite number" min [])
    as [(conditions & E) | E]; rewrite E; cbn [bind]; [|eexists; reflexivity].
  destruct H as [H | H].
  - rewrite (pushNumberBound_notFinite _ _ _ _ _ H) in E. discriminate.
  - rewrite (pushNumberBound_notFinite _ _ _ _ _ H). eexists; reflexivity.
Qed.

(** C9. [buildNumberRangeFormula] throws whenever a bound that was supplied
    is [NaN], [Infinity] or [-Infinity], whatever the field name and the
    other bound: so for the bounds [NaN] and 5, and [Infinity] and 5, on the
    field [Rating]. For a field name that passes [sanitizeFieldName], with
    [field] the sanitized name, it returns [TRUE()] with no bound; the one
    comparison [{field} >= min] or [{field} <= max], not wrapped, with one
    finite bound; and [AND] of the two comparisons with two finite bounds.
    A finite bound is an integer or has a fractional part, and is written as
    JavaScript prints it: the bounds 3 and 5 give
    [AND({Rating} >= 3, {Rating} <= 5)], the bound 4.5 is written [4.5],
    -2.75 is written [-2.75], the double nearest to 0.1 is written [0.1],
    2^63 is written [9223372036854776000] and 10^21 is written [1e+21]. *)
Theorem buildNumberRangeFormula_spec :
  (forall fieldName min max,
     notFinite min \/ notFinite max ->
     throws (buildNumberRangeFormula fieldName min max))
  /\ (forall value, Num.isFinite value = false
                    <-> value = NaN \/ value = Infinity \/ value = NegInfinity)
  /\ throws (buildNumberRangeFormula "Rating" (Some NaN) (Some (Finite 5)))
  /\ throws (buildNumberRangeFormula "Rating" (Some Infinity) (Some (Finite 5)))
  /\ (forall fieldName field,
        sanitizeFieldName fieldName = Ok field ->
        buildNumberRangeFormula fieldName None None = Ok "TRUE()"
        /\ (forall a,
              Num.isFinite a = true ->
              buildNumberRangeFormula fieldName (Some a) None
              = Ok ("{" ++ field ++ "} >= " ++ Num.toString a))
        /\ (forall b,
              Num.isFinite b = true ->
              buildNumberRangeFormula fieldName None (Some b)
              = Ok ("{" ++ field ++ "} <= " ++ Num.toString b))
        /\ (forall a b,
              Num.isFinite a = true -> Num.isFinite b = true ->
              buildNumberRangeFormula fieldName (Some a) (Some b)
              = Ok ("AND(" ++ ("{" ++ field ++ "} >= " ++ Num.toString a)
                      ++ ", "
                      ++ ("{" ++ field ++ "} <= " ++ Num.toString b)
                      ++ ")")))
  /\ buildNumberRangeFormula "Rating" (Some (Finite 3)) (Some (Finite 5))
     = Ok "AND({Rating} >= 3, {Rating} <= 5)"
  /\ buildNumberRangeFormula "Rating" (Some (Fraction 9 1)) None
     = Ok "{Rating} >= 4.5"
  /\ buildNumberRangeFormula "Rate" (Some (Fraction (-11) 2))
       (Some (Fraction 3602879701896397 55))
     = Ok "AND({Rate} >= -2.75, {Rate} <= 0.1)"
  /\ buildNumberRangeFormula "Views" (Some (Finite (2 ^ 63))) None
     = Ok "{Views} >= 9223372036854776000"
  /\ buildNumberRangeFormula "Views" None (Some (Finite (10 ^ 21)))
     = Ok "{Views} <= 1e+21".
Proof.
  split; [exact buildNumberRangeFormula_rejects|].
  split.
  { intros value. destruct value; simpl; split; intros H;
      try tauto; try discriminate; destruct H as [H | [H | H]]; discriminate. }
  split; [apply buildNumberRangeFormula_rejects; left; exists NaN; now split|].
  split; [apply buildNumberRangeFormula_rejects; left; exists Infinity; now split|].
  split; [|repeat split; vm_compute; reflexivity].
  intros fieldName field E. unfold buildNumberRangeFormula. rewrite E.
  repeat split; intros; cbn [bind pushNumberBound];
    repeat match goal with H : Num.isFinite _ = true |- _ => rewrite H; clear H end;
    cbn [bind negb app wrapAnd]; try reflexivity.
  f_equal. unfold JS.join. cbn [String.concat].
  repeat (cbn [append]; rewrite ?append_assoc). reflexivity.
Qed.

(** ** C10: empty date bounds *)

(** C10. For a field name that passes [sanitizeFieldName]: the empty string
    does not match the date pattern, yet [buildDateRangeFormula] does not
    throw on it. An empty start or end date is handled as an absent one: the
    result is that of the call without this bound, so the empty bound adds no
    comparison, and with the two bounds empty, or one empty and the other
    absent, the result is [TRUE()]. *)
Theorem buildDateRangeFormula_empty_bound (fieldName field : string) :
  sanitizeFieldName fieldName = Ok field ->
  isoDateTest "" = false
  /\ (forall endDate,
        buildDateRangeFormula fieldName (Some "") endDate
        = buildDateRangeFormula fieldName None endDate)
  /\ (forall startDate,
        buildDateRangeFormula fieldName startDate (Some "")
        = buildDateRangeFormula fieldName startDate None)
  /\ buildDateRangeFormula fieldName (Some "") (Some "") = Ok "TRUE()"
  /\ buildDateRangeFormula fieldName (Some "") None = Ok "TRUE()"
  /\ buildDateRangeFormula fieldName None (Some "") = Ok "TRUE()"
  /\ (forall date, date <> "" -> isoDateTest date = true ->
        buildDateRangeFormula fieldName (Some date) (Some "")
        = Ok ("IS_AFTER({" ++ field ++ "}, '" ++ escapeFormulaString date ++ "')")
        /\ buildDateRangeFormula fieldName (Some "") (Some date)
           = Ok ("IS_BEFORE({" ++ field ++ "}, '" ++ escapeFormulaString date ++ "')")).
Proof.
  intros E. unfold buildDateRangeFormula. rewrite E. cbn [bind].
  split; [reflexivity|].
  split; [reflexivity|].
  split; [reflexivity|].
  split; [reflexivity|].
  split; [reflexivity|].
  split; [reflexivity|].
  intros date Hne Hd. unfold pushDateBound, JS.truthy.
  apply String.eqb_neq in Hne. rewrite Hne, Hd. split; reflexivity.
Qed.

Lemma buildDateRangeFormula_empty_bound_witness :
  buildDateRangeFormula "Created" (Some "") (Some "") = Ok "TRUE()"
  /\ buildDateRangeFormula "Created" (Some "2024-01-01") (Some "")
     = Ok "IS_AFTER({Created}, '2024-01-01')".
Proof.
  pose proof (buildDateRangeFormula_empty_bound "Created" "Created" eq_refl)
    as (_ & _ & _ & H & _ & _ & D).
  split; [exact H|].
  apply (D "2024-01-01"); [discriminate | reflexivity].
Defined.

(** * Further properties of the query helpers *)

(** ** Field names *)

Lemma trimStart_id (s : string) :
  startsWithSpace s = false -> JS.trimStart s = s.
Proof. destruct s as [|c s]; simpl; [reflexivity|]. now intros ->. Qed.

Lemma trimEnd_cons (c : ascii) (s : string) :
  JS.trimEnd (String c s)
  = match JS.trimEnd s with
    | EmptyString =>
        if JS.isWhiteSpace c then EmptyString else String c EmptyString
    | t => String c t
    end.
Proof. reflexivity. Qed.

Lemma trimEnd_id (s : string) :
  endsWithSpace s = false -> JS.trimEnd s = s.
Proof.
  induction s as [|c s IH]; [reflexivity|].
  destruct s as [|d s].
  - simpl. now intros ->.
  - intros H. change (endsWithSpace (String d s) = false) in H.
    rewrite trimEnd_cons, (IH H). reflexivity.
Qed.

Lemma trim_keeps_clean (p : ascii -> bool) (s : string) :
  JS.any p s = false -> JS.any p (JS.trim s) = false.
Proof.
  destruct (trim_isTrimOf s) as ((l & r & E & _ & _) & _ & _).
  intros H. rewrite E in H. rewrite !any_append in H.
  apply orb_false_iff in H as [_ H]. now apply orb_false_iff in H as [H _].
Qed.

Lemma sanitizeFieldName_ok_inv (fieldName field : string) :
  sanitizeFieldName fieldName = Ok field ->
  JS.any forbiddenChar fieldName = false
  /\ field = JS.trim fieldName
  /\ field <> "".
Proof.
  unfold sanitizeFieldName.
  destruct (JS.any forbiddenChar fieldName); [discriminate|].
  destruct (Nat.eqb (JS.length (JS.trim fieldName)) 0) eqn:L; [discriminate|].
  intros H. injection H as <-. repeat split.
  intros E. apply length_zero_iff in E. congruence.
Qed.

(** X1. A name returned by [sanitizeFieldName] is safe to put between braces:
    it has no brace, line feed or carriage return, it is not empty, and it
    neither begins nor ends with white space. *)
Theorem sanitizeFieldName_ok_clean (fieldName field : string) :
  sanitizeFieldName fieldName = Ok field ->
  ~ hasForbiddenChar field
  /\ field <> ""
  /\ startsWithSpace field = false
  /\ endsWithSpace field = false.
Proof.
  intros H. apply sanitizeFieldName_ok_inv in H as (C & -> & N).
  destruct (trim_isTrimOf fieldName) as (_ & S & E).
  repeat split; try assumption.
  rewrite <- any_forbidden_iff. apply trim_keeps_clean in C. congruence.
Qed.

Lemma sanitizeFieldName_ok_clean_witness :
  ~ hasForbiddenChar "Creator Type" /\ "Creator Type" <> ""
  /\ startsWithSpace "Creator Type" = false
  /\ endsWithSpace "Creator Type" = false.
Proof.
  exact (sanitizeFieldName_ok_clean "  Creator Type " "Creator Type" eq_refl).
Defined.

(** X2. [sanitizeFieldName] is idempotent: a name it returned is returned
    unchanged when it is sanitized again. *)
Theorem sanitizeFieldName_idempotent (fieldName field : string) :
  sanitizeFieldName fieldName = Ok field ->
  sanitizeFieldName field = Ok field.
Proof.
  intros H. apply sanitizeFieldName_ok_inv in H as (C & -> & N).
  destruct (trim_isTrimOf fieldName) as (_ & S & E).
  unfold sanitizeFieldName. rewrite (trim_keeps_clean _ _ C).
  assert (T : JS.trim (JS.trim fieldName) = JS.trim fieldName).
  { unfold JS.trim at 1. rewrite (trimStart_id _ S). now apply trimEnd_id. }
  rewrite T.
  destruct (Nat.eqb (JS.length (JS.trim fieldName)) 0) eqn:L; [|reflexivity].
  apply length_zero_iff in L. congruence.
Qed.

Lemma sanitizeFieldName_idempotent_witness :
  sanitizeFieldName "Age" = Ok "Age".
Proof. exact (sanitizeFieldName_idempotent " Age " "Age" eq_refl). Defined.

(** ** Escaping *)

(** X3. [escapeFormulaString] is injective: two values have the same escaped
    form only when they are the same value. *)
Theorem escapeFormulaString_injective (a b : string) :
  escapeFormulaString a = escapeFormulaString b <-> a = b.
Proof.
  split; [|now intros ->].
  intros H. rewrite <- (unescape_escape a), <- (unescape_escape b).
  now rewrite H.
Qed.

(** ** Rejected field names *)

(** X4. A field name with a brace, a line feed or a carriage return makes
    each of the six builders throw the error of [sanitizeFieldName], whatever
    the other arguments are: the name is checked before the values, the
    bounds and the dates. *)
Theorem builders_reject_field_name (fieldName : string) :
  hasForbiddenChar fieldName ->
  let error :=
    Throw "Invalid field name: contains forbidden characters ({}, newlines)" in
  (forall minAge maxAge availableRanges,
     buildAgeRangeFormula fieldName minAge maxAge availableRanges = error)
  /\ (forall values availableOptions useFuzzyMatch,
        buildMultipleSelectHasAny fieldName values availableOptions useFuzzyMatch
        = error
        /\ buildMultipleSelectHasAll fieldName values availableOptions useFuzzyMatch
           = error
        /\ buildMultipleSelectHasNone fieldName values availableOptions useFuzzyMatch
           = error)
  /\ (forall min max, buildNumberRangeFormula fieldName min max = error)
  /\ (forall startDate endDate,
        buildDateRangeFormula fieldName startDate endDate = error).
Proof.
  intros H error. apply any_forbidden_iff in H.
  assert (E : sanitizeFieldName fieldName = error).
  { unfold sanitizeFieldName. now rewrite H. }
  unfold buildAgeRangeFormula, buildMultipleSelectHasAny,
    buildMultipleSelectHasAll, buildMultipleSelectHasNone,
    buildNumberRangeFormula, buildDateRangeFormula.
  rewrite E. repeat split.
Qed.

Lemma builders_reject_field_name_witness :
  buildNumberRangeFormula "Rating} > 0, {Secret" (Some NaN) None
  = Throw "Invalid field name: contains forbidden characters ({}, newlines)".
Proof.
  assert (H : hasForbiddenChar "Rating} > 0, {Secret").
  { left. exists "Rating} > 0, ", "Secret". reflexivity. }
  exact (proj1 (proj2 (proj2
           (builders_reject_field_name "Rating} > 0, {Secret" H)))
           (Some NaN) None).
Defined.

(** ** Multiple-select builders *)

(** X5. For a field name that passes [sanitizeFieldName]:
    [buildMultipleSelectHasAny] returns [FALSE()] when the resolved values
    are empty, the one leaf [FIND('value', ARRAYJOIN({field}))] for one
    resolved value, and [OR(...)] around one leaf for each value, in order,
    for several. *)
Theorem buildMultipleSelectHasAny_spec (fieldName field : string)
    (values : list string) (availableOptions : option (list string))
    (useFuzzyMatch : option bool) :
  sanitizeFieldName fieldName = Ok field ->
  let resolved := resolvedValuesOf values availableOptions useFuzzyMatch in
  let leaf value :=
    "FIND('" ++ escapeFormulaString value ++ "', ARRAYJOIN({" ++ field ++ "}))" in
  (resolved = [] ->
   buildMultipleSelectHasAny fieldName values availableOptions useFuzzyMatch
   = Ok "FALSE()")
  /\ (forall value, resolved = [value] ->
      buildMultipleSelectHasAny fieldName values availableOptions useFuzzyMatch
      = Ok (leaf value))
  /\ (2 <= List.length resolved ->
      buildMultipleSelectHasAny fieldName values availableOptions useFuzzyMatch
      = Ok ("OR(" ++ JS.join ", " (map leaf resolved) ++ ")")).
Proof.
  intros E resolved leaf.
  rewrite (buildMultipleSelectHasAny_resolved _ _ _ _ _ E). fold resolved.
  destruct resolved as [|a [|b l]].
  - split; [reflexivity|]. split; [discriminate | simpl; lia].
  - split; [discriminate|]. split; [|simpl; lia].
    intros value H. injection H as <-. reflexivity.
  - split; [discriminate|]. split; [discriminate|]. reflexivity.
Qed.

Lemma buildMultipleSelectHasAny_witness :
  buildMultipleSelectHasAny "Pros" ["dslr"; "ring"]
    (Some ["DSLR Podcast Setup"; "Ring Light"; "Editing"]) None
  = Ok "OR(FIND('DSLR Podcast Setup', ARRAYJOIN({Pros})), FIND('Ring Light', ARRAYJOIN({Pros})))".
Proof.
  exact (proj2 (proj2 (buildMultipleSelectHasAny_spec "Pros" "Pros"
                         ["dslr"; "ring"]
                         (Some ["DSLR Podcast Setup"; "Ring Light"; "Editing"])
                         None eq_refl)) (le_n 2)).
Defined.

(** X6. For a field name that passes [sanitizeFieldName]:
    [buildMultipleSelectHasAll] returns [TRUE()] when the resolved values are
    empty and otherwise [AND(...)] around one leaf for each resolved value,
    in order. Unlike the other two builders it wraps a single leaf too. *)
Theorem buildMultipleSelectHasAll_spec (fieldName field : string)
    (values : list string) (availableOptions : option (list string))
    (useFuzzyMatch : option bool) :
  sanitizeFieldName fieldName = Ok field ->
  let resolved := resolvedValuesOf values availableOptions useFuzzyMatch in
  let leaf value :=
    "FIND('" ++ escapeFormulaString value ++ "', ARRAYJOIN({" ++ field ++ "}))" in
  (resolved = [] ->
   buildMultipleSelectHasAll fieldName values availableOptions useFuzzyMatch
   = Ok "TRUE()")
  /\ (resolved <> [] ->
      buildMultipleSelectHasAll fieldName values availableOptions useFuzzyMatch
      = Ok ("AND(" ++ JS.join ", " (map leaf resolved) ++ ")"))
  /\ (forall value, resolved = [value] ->
      buildMultipleSelectHasAll fieldName values availableOptions useFuzzyMatch
      = Ok ("AND(" ++ leaf value ++ ")")).
Proof.
  intros E resolved leaf.
  rewrite (buildMultipleSelectHasAll_resolved _ _ _ _ _ E). fold resolved.
  destruct resolved as [|a l].
  - split; [reflexivity|]. split; [congruence | discriminate].
  - split; [discriminate|]. split; [reflexivity|].
    intros value H. injection H as <- ->. reflexivity.
Qed.

Lemma buildMultipleSelectHasAll_witness :
  buildMultipleSelectHasAll "Pros" ["Editing"] None None
  = Ok "AND(FIND('Editing', ARRAYJOIN({Pros})))".
Proof.
  exact (proj2 (proj2 (buildMultipleSelectHasAll_spec "Pros" "Pros"
                         ["Editing"] None None eq_refl)) "Editing" eq_refl).
Defined.

(** ** Age ranges: order of numbers and queries *)

Lemma ge_le (a b : number) : Num.ge a b = Num.le b a.
Proof.
  destruct a, b; cbn [Num.ge Num.le]; try reflexivity; apply Z.geb_leb.
Qed.

(** Values over powers of two are compared after scaling. *)
Lemma scaled_le_trans (x y z i j k : Z) :
  (0 < i -> 0 < j -> 0 < k ->
   x * j <= y * i -> y * k <= z * j -> x * k <= z * i)%Z.
Proof.
  intros Hi Hj Hk H1 H2.
  apply (Z.mul_le_mono_pos_r _ _ j Hj).
  apply Z.le_trans with (y * i * k)%Z.
  - replace (x * k * j)%Z with (x * j * k)%Z by ring.
    apply Z.mul_le_mono_nonneg_r; lia.
  - replace (y * i * k)%Z with (y * k * i)%Z by ring.
    replace (z * i * j)%Z with (z * j * i)%Z by ring.
    apply Z.mul_le_mono_nonneg_r; lia.
Qed.

Lemma le_trans (a b c : number) :
  Num.le a b = true -> Num.le b c = true -> Num.le a c = true.
Proof.
  destruct a as [| | |x|x i], b as [| | |y|y j], c as [| | |z|z k];
    cbn [Num.le]; try congruence; rewrite !Z.leb_le; intros Hab Hbc;
    try pose proof (Z.pow_pos_nonneg 2 (Zpos i) eq_refl (Pos2Z.is_nonneg i));
    try pose proof (Z.pow_pos_nonneg 2 (Zpos j) eq_refl (Pos2Z.is_nonneg j));
    try pose proof (Z.pow_pos_nonneg 2 (Zpos k) eq_refl (Pos2Z.is_nonneg k)).
  - lia.
  - generalize (scaled_le_trans x y z 1 1 (2 ^ Zpos k)). lia.
  - generalize (scaled_le_trans x y z 1 (2 ^ Zpos j) 1). lia.
  - generalize (scaled_le_trans x y z 1 (2 ^ Zpos j) (2 ^ Zpos k)). lia.
  - generalize (scaled_le_trans x y z (2 ^ Zpos i) 1 1). lia.
  - generalize (scaled_le_trans x y z (2 ^ Zpos i) 1 (2 ^ Zpos k)). lia.
  - generalize (scaled_le_trans x y z (2 ^ Zpos i) (2 ^ Zpos j) 1). lia.
  - generalize (scaled_le_trans x y z (2 ^ Zpos i) (2 ^ Zpos j) (2 ^ Zpos k)). lia.
Qed.

Lemma overlapsQuery_wider (minAge maxAge minAge' maxAge' : number)
    (bucket : AgeRangeOption.t) :
  Num.le minAge' minAge = true -> Num.le maxAge maxAge' = true ->
  overlapsQuery minAge maxAge bucket = true ->
  overlapsQuery minAge' maxAge' bucket = true.
Proof.
  intros Hmin Hmax. unfold overlapsQuery.
  destruct (AgeRangeOption.maxAge bucket) as [high|]; rewrite !ge_le.
  - rewrite !andb_true_iff. intros [L H]. split; eauto using le_trans.
  - intros L. eauto using le_trans.
Qed.

Lemma filter_filter_implies {A : Type} (p q : A -> bool) (l : list A) :
  (forall x, p x = true -> q x = true) ->
  filter p (filter q l) = filter p l.
Proof.
  intros H. induction l as [|x l IH]; simpl; [reflexivity|].
  destruct (q x) eqn:Q; simpl.
  - now rewrite IH.
  - destruct (p x) eqn:P; [|exact IH].
    apply H in P. congruence.
Qed.

(** X7. Narrowing the query range only removes buckets: when
    [minAge' <= minAge] and [maxAge <= maxAge'], the result for
    [minAge, maxAge] is the result for the wider range [minAge', maxAge']
    with the buckets that do not overlap the narrower range left out, the
    others staying in their order. *)
Theorem findOverlappingAgeRanges_narrow (minAge maxAge minAge' maxAge' : number)
    (availableRanges : list string) :
  Num.le minAge' minAge = true -> Num.le maxAge maxAge' = true ->
  findOverlappingAgeRanges minAge maxAge availableRanges
  = filter (fun r => overlapsQuery minAge maxAge (parseAgeRange r))
      (findOverlappingAgeRanges minAge' maxAge' availableRanges)
  /\ incl (findOverlappingAgeRanges minAge maxAge availableRanges)
       (findOverlappingAgeRanges minAge' maxAge' availableRanges).
Proof.
  intros Hmin Hmax.
  assert (E : findOverlappingAgeRanges minAge maxAge availableRanges
              = filter (fun r => overlapsQuery minAge maxAge (parseAgeRange r))
                  (findOverlappingAgeRanges minAge' maxAge' availableRanges)).
  { rewrite !findOverlappingAgeRanges_filter.
    symmetry. apply filter_filter_implies.
    intros r. now apply overlapsQuery_wider. }
  split; [exact E|].
  rewrite E. intros r Hr. now apply filter_In in Hr as [Hr _].
Qed.

Lemma findOverlappingAgeRanges_narrow_witness :
  incl (findOverlappingAgeRanges (Finite 29) (Finite 42) sampleRanges)
       (findOverlappingAgeRanges (Finite 18) (Finite 70) sampleRanges).
Proof.
  exact (proj2 (findOverlappingAgeRanges_narrow (Finite 29) (Finite 42)
                  (Finite 18) (Finite 70) sampleRanges eq_refl eq_refl)).
Defined.

Lemma le_NaN_r (a : number) : Num.le a NaN = false.
Proof. destruct a; reflexivity. Qed.

Lemma ge_NaN_r (a : number) : Num.ge a NaN = false.
Proof. destruct a; reflexivity. Qed.

(** X8. [NaN] never overlaps. A query whose [maxAge] is [NaN] selects no
    bucket, so that [buildAgeRangeFormula] returns [FALSE()] for it; a label
    whose lower bound parses to [NaN], or which has an upper bound that
    parses to [NaN], is never selected, whatever the query. A label without
    digits, such as [Adults], is one of them. *)
Theorem findOverlappingAgeRanges_NaN :
  (forall minAge availableRanges,
     findOverlappingAgeRanges minAge NaN availableRanges = [])
  /\ (forall fieldName field minAge availableRanges,
        sanitizeFieldName fieldName = Ok field ->
        buildAgeRangeFormula fieldName minAge NaN availableRanges
        = Ok "FALSE()")
  /\ (forall minAge maxAge availableRanges rangeStr,
        AgeRangeOption.minAge (parseAgeRange rangeStr) = NaN
        \/ AgeRangeOption.maxAge (parseAgeRange rangeStr) = Some NaN ->
        ~ In rangeStr (findOverlappingAgeRanges minAge maxAge availableRanges))
  /\ parseAgeRange "Adults" = AgeRangeOption.mk "" "Adults" NaN (Some NaN).
Proof.
  assert (N : forall minAge availableRanges,
            findOverlappingAgeRanges minAge NaN availableRanges = []).
  { intros minAge availableRanges. rewrite findOverlappingAgeRanges_filter.
    induction availableRanges as [|r rs IH]; simpl; [reflexivity|].
    unfold overlapsQuery at 1.
    destruct (AgeRangeOption.maxAge (parseAgeRange r));
      simpl; rewrite ?le_NaN_r; exact IH. }
  split; [exact N|]. split; [|split; [|reflexivity]].
  - intros fieldName field minAge availableRanges E.
    unfold buildAgeRangeFormula. rewrite E. cbn [bind]. now rewrite N.
  - intros minAge maxAge availableRanges rangeStr H Hin.
    rewrite findOverlappingAgeRanges_filter in Hin.
    apply filter_In in Hin as [_ O]. unfold overlapsQuery in O.
    destruct H as [H | H]; rewrite H in O.
    + destruct (AgeRangeOption.maxAge (parseAgeRange rangeStr));
        simpl in O; [discriminate|].
      rewrite ge_NaN_r in O. discriminate.
    + apply andb_true_iff in O as [_ O]. simpl in O. discriminate.
Qed.

(** ** Fuzzy resolution *)

Lemma includes_empty (s : string) : JS.includes "" s = true.
Proof. destruct s; reflexivity. Qed.

Lemma codeResolution_vocabulary (vocabulary : list string) (value x : string) :
  In x (codeResolution vocabulary value) -> In x vocabulary.
Proof.
  unfold codeResolution, resolveStep, JS.find.
  destruct (List.find _ vocabulary) as [found|] eqn:F.
  - destruct (JS.truthy found).
    + rewrite add_In. simpl. intros [[] | ->].
      now apply find_some in F as [F _].
    + rewrite addAll_In. simpl. unfold fuzzyMatchOptions.
      intros [[] | H]. now apply filter_In in H as [H _].
  - rewrite addAll_In. simpl. unfold fuzzyMatchOptions.
    intros [[] | H]. now apply filter_In in H as [H _].
Qed.

(** X9. With a vocabulary that is not empty, [resolveOptionsWithFuzzyMatch]
    returns entries of the vocabulary only, each at most once: a value that
    matches nothing is dropped, and no name is made up. *)
Theorem resolveOptionsWithFuzzyMatch_vocabulary
    (values vocabulary : list string) :
  vocabulary <> [] ->
  NoDup (resolveOptionsWithFuzzyMatch values (Some vocabulary))
  /\ incl (resolveOptionsWithFuzzyMatch values (Some vocabulary)) vocabulary.
Proof.
  intros Hne. split; [now apply resolve_NoDup|].
  intros x Hx. apply (resolve_In vocabulary values x Hne) in Hx.
  destruct Hx as (value & _ & Hx). now apply codeResolution_vocabulary in Hx.
Qed.

Lemma resolveOptionsWithFuzzyMatch_vocabulary_witness :
  incl (resolveOptionsWithFuzzyMatch ["creator"; "nothing"]
          (Some ["UGC Creator"; "VO Creator"; "Editor"]))
       ["UGC Creator"; "VO Creator"; "Editor"].
Proof.
  assert (H : ["UGC Creator"; "VO Creator"; "Editor"] <> []) by discriminate.
  exact (proj2 (resolveOptionsWithFuzzyMatch_vocabulary
                  ["creator"; "nothing"]
                  ["UGC Creator"; "VO Creator"; "Editor"] H)).
Defined.

(** X10. The empty string as a value selects the whole vocabulary: it is a
    substring of every entry, so the result has exactly the entries of the
    vocabulary. *)
Theorem resolveOptionsWithFuzzyMatch_empty_token (vocabulary : list string)
    (x : string) :
  vocabulary <> [] ->
  In x (resolveOptionsWithFuzzyMatch [""] (Some vocabulary))
  <-> In x vocabulary.
Proof.
  intros Hne. rewrite (resolve_In vocabulary [""] x Hne). split.
  - intros (value & _ & H). now apply codeResolution_vocabulary in H.
  - intros H. exists "". split; [now left|].
    unfold codeResolution, resolveStep, JS.find.
    assert (F : In x (fold_left (fun acc match_ => StringSet.add match_ acc)
                        (fuzzyMatchOptions "" vocabulary) StringSet.empty)).
    { rewrite addAll_In. right. unfold fuzzyMatchOptions.
      apply filter_In. split; [exact H | apply includes_empty]. }
    destruct (List.find _ vocabulary) as [found|] eqn:E; [|exact F].
    apply find_some in E as [_ E]. apply String.eqb_eq in E. simpl in E.
    apply (proj1 (toLowerCase_empty found)) in E. subst found. exact F.
Qed.

Lemma resolveOptionsWithFuzzyMatch_empty_token_witness :
  In "Editor" (resolveOptionsWithFuzzyMatch [""] (Some ["UGC Creator"; "Editor"])).
Proof.
  assert (H : ["UGC Creator"; "Editor"] <> []) by discriminate.
  apply (resolveOptionsWithFuzzyMatch_empty_token
           ["UGC Creator"; "Editor"] "Editor" H).
  right. left. reflexivity.
Defined.

(** ** Combinators *)

Lemma survivors_app (sentinel : string) (a b : list string) :
  survivors sentinel (a ++ b)
  = (survivors sentinel a ++ survivors sentinel b)%list.
Proof. unfold survivors. apply filter_app. Qed.

Lemma survivors_survivors (sentinel : string) (formulas : list string) :
  survivors sentinel (survivors sentinel formulas) = survivors sentinel formulas.
Proof.
  unfold survivors. apply filter_filter_implies. intros x H. exact H.
Qed.

Lemma survivors_dropped (sentinel x : string) (a b : list string) :
  x = "" \/ x = sentinel ->
  survivors sentinel (a ++ x :: b) = survivors sentinel (a ++ b).
Proof.
  intros H. rewrite !survivors_app. f_equal.
  unfold survivors. cbn [filter].
  destruct H as [-> | ->]; [reflexivity|].
  rewrite String.eqb_refl, andb_false_r. reflexivity.
Qed.

Lemma survivor_kept (sentinel f : string) (formulas : list string) :
  In f (survivors sentinel formulas) -> survivors sentinel [f] = [f].
Proof.
  intros H. apply survivors_In in H as (_ & N & S).
  unfold survivors. cbn [filter].
  apply String.eqb_neq in N, S. now rewrite N, S.
Qed.

(** X11. The combinators absorb what they drop and are stable. An empty
    formula or the combinator's own sentinel, at any place of the argument
    list, does not change the result, and combining the result of a
    combination alone gives it back: [combineFormulasAnd] and
    [combineFormulasOr] never wrap a formula twice. *)
Theorem combineFormulas_absorb (a b : list string) :
  combineFormulasAnd (a ++ "TRUE()" :: b) = combineFormulasAnd (a ++ b)
  /\ combineFormulasAnd (a ++ "" :: b) = combineFormulasAnd (a ++ b)
  /\ combineFormulasOr (a ++ "FALSE()" :: b) = combineFormulasOr (a ++ b)
  /\ combineFormulasOr (a ++ "" :: b) = combineFormulasOr (a ++ b)
  /\ combineFormulasAnd [combineFormulasAnd a] = combineFormulasAnd a
  /\ combineFormulasOr [combineFormulasOr a] = combineFormulasOr a.
Proof.
  rewrite !combineFormulasAnd_survivors, !combineFormulasOr_survivors.
  rewrite !survivors_dropped by tauto.
  repeat split.
  - destruct (survivors "TRUE()" a) as [|f [|g l]] eqn:E; try reflexivity.
    assert (K : In f (survivors "TRUE()" a)) by (rewrite E; now left).
    now rewrite (survivor_kept _ _ _ K).
  - destruct (survivors "FALSE()" a) as [|f [|g l]] eqn:E; try reflexivity.
    assert (K : In f (survivors "FALSE()" a)) by (rewrite E; now left).
    now rewrite (survivor_kept _ _ _ K).
Qed.

(** ** Number and date ranges: when they throw *)

Lemma wrap_ok_not_throw {A : Type} (a : A) : ~ throws (Ok a).
Proof. intros (msg & H). discriminate. Qed.

Lemma pushNumberBound_throws_iff (field op message : string)
    (bound : option number) (conditions : list string) :
  throws (pushNumberBound field op message bound conditions)
  <-> notFinite bound.
Proof.
  unfold pushNumberBound, notFinite, throws.
  destruct bound as [value|].
  - destruct (Num.isFinite value) eqn:F; simpl.
    + split; [intros (msg & H); discriminate|].
      intros (v & E & H). injection E as <-. congruence.
    + split; [intros _; now exists value | intros _; eexists; reflexivity].
  - split; [intros (msg & H); discriminate | intros (v & E & _); discriminate].
Qed.

(** X12. For a field name that passes [sanitizeFieldName],
    [buildNumberRangeFormula] throws exactly when a bound that was supplied
    is not a finite number; the minimum is checked first, so its message is
    the one thrown when it is the one at fault. *)
Theorem buildNumberRangeFormula_throws_iff (fieldName field : string)
    (min max : option number) :
  sanitizeFieldName fieldName = Ok field ->
  (throws (buildNumberRangeFormula fieldName min max)
   <-> notFinite min \/ notFinite max)
  /\ (notFinite min ->
      buildNumberRangeFormula fieldName min max
      = Throw "Minimum value must be a finite number")
  /\ (~ notFinite min -> notFinite max ->
      buildNumberRangeFormula fieldName min max
      = Throw "Maximum value must be a finite number").
Proof.
  intros E. unfold buildNumberRangeFormula. rewrite E. cbn [bind].
  destruct (pushNumberBound_total field ">="
              "Minimum value must be a finite number" min [])
    as [(conditions & Emin) | Emin].
  - assert (Nmin : ~ notFinite min).
    { rewrite <- (pushNumberBound_throws_iff field ">="
                    "Minimum value must be a finite number" min []).
      rewrite Emin. apply wrap_ok_not_throw. }
    rewrite Emin. cbn [bind].
    destruct (pushNumberBound_total field "<="
                "Maximum value must be a finite number" max conditions)
      as [(conditions' & Emax) | Emax].
    + assert (Nmax : ~ notFinite max).
      { rewrite <- (pushNumberBound_throws_iff field "<="
                      "Maximum value must be a finite number" max conditions).
        rewrite Emax. apply wrap_ok_not_throw. }
      rewrite Emax. cbn [bind]. split; [|split]; try tauto.
      split; [intros T; now apply wrap_ok_not_throw in T | tauto].
    + rewrite Emax. cbn [bind]. split; [|split]; try tauto.
      split; [intros _; right|intros _; eexists; reflexivity].
      apply (pushNumberBound_throws_iff field "<="
               "Maximum value must be a finite number" max conditions).
      rewrite Emax. eexists; reflexivity.
  - rewrite Emin. cbn [bind]. split; [|split]; try tauto.
    + split; [intros _; left|intros _; eexists; reflexivity].
      apply (pushNumberBound_throws_iff field ">="
               "Minimum value must be a finite number" min []).
      rewrite Emin. eexists; reflexivity.
    + intros N. exfalso. apply N.
      apply (pushNumberBound_throws_iff field ">="
               "Minimum value must be a finite number" min []).
      rewrite Emin. eexists; reflexivity.
Qed.

Lemma buildNumberRangeFormula_throws_iff_witness :
  buildNumberRangeFormula "Rating" (Some (Finite 1)) (Some NegInfinity)
  = Throw "Maximum value must be a finite number".
Proof.
  assert (Nmin : ~ notFinite (Some (Finite 1))).
  { intros (v & E & F). injection E as <-. discriminate. }
  assert (Nmax : notFinite (Some NegInfinity)).
  { exists NegInfinity. split; reflexivity. }
  exact (proj2 (proj2 (buildNumberRangeFormula_throws_iff "Rating" "Rating"
                         (Some (Finite 1)) (Some NegInfinity) eq_refl))
           Nmin Nmax).
Defined.

Lemma pushDateBound_throws_iff (field fn message : string)
    (bound : option string) (conditions : list string) :
  throws (pushDateBound field fn message bound conditions) <-> badDate bound.
Proof.
  unfold pushDateBound, badDate, throws, JS.truthy.
  destruct bound as [date|].
  - destruct (date =? "") eqn:N; cbn [negb].
    + apply String.eqb_eq in N. split; [intros (msg & H); discriminate|].
      intros (d & E & Hne & _). injection E as <-. contradiction.
    + apply String.eqb_neq in N.
      destruct (isoDateTest date) eqn:T; cbn [negb].
      * split; [intros (msg & H); discriminate|].
        intros (d & E & _ & H). injection E as <-. congruence.
      * split; [intros _; now exists date | intros _; eexists; reflexivity].
  - split; [intros (msg & H); discriminate | intros (d & E & _); discriminate].
Qed.

Lemma pushDateBound_total (field fn message : string)
    (bound : option string) (conditions : list string) :
  (exists conditions', pushDateBound field fn message bound conditions
                       = Ok conditions')
  \/ pushDateBound field fn message bound conditions = Throw message.
Proof.
  unfold pushDateBound. destruct bound as [date|]; [|left; eexists; reflexivity].
  destruct (JS.truthy date); [|left; eexists; reflexivity].
  destruct (isoDateTest date); [left; eexists; reflexivity | now right].
Qed.

(** X13. For a field name that passes [sanitizeFieldName],
    [buildDateRangeFormula] throws exactly when a bound that was supplied and
    is not empty fails the date pattern. *)
Theorem buildDateRangeFormula_throws_iff (fieldName field : string)
    (startDate endDate : option string) :
  sanitizeFieldName fieldName = Ok field ->
  throws (buildDateRangeFormula fieldName startDate endDate)
  <-> badDate startDate \/ badDate endDate.
Proof.
  intros E. unfold buildDateRangeFormula. rewrite E. cbn [bind].
  set (m1 := "Start date must be in ISO 8601 format (YYYY-MM-DD or YYYY-MM-DDTHH:mm:ss)").
  set (m2 := "End date must be in ISO 8601 format (YYYY-MM-DD or YYYY-MM-DDTHH:mm:ss)").
  rewrite <- (pushDateBound_throws_iff field "IS_AFTER" m1 startDate []).
  destruct (pushDateBound_total field "IS_AFTER" m1 startDate [])
    as [(conditions & E1) | E1]; rewrite E1; cbn [bind].
  - rewrite <- (pushDateBound_throws_iff field "IS_BEFORE" m2 endDate conditions).
    destruct (pushDateBound_total field "IS_BEFORE" m2 endDate conditions)
      as [(conditions' & E2) | E2]; rewrite E2; cbn [bind].
    + split; [intros T; now apply wrap_ok_not_throw in T|].
      intros [T | T]; now apply wrap_ok_not_throw in T.
    + split; [intros _; right | intros _]; eexists; reflexivity.
  - split; [intros _; left | intros _]; eexists; reflexivity.
Qed.

Lemma buildDateRangeFormula_throws_iff_witness :
  throws (buildDateRangeFormula "Created" (Some "2024-01-01") (Some "01/01/2024")).
Proof.
  apply (buildDateRangeFormula_throws_iff "Created" "Created"
           (Some "2024-01-01") (Some "01/01/2024") eq_refl).
  right. exists "01/01/2024". split; [reflexivity|].
  split; [discriminate | reflexivity].
Defined.

Lemma matchClasses_clean (q : ascii -> bool) (classes : list (ascii -> bool)) :
  Forall (fun p => forall c, p c = true -> q c = false) classes ->
  forall s rest,
    matchClasses classes s = Some rest ->
    JS.any q s = JS.any q rest
    /\ String.length s = List.length classes + String.length rest.
Proof.
  induction 1 as [|p classes Hp _ IH]; intros s rest; simpl.
  - intros H. injection H as ->. split; reflexivity.
  - destruct s as [|c s]; [discriminate|].
    destruct (p c) eqn:P; [|discriminate].
    intros H. apply IH in H as [H L]. simpl.
    rewrite (Hp c P), H, L. split; reflexivity.
Qed.

Lemma digit_not_terminator (c : ascii) :
  JS.isDigit c = true -> JS.isLineTerminator c = false.
Proof. by_chars c. Qed.

Lemma isChar_not_terminator (x : ascii) :
  JS.isLineTerminator x = false ->
  forall c, isChar x c = true -> JS.isLineTerminator c = false.
Proof. unfold isChar. intros H c E. apply char_eqb_eq in E. now subst. Qed.

Lemma any_all_negb (q : ascii -> bool) (s : string) :
  JS.all (fun c => negb (q c)) s = true -> JS.any q s = false.
Proof.
  induction s as [|c s IH]; simpl; [reflexivity|].
  intros H. apply andb_true_iff in H as [H1 H2].
  apply negb_true_iff in H1. now rewrite H1, IH.
Qed.

Ltac classes_without_terminator :=
  repeat (apply Forall_cons;
          [ first [ exact digit_not_terminator
                  | apply isChar_not_terminator; reflexivity ] | ]);
  apply Forall_nil.

(** X14. A string accepted by the date check has no line feed and no
    carriage return anywhere, and it has either 10 characters (a date) or at
    least 19 (a date and a time). *)
Theorem isoDateTest_accepts (date : string) :
  isoDateTest date = true ->
  JS.any JS.isLineTerminator date = false
  /\ (String.length date = 10 \/ 19 <= String.length date).
Proof.
  unfold isoDateTest.
  destruct (matchClasses _ date) as [rest|] eqn:M1; [|discriminate].
  apply (matchClasses_clean JS.isLineTerminator) in M1 as [A1 L1].
  2:{ classes_without_terminator. }
  intros H. apply orb_true_iff in H as [H | H].
  - apply String.eqb_eq in H. subst rest. rewrite A1, L1. simpl. tauto.
  - destruct (matchClasses _ rest) as [tail|] eqn:M2; [|discriminate].
    apply (matchClasses_clean JS.isLineTerminator) in M2 as [A2 L2].
    2:{ classes_without_terminator. }
    rewrite A1, A2, L1, L2. split; [now apply any_all_negb|].
    right. simpl. lia.
Qed.

Lemma isoDateTest_accepts_witness :
  JS.any JS.isLineTerminator "2024-02-30T10:00:00Z" = false
  /\ (String.length "2024-02-30T10:00:00Z" = 10
      \/ 19 <= String.length "2024-02-30T10:00:00Z").
Proof. exact (isoDateTest_accepts "2024-02-30T10:00:00Z" eq_refl). Defined.

(** ** The query tools *)

Lemma collectFormulas_ok (conditions : list condition) :
  forall formulas acc,
    Forall2 (fun c f => conditionFormula c = Ok f) conditions formulas ->
    collectFormulas conditions acc = Ok (acc ++ formulas)%list.
Proof.
  induction conditions as [|c rest IH]; intros formulas acc H;
    inversion H as [|? f ? fs Hc Hrest]; subst; simpl.
  - now rewrite app_nil_r.
  - rewrite Hc. cbn [bind]. rewrite (IH fs _ Hrest).
    now rewrite <- app_assoc.
Qed.

Lemma collectFormulas_first_error (pre post : list condition) (c : condition)
    (msg : string) :
  forall formulas acc,
    Forall2 (fun c f => conditionFormula c = Ok f) pre formulas ->
    conditionFormula c = Throw msg ->
    collectFormulas (pre ++ c :: post) acc = Throw msg.
Proof.
  induction pre as [|p pre IH]; intros formulas acc H Hc;
    inversion H as [|? f ? fs Hp Hpre]; subst; simpl.
  - now rewrite Hc.
  - rewrite Hp. cbn [bind]. now apply (IH fs).
Qed.

Lemma collectFormulas_throws_iff (conditions : list condition) :
  forall acc,
    throws (collectFormulas conditions acc)
    <-> Exists (fun c => throws (conditionFormula c)) conditions.
Proof.
  induction conditions as [|c rest IH]; intros acc; simpl.
  - split; [intros T; now apply wrap_ok_not_throw in T|].
    intros H. inversion H.
  - rewrite Exists_cons. destruct (conditionFormula c) as [f|msg]; cbn [bind].
    + rewrite IH. split; [tauto|].
      intros [T | H]; [now apply wrap_ok_not_throw in T | exact H].
    + split; [intros _; left | intros _]; eexists; reflexivity.
Qed.

(** X15. When every condition of a smart query yields a formula, the query
    formula is the chosen combinator applied to these formulas in the order
    of the conditions. *)
Theorem smartQueryFormula_ok (conditions : list condition)
    (formulas : list string) (cw : combineWith) :
  Forall2 (fun c f => conditionFormula c = Ok f) conditions formulas ->
  smartQueryFormula conditions cw = Ok (combineBy cw formulas).
Proof.
  intros H. unfold smartQueryFormula.
  rewrite (collectFormulas_ok conditions formulas [] H). cbn [bind app].
  destruct cw; reflexivity.
Qed.

Lemma smartQueryFormula_ok_witness :
  smartQueryFormula
    [ageRange "Age" (Finite 29) (Finite 42) None;
     multipleSelect "Pros" hasAll ["Editing"] None None;
     numberRange "Rating" (Some (Finite 4)) None] AND
  = Ok "AND(OR({Age} = '25-34', {Age} = '35-44'), AND(FIND('Editing', ARRAYJOIN({Pros}))), {Rating} >= 4)".
Proof.
  apply (smartQueryFormula_ok
           [ageRange "Age" (Finite 29) (Finite 42) None;
            multipleSelect "Pros" hasAll ["Editing"] None None;
            numberRange "Rating" (Some (Finite 4)) None]
           ["OR({Age} = '25-34', {Age} = '35-44')";
            "AND(FIND('Editing', ARRAYJOIN({Pros})))";
            "{Rating} >= 4"] AND).
  repeat constructor.
Defined.

(** X16. A smart query fails fast: it throws exactly when one of its
    conditions does, and the error is that of the first such condition;
    the conditions after it are not looked at and no partial formula is
    returned. *)
Theorem smartQueryFormula_fail_fast (cw : combineWith) :
  (forall conditions,
     throws (smartQueryFormula conditions cw)
     <-> Exists (fun c => throws (conditionFormula c)) conditions)
  /\ (forall pre c post formulas msg,
        Forall2 (fun c f => conditionFormula c = Ok f) pre formulas ->
        conditionFormula c = Throw msg ->
        smartQueryFormula (pre ++ c :: post) cw = Throw msg).
Proof.
  split.
  - intros conditions. rewrite <- (collectFormulas_throws_iff conditions []).
    unfold smartQueryFormula.
    destruct (collectFormulas conditions []) as [formulas|msg]; cbn [bind].
    + destruct cw; split; intros T; now apply wrap_ok_not_throw in T.
    + split; intros _; eexists; reflexivity.
  - intros pre c post formulas msg H Hc. unfold smartQueryFormula.
    now rewrite (collectFormulas_first_error pre post c msg formulas [] H Hc).
Qed.

Lemma collectFormulas_custom (formulas : list string) :
  Forall2 (fun c f => conditionFormula c = Ok f)
    (map customFormula formulas) formulas.
Proof. induction formulas; simpl; constructor; auto. Qed.

(** X17. Custom formulas pass through a smart query as they are: a query
    of custom formulas only is the combinator applied to the very strings
    that were given, which are neither checked nor escaped, and a single
    custom formula that is neither empty nor the sentinel is the whole query
    formula. *)
Theorem smartQueryFormula_custom (formulas : list string) (cw : combineWith) :
  smartQueryFormula (map customFormula formulas) cw
  = Ok (combineBy cw formulas)
  /\ (forall formula,
        formulas = [formula] -> formula <> "" ->
        formula <> "TRUE()" -> formula <> "FALSE()" ->
        smartQueryFormula (map customFormula formulas) cw = Ok formula).
Proof.
  assert (E : smartQueryFormula (map customFormula formulas) cw
              = Ok (combineBy cw formulas)).
  { unfold smartQueryFormula.
    rewrite (collectFormulas_ok _ formulas [] (collectFormulas_custom formulas)).
    cbn [bind app]. destruct cw; reflexivity. }
  split; [exact E|].
  intros formula -> N T F. rewrite E. f_equal.
  apply String.eqb_neq in N, T, F.
  destruct cw; unfold combineBy, combineFormulasAnd, combineFormulasOr,
    JS.truthy; cbn [filter]; rewrite N; [rewrite T | rewrite F]; reflexivity.
Qed.

(** The formulas of [buildAgeRangeFormula] are never empty and never the
    sentinel of the conjunction. *)
Lemma buildAgeRangeFormula_shape (fieldName : string) (minAge maxAge : number)
    (availableRanges : list string) (g : string) :
  buildAgeRangeFormula fieldName minAge maxAge availableRanges = Ok g ->
  g <> "" /\ g <> "TRUE()".
Proof.
  unfold buildAgeRangeFormula.
  destruct (sanitizeFieldName fieldName) as [field|msg]; cbn [bind];
    [|discriminate].
  destruct (findOverlappingAgeRanges _ _ _) as [|a [|b l]];
    intros H; injection H as <-; split; discriminate.
Qed.

Lemma combine_pair (g filters : string) :
  g <> "" ->
  combineFormulasAnd [g; filters] = withFilters g filters.
Proof.
  intros N. unfold combineFormulasAnd, withFilters, JS.truthy. cbn [filter].
  apply String.eqb_neq in N. rewrite N. cbn [negb andb].
  destruct (g =? "TRUE()") eqn:G; destruct (filters =? "") eqn:F1;
    destruct (filters =? "TRUE()") eqn:F2; cbn [negb andb orb];
    try reflexivity;
    try (apply String.eqb_eq in G; subst g; reflexivity).
  unfold JS.join. cbn [String.concat].
  repeat (cbn [append]; rewrite ?append_assoc). reflexivity.
Qed.

(** X18. The age-range query tool adds the additional filters by
    conjunction and never loses the age formula: with the age formula [g],
    filters that are absent, empty or [TRUE()] leave [g], and any other
    filters give [AND(g, filters)]. The filters are not checked. *)
Theorem ageRangeQueryFormula_filters (ageFieldName : option string)
    (minAge maxAge : number) (availableAgeRanges : option (list string))
    (g : string) :
  ageRangeQueryFormula ageFieldName minAge maxAge availableAgeRanges None
  = Ok g ->
  forall filters,
    ageRangeQueryFormula ageFieldName minAge maxAge availableAgeRanges
      (Some filters)
    = Ok (if (filters =? "") || (filters =? "TRUE()") then g
          else "AND(" ++ g ++ ", " ++ filters ++ ")").
Proof.
  unfold ageRangeQueryFormula.
  destruct (buildAgeRangeFormula _ _ _ _) as [f|msg] eqn:B; cbn [bind];
    [|discriminate].
  intros H filters. injection H as ->.
  apply buildAgeRangeFormula_shape in B as [N T].
  unfold JS.truthy. destruct (filters =? "") eqn:F; cbn [negb orb];
    [reflexivity|].
  rewrite (combine_pair g filters N). unfold withFilters. rewrite F.
  apply String.eqb_neq in T. rewrite T. reflexivity.
Qed.

Lemma ageRangeQueryFormula_filters_witness :
  ageRangeQueryFormula (Some "") (Finite 18) (Finite 24) None
    (Some "{Status} = 'Active'")
  = Ok "AND({Age} = '18-24', {Status} = 'Active')".
Proof.
  exact (ageRangeQueryFormula_filters (Some "") (Finite 18) (Finite 24) None
           "{Age} = '18-24'" eq_refl "{Status} = 'Active'").
Defined.

(** The formulas of the three multiple-select builders are never empty. *)
Lemma buildMultipleSelect_shape (fieldName : string) (mt : matchType)
    (values : list string) (availableOptions : option (list string))
    (useFuzzyMatch : option bool) (g : string) :
  match mt with
  | hasAny =>
      buildMultipleSelectHasAny fieldName values availableOptions useFuzzyMatch
  | hasAll =>
      buildMultipleSelectHasAll fieldName values availableOptions useFuzzyMatch
  | hasNone =>
      buildMultipleSelectHasNone fieldName values availableOptions useFuzzyMatch
  end = Ok g ->
  g <> "".
Proof.
  destruct (sanitizeFieldName fieldName) as [field|msg] eqn:E.
  - destruct mt;
      [ rewrite (buildMultipleSelectHasAny_resolved _ _ _ _ _ E)
      | rewrite (buildMultipleSelectHasAll_resolved _ _ _ _ _ E)
      | rewrite (buildMultipleSelectHasNone_resolved _ _ _ _ _ E) ];
      destruct (resolvedValuesOf _ _ _) as [|a [|b l]];
      intros H; injection H as <-; discriminate.
  - destruct mt; unfold buildMultipleSelectHasAny, buildMultipleSelectHasAll,
      buildMultipleSelectHasNone; rewrite E; discriminate.
Qed.

(** X19. The multiple-select query tool adds the additional filters by
    conjunction: with the select formula [g], filters that are absent,
    empty or [TRUE()] leave [g]; other filters give [AND(g, filters)],
    except when [g] is itself [TRUE()], as for [hasAll] and [hasNone] with
    nothing resolved, where the filters alone are the query formula. *)
Theorem multipleSelectQueryFormula_filters (fieldName : string)
    (mt : matchType) (values : list string)
    (availableOptions : option (list string)) (useFuzzyMatch : option bool)
    (g : string) :
  multipleSelectQueryFormula fieldName mt values availableOptions
    useFuzzyMatch None = Ok g ->
  forall filters,
    multipleSelectQueryFormula fieldName mt values availableOptions
      useFuzzyMatch (Some filters)
    = Ok (withFilters g filters).
Proof.
  unfold multipleSelectQueryFormula.
  destruct (match mt with
            | hasAny => _ | hasAll => _ | hasNone => _
            end) as [f|msg] eqn:B; cbn [bind]; [|discriminate].
  intros H filters. injection H as ->.
  apply buildMultipleSelect_shape in B.
  unfold JS.truthy. destruct (filters =? "") eqn:F; cbn [negb].
  - unfold withFilters. now rewrite F.
  - now rewrite (combine_pair g filters B).
Qed.

Lemma multipleSelectQueryFormula_filters_witness :
  multipleSelectQueryFormula "Pros" hasAll ["tripod"]
    (Some ["DSLR Podcast Setup"; "Ring Light"]) None
    (Some "{Status} = 'Active'")
  = Ok "{Status} = 'Active'".
Proof.
  exact (multipleSelectQueryFormula_filters "Pros" hasAll ["tripod"]
           (Some ["DSLR Podcast Setup"; "Ring Light"]) None "TRUE()" eq_refl
           "{Status} = 'Active'").
Defined.

(** ** Regular expressions: the test decides the language *)

Lemma lang_cat_inv (r1 r2 : Regex.t) (s : string) :
  lang (Regex.Cat r1 r2) s ->
  exists s1 s2, s = s1 ++ s2 /\ lang r1 s1 /\ lang r2 s2.
Proof.
  intros H. inversion H; subst. eexists _, _. repeat split; eassumption.
Qed.

Lemma nullable_lang (r : Regex.t) : Regex.nullable r = true <-> lang r "".
Proof.
  induction r as [| |p|r1 IH1 r2 IH2|r1 IH1 r2 IH2|r IH]; simpl.
  - split; [discriminate | intros H; inversion H].
  - split; [intros _; constructor | reflexivity].
  - split; [discriminate | intros H; inversion H].
  - rewrite andb_true_iff, IH1, IH2. split.
    + intros [H1 H2]. exact (lang_cat _ _ "" "" H1 H2).
    + intros H. apply lang_cat_inv in H as (s1 & s2 & E & H1 & H2).
      destruct s1; [|discriminate]. destruct s2; [|discriminate]. tauto.
  - rewrite orb_true_iff, IH1, IH2. split.
    + intros [H | H]; [now apply lang_alt_l | now apply lang_alt_r].
    + intros H. inversion H; subst; tauto.
  - split; [intros _; constructor | reflexivity].
Qed.

Lemma lang_star_cons_inv (r : Regex.t) (s : string) :
  lang (Regex.Star r) s ->
  forall c s', s = String c s' ->
  exists s1 s2, s' = s1 ++ s2 /\ lang r (String c s1) /\ lang (Regex.Star r) s2.
Proof.
  intros H. remember (Regex.Star r) as q eqn:Q.
  induction H as [| | | | | |r0 s1 s2 H1 _ H2 IH2]; try discriminate Q.
  - intros c s' E. discriminate E.
  - injection Q as ->. intros c s' E. destruct s1 as [|d s1].
    + simpl in E. now apply IH2.
    + simpl in E. injection E as -> <-. exists s1, s2. tauto.
Qed.

Lemma deriv_lang (r : Regex.t) :
  forall c s, lang (Regex.deriv c r) s <-> lang r (String c s).
Proof.
  induction r as [| |p|r1 IH1 r2 IH2|r1 IH1 r2 IH2|r IH]; intros c s; simpl.
  - split; intros H; inversion H.
  - split; intros H; inversion H.
  - destruct (p c) eqn:P; split; intros H; inversion H; subst.
    + now constructor.
    + constructor.
    + congruence.
  - assert (L : lang (Regex.Cat (Regex.deriv c r1) r2) s
                <-> exists s1 s2, s = s1 ++ s2 /\ lang r1 (String c s1)
                                  /\ lang r2 s2).
    { split.
      - intros H. apply lang_cat_inv in H as (s1 & s2 & -> & H1 & H2).
        exists s1, s2. rewrite <- IH1. tauto.
      - intros (s1 & s2 & -> & H1 & H2). constructor; [now apply IH1 | exact H2]. }
    assert (R : lang (Regex.Cat r1 r2) (String c s)
                <-> (exists s1 s2, s = s1 ++ s2 /\ lang r1 (String c s1)
                                   /\ lang r2 s2)
                    \/ (lang r1 "" /\ lang r2 (String c s))).
    { split.
      - intros H. apply lang_cat_inv in H as (s1 & s2 & E & H1 & H2).
        destruct s1 as [|d s1].
        + simpl in E. subst s2. now right.
        + simpl in E. injection E as <- ->. left. exists s1, s2. tauto.
      - intros [(s1 & s2 & -> & H1 & H2) | [H1 H2]].
        + exact (lang_cat _ _ (String c s1) s2 H1 H2).
        + exact (lang_cat _ _ "" (String c s) H1 H2). }
    rewrite R. destruct (Regex.nullable r1) eqn:N.
    + apply nullable_lang in N. split.
      * intros H. inversion H; subst; [left; now apply L|].
        right. split; [exact N | now apply IH2].
      * intros [H | [_ H]]; [apply lang_alt_l; now apply L|].
        apply lang_alt_r. now apply IH2.
    + rewrite L. split; [tauto|]. intros [H | [H _]]; [exact H|].
      apply nullable_lang in H. congruence.
  - split.
    + intros H. inversion H; subst;
        [apply lang_alt_l; now apply IH1 | apply lang_alt_r; now apply IH2].
    + intros H. inversion H; subst;
        [apply lang_alt_l; now apply IH1 | apply lang_alt_r; now apply IH2].
  - split.
    + intros H. apply lang_cat_inv in H as (s1 & s2 & -> & H1 & H2).
      apply IH in H1. exact (lang_star_cons r (String c s1) s2 H1 H2).
    + intros H.
      destruct (lang_star_cons_inv r _ H c s eq_refl) as (s1 & s2 & -> & H1 & H2).
      constructor; [now apply IH | exact H2].
Qed.

Lemma matches_lang (s : string) :
  forall r, Regex.matches r s = true <-> lang r s.
Proof.
  induction s as [|c s IH]; intros r; simpl.
  - apply nullable_lang.
  - rewrite IH. apply deriv_lang.
Qed.

Lemma lang_anything (s : string) : lang Regex.anything s.
Proof.
  unfold Regex.anything. induction s as [|c s IH]; [constructor|].
  change (String c s) with (String c "" ++ s).
  constructor; [now constructor | exact IH].
Qed.

(** The test of a pattern decides its language: [Regex.matches] returns
    [true] exactly on the strings of the language of the pattern, and
    [Regex.test], the test without anchors, exactly on the strings in which
    a string of the language occurs. *)
Lemma regex_test_correct (r : Regex.t) (s : string) :
  (Regex.matches r s = true <-> lang r s)
  /\ (Regex.test r s = true <-> exists m, lang r m /\ occursIn m s).
Proof.
  split; [apply matches_lang|].
  unfold Regex.test, occursIn. rewrite matches_lang. split.
  - intros H. apply lang_cat_inv in H as (a & rest & -> & _ & H).
    apply lang_cat_inv in H as (m & b & -> & Hm & _).
    exists m. split; [exact Hm|]. now exists a, b.
  - intros (m & Hm & a & b & ->).
    constructor; [apply lang_anything|].
    constructor; [exact Hm | apply lang_anything].
Qed.

(** ** Field filters: patterns and keywords *)

Lemma startsWith_iff (n h : string) :
  JS.startsWith n h = true <-> exists b, h = n ++ b.
Proof.
  revert h. induction n as [|c n IH]; intros h; simpl.
  - split; [intros _; now exists h | reflexivity].
  - destruct h as [|d h].
    + split; [discriminate | intros (b & E); discriminate].
    + rewrite andb_true_iff, char_eqb_eq, IH. split.
      * intros [-> (b & ->)]. now exists b.
      * intros (b & E). injection E as -> ->. split; [reflexivity | now exists b].
Qed.

Lemma includes_iff (n h : string) :
  JS.includes n h = true <-> occursIn n h.
Proof.
  unfold occursIn. induction h as [|d h IH]; cbn [JS.includes].
  - rewrite orb_false_r, startsWith_iff. split.
    + intros (b & E). now exists "", b.
    + intros (a & b & E). destruct a; [now exists b | discriminate].
  - rewrite orb_true_iff, startsWith_iff, IH. split.
    + intros [(b & E) | (a & b & E)].
      * now exists "", b.
      * exists (String d a), b. now rewrite E.
    + intros (a & b & E). destruct a as [|x a]; simpl in E.
      * left. now exists b.
      * injection E as _ ->. right. now exists a, b.
Qed.

Lemma occursIn_trans (x y z : string) :
  occursIn x y -> occursIn y z -> occursIn x z.
Proof.
  intros (a & b & ->) (a' & b' & ->). exists (a' ++ a), (b ++ b').
  now rewrite !append_assoc.
Qed.

Lemma toLowerCase_append (a b : string) :
  JS.toLowerCase (a ++ b) = JS.toLowerCase a ++ JS.toLowerCase b.
Proof. induction a as [|c a IH]; simpl; [reflexivity | now rewrite IH]. Qed.

Lemma toLowerCase_split (x y : string) :
  forall s,
    JS.toLowerCase s = x ++ y ->
    exists s1 s2, s = s1 ++ s2 /\ JS.toLowerCase s1 = x /\ JS.toLowerCase s2 = y.
Proof.
  induction x as [|c x IH]; intros s E; simpl in E.
  - now exists "", s.
  - destruct s as [|d s]; [discriminate|]. simpl in E.
    injection E as Hc E. destruct (IH s E) as (s1 & s2 & -> & H1 & H2).
    exists (String d s1), s2. simpl. now rewrite Hc, H1.
Qed.

Lemma lowerChar_idempotent (c : ascii) :
  JS.lowerChar (JS.lowerChar c) = JS.lowerChar c.
Proof. by_chars c. Qed.

Lemma toLowerCase_idempotent (s : string) :
  JS.toLowerCase (JS.toLowerCase s) = JS.toLowerCase s.
Proof.
  induction s as [|c s IH]; simpl; [reflexivity|].
  now rewrite lowerChar_idempotent, IH.
Qed.

Lemma lang_lit (w : string) :
  forall m, lang (Regex.lit w) m <-> JS.toLowerCase m = JS.toLowerCase w.
Proof.
  induction w as [|c w IH]; intros m; simpl.
  - split.
    + intros H. inversion H. reflexivity.
    + intros H. apply (proj1 (toLowerCase_empty m)) in H. subst. constructor.
  - split.
    + intros H. apply lang_cat_inv in H as (s1 & s2 & -> & H1 & H2).
      inversion H1 as [|p x Hx| | | | |]; subst. apply char_eqb_eq in Hx.
      apply IH in H2. simpl. now rewrite Hx, H2.
    + intros H. destruct m as [|x m]; [discriminate|]. simpl in H.
      injection H as Hx Hm. change (String x m) with (String x "" ++ m).
      constructor; [|now apply IH].
      unfold Regex.ci. constructor. now apply char_eqb_eq.
Qed.

Lemma test_occurs (r : Regex.t) (s : string) :
  Regex.test r s = true <-> exists m, lang r m /\ occursIn m s.
Proof. apply regex_test_correct. Qed.

Lemma test_lit (w s : string) :
  Regex.test (Regex.lit w) s = true <-> hasKeyword s (JS.toLowerCase w) = true.
Proof.
  unfold hasKeyword. rewrite test_occurs, includes_iff. split.
  - intros (m & Hm & a & b & ->). apply lang_lit in Hm.
    exists (JS.toLowerCase a), (JS.toLowerCase b).
    now rewrite !toLowerCase_append, Hm.
  - intros (a' & b' & E).
    apply toLowerCase_split in E as (a & rest & -> & Ha & E).
    apply toLowerCase_split in E as (m & b & -> & Hm & Hb).
    exists m. split; [now apply lang_lit | now exists a, b].
Qed.

Lemma test_opt (r r' : Regex.t) (s : string) :
  Regex.test (Regex.Cat r (Regex.opt r')) s = true <-> Regex.test r s = true.
Proof.
  rewrite !test_occurs. split.
  - intros (m & Hm & a & b & ->).
    apply lang_cat_inv in Hm as (m1 & m2 & -> & H1 & _).
    exists m1. split; [exact H1|]. exists a, (m2 ++ b).
    now rewrite !append_assoc.
  - intros (m & Hm & Ho). exists m. split; [|exact Ho].
    rewrite <- (append_nil_r m). constructor; [exact Hm|].
    apply lang_alt_r. constructor.
Qed.

Lemma test_gap (a b s : string) :
  Regex.test (Regex.gap a b) s = true ->
  hasKeyword s (JS.toLowerCase b) = true.
Proof.
  intros H. apply test_lit. apply test_occurs in H as (m & Hm & x & y & ->).
  unfold Regex.gap in Hm.
  apply lang_cat_inv in Hm as (m1 & rest & -> & _ & Hm).
  apply lang_cat_inv in Hm as (g & m2 & -> & _ & H2).
  apply test_occurs. exists m2. split; [exact H2|].
  exists (x ++ m1 ++ g), y. now rewrite !append_assoc.
Qed.

Lemma hasKeyword_part (s w w' : string) :
  JS.includes w' w = true -> hasKeyword s w = true -> hasKeyword s w' = true.
Proof.
  unfold hasKeyword. rewrite !includes_iff. intros H1 H2.
  exact (occursIn_trans _ _ _ H1 H2).
Qed.

Lemma test_word (w s : string) :
  JS.toLowerCase w = w ->
  Regex.test (Regex.lit w) s = true <-> hasKeyword s w = true.
Proof. intros E. rewrite test_lit. now rewrite E. Qed.

Lemma test_plural (w s : string) :
  JS.toLowerCase w = w ->
  Regex.test (Regex.Cat (Regex.lit w) (Regex.opt (Regex.lit "s"))) s = true
  <-> hasKeyword s w = true.
Proof. intros E. rewrite test_opt. now apply test_word. Qed.

Lemma test_gap_word (a b s : string) :
  JS.toLowerCase b = b ->
  Regex.test (Regex.gap a b) s = true -> hasKeyword s b = true.
Proof. intros E H. apply test_gap in H. now rewrite E in H. Qed.

(** A keyword was found: it is in the list, or a word of the list is a part
    of it. *)
Ltac keyword_found :=
  match goal with
  | H : hasKeyword ?f ?w = true |- exists kw, In kw ?l /\ hasKeyword ?f kw = true =>
      first
        [ exists w; split; [simpl; tauto | exact H]
        | exists "photo"; split;
          [simpl; tauto | exact (hasKeyword_part f w "photo" eq_refl H)]
        | exists "note"; split;
          [simpl; tauto | exact (hasKeyword_part f w "note" eq_refl H)] ]
  end.

(** The pattern that was tested gives its keyword. *)
Ltac pattern_keyword H :=
  first [ apply (proj1 (test_word _ _ eq_refl)) in H
        | apply (proj1 (test_plural _ _ eq_refl)) in H
        | apply (test_gap_word _ _ _ eq_refl) in H ].

(** The keyword that was found has its pattern in the list. *)
Ltac keyword_pattern :=
  match goal with
  | H : hasKeyword ?f ?w = true |- exists p, In p ?l /\ Regex.test p ?f = true =>
      first
        [ exists (Regex.lit w); split;
          [simpl; tauto | exact (proj2 (test_word w f eq_refl) H)]
        | exists (Regex.Cat (Regex.lit w) (Regex.opt (Regex.lit "s"))); split;
          [simpl; tauto | exact (proj2 (test_plural w f eq_refl) H)] ]
  end.

Lemma attachment_has_keyword (fieldName : string) :
  isAttachmentField fieldName = true ->
  exists kw, In kw attachmentKeywords /\ hasKeyword fieldName kw = true.
Proof.
  unfold isAttachmentField, matchesPatterns. rewrite existsb_exists.
  intros (pattern & Hin & H). unfold ATTACHMENT_FIELD_PATTERNS in Hin.
  repeat (destruct Hin as [<- | Hin]; [pattern_keyword H; keyword_found|]).
  destruct Hin.
Qed.

Lemma keyword_is_attachment (fieldName kw : string) :
  In kw attachmentKeywords -> hasKeyword fieldName kw = true ->
  isAttachmentField fieldName = true.
Proof.
  unfold isAttachmentField, matchesPatterns. rewrite existsb_exists.
  intros Hin H. unfold attachmentKeywords in Hin.
  repeat (destruct Hin as [<- | Hin]; [keyword_pattern|]).
  destruct Hin.
Qed.

(** X20. A field is an attachment field exactly when its name has one of
    fourteen words, whatever the case of the letters: headshot, photo,
    image, picture, sample, video, attachment, file, media, screenshot,
    living room, bathroom, current setup, dropbox. The three other patterns
    of the list add nothing to these. *)
Theorem isAttachmentField_keywords (fieldName : string) :
  isAttachmentField fieldName = existsb (hasKeyword fieldName) attachmentKeywords.
Proof.
  apply eq_true_iff_eq. rewrite existsb_exists. split.
  - apply attachment_has_keyword.
  - intros (kw & Hin & H). exact (keyword_is_attachment fieldName kw Hin H).
Qed.

Lemma lang_star_dot (g : string) :
  lang (Regex.Star Regex.dot) g <-> JS.any JS.isLineTerminator g = false.
Proof.
  split.
  - intros H. remember (Regex.Star Regex.dot) as q eqn:Q.
    induction H as [| | | | | |r s1 s2 H1 _ H2 IH2]; try discriminate Q.
    + reflexivity.
    + injection Q as ->. rewrite any_append, (IH2 eq_refl), orb_false_r.
      inversion H1 as [|p c Hc| | | | |]; subst. simpl.
      apply negb_true_iff in Hc. now rewrite Hc.
  - induction g as [|c g IH]; simpl; [constructor|].
    intros H. apply orb_false_iff in H as [Hc Hg].
    change (String c g) with (String c "" ++ g).
    constructor; [|now apply IH].
    unfold Regex.dot. constructor. now rewrite Hc.
Qed.

Lemma test_gap_iff (a b s : string) :
  JS.toLowerCase a = a -> JS.toLowerCase b = b ->
  Regex.test (Regex.gap a b) s = true <-> wordsApart s a b.
Proof.
  intros Ea Eb. rewrite test_occurs. unfold wordsApart, Regex.gap. split.
  - intros (m & Hm & Ho).
    apply lang_cat_inv in Hm as (x & rest & -> & Hx & Hm).
    apply lang_cat_inv in Hm as (g & y & -> & Hg & Hy).
    apply lang_lit in Hx, Hy. apply lang_star_dot in Hg.
    exists x, g, y. repeat split; try assumption; congruence.
  - intros (x & g & y & Ho & Hx & Hy & Hg).
    exists (x ++ g ++ y). split; [|exact Ho].
    constructor; [apply lang_lit; congruence|].
    constructor; [now apply lang_star_dot | apply lang_lit; congruence].
Qed.

Lemma keyword_is_longText (fieldName kw : string) :
  In kw longTextKeywords -> hasKeyword fieldName kw = true ->
  isLongTextField fieldName = true.
Proof.
  unfold isLongTextField, matchesPatterns. rewrite existsb_exists.
  intros Hin H. unfold longTextKeywords in Hin.
  repeat (destruct Hin as [<- | Hin]; [keyword_pattern|]).
  destruct Hin.
Qed.

(** X21. A field is a long text field exactly when its name has one of the
    words feedback, note, description, bio, comments, summary and content,
    or has [rich], [ai] or [generated] followed on the same line by [text],
    whatever the case of the letters. *)
Theorem isLongTextField_keywords (fieldName : string) :
  isLongTextField fieldName = true
  <-> (exists kw, In kw longTextKeywords /\ hasKeyword fieldName kw = true)
      \/ (exists a, In a ["rich"; "ai"; "generated"]
                    /\ wordsApart fieldName a "text").
Proof.
  split.
  - unfold isLongTextField, matchesPatterns. rewrite existsb_exists.
    intros (pattern & Hin & H). unfold LONG_TEXT_FIELD_PATTERNS in Hin.
    repeat (destruct Hin as [<- | Hin];
            [ first
                [ match type of H with
                  | Regex.test (Regex.gap ?a "text") _ = true =>
                      apply (proj1 (test_gap_iff a "text" _ eq_refl eq_refl)) in H;
                      right; exists a; split; [simpl; tauto | exact H]
                  end
                | left; pattern_keyword H; keyword_found ] | ]).
    destruct Hin.
  - intros [(kw & Hin & H) | (a & Hin & H)].
    + exact (keyword_is_longText fieldName kw Hin H).
    + unfold isLongTextField, matchesPatterns. rewrite existsb_exists.
      repeat (destruct Hin as [<- | Hin];
              [ match goal with
                | K : wordsApart ?f ?w "text" |- _ =>
                    exists (Regex.gap w "text"); split;
                    [ simpl; tauto
                    | exact (proj2 (test_gap_iff w "text" f eq_refl eq_refl) K) ]
                end | ]).
      destruct Hin.
Qed.

(** ** Field filters: what is returned *)

Lemma subsequence_refl (l : list string) : subsequence l l.
Proof. induction l; constructor; assumption. Qed.

Lemma subsequence_trans (l1 l2 l3 : list string) :
  subsequence l1 l2 -> subsequence l2 l3 -> subsequence l1 l3.
Proof.
  intros H12 H23. revert l1 H12.
  induction H23 as [|x l2 l3 _ IH|x l2 l3 _ IH]; intros l1 H12.
  - exact H12.
  - constructor. now apply IH.
  - inversion H12; subst; constructor; now apply IH.
Qed.

Lemma subsequence_filter (p : string -> bool) (l : list string) :
  subsequence (filter p l) l.
Proof.
  induction l as [|x l IH]; simpl; [constructor|].
  destruct (p x); constructor; exact IH.
Qed.

Lemma subsequence_firstn (n : nat) (l : list string) :
  subsequence (firstn n l) l.
Proof.
  revert n. induction l as [|x l IH]; intros [|n]; simpl.
  - constructor.
  - constructor.
  - apply subsequence_skip. apply (IH 0).
  - apply subsequence_take. apply IH.
Qed.

Lemma subsequence_length (l1 l2 : list string) :
  subsequence l1 l2 -> List.length l1 <= List.length l2.
Proof. induction 1; simpl; lia. Qed.

Lemma subsequence_same_length (l1 l2 : list string) :
  subsequence l1 l2 -> List.length l1 = List.length l2 -> l1 = l2.
Proof.
  induction 1 as [|x l1 l2 H IH|x l1 l2 H IH]; simpl; intros E.
  - reflexivity.
  - apply subsequence_length in H. lia.
  - f_equal. apply IH. lia.
Qed.

Lemma subsequence_In (l1 l2 : list string) (x : string) :
  subsequence l1 l2 -> In x l1 -> In x l2.
Proof. induction 1; simpl; intuition. Qed.

Lemma filter_neither {A : Type} (a b : A -> bool) (l : list A) :
  filter (fun x => if a x then false else if b x then false else true) l
  = filter (fun x => negb (b x)) (filter (fun x => negb (a x)) l).
Proof.
  induction l as [|x l IH]; cbn [filter]; [reflexivity|].
  destruct (a x); cbn [negb filter]; [exact IH|].
  destruct (b x); cbn [negb]; now rewrite IH.
Qed.

Lemma getSafeFields_filter (allFields : list string) :
  getSafeFields allFields
  = filter (fun f => negb (isLongTextField f))
      (filter (fun f => negb (isAttachmentField f)) allFields).
Proof.
  unfold getSafeFields, isLongTextField, isAttachmentField.
  apply filter_neither.
Qed.

(** X22. [getSafeFields] keeps, in their order, exactly the fields that are
    neither attachment fields nor long text fields. A field whose name has
    one of the keywords of the two lists is never returned, and filtering a
    second time changes nothing. *)
Theorem getSafeFields_spec (allFields : list string) :
  (forall f, In f (getSafeFields allFields)
             <-> In f allFields /\ isAttachmentField f = false
                 /\ isLongTextField f = false)
  /\ subsequence (getSafeFields allFields) allFields
  /\ (forall f kw,
        In kw (attachmentKeywords ++ longTextKeywords) ->
        hasKeyword f kw = true -> ~ In f (getSafeFields allFields))
  /\ getSafeFields (getSafeFields allFields) = getSafeFields allFields.
Proof.
  assert (M : forall f, In f (getSafeFields allFields)
                        <-> In f allFields /\ isAttachmentField f = false
                            /\ isLongTextField f = false).
  { intros f. rewrite getSafeFields_filter, !filter_In, !negb_true_iff. tauto. }
  split; [exact M|]. split; [apply subsequence_filter|]. split.
  - intros f kw Hkw H Hin. apply M in Hin as (_ & A & L).
    apply in_app_iff in Hkw as [Hkw | Hkw].
    + pose proof (keyword_is_attachment f kw Hkw H). congruence.
    + pose proof (keyword_is_longText f kw Hkw H). congruence.
  - unfold getSafeFields. apply filter_filter_implies. intros x H; exact H.
Qed.

Lemma subsequence_step (b : bool) (l' l allFields : list string) :
  subsequence l' l -> subsequence l allFields ->
  subsequence (if b then l' else l) allFields.
Proof.
  intros H1 H2. destruct b; [|exact H2].
  exact (subsequence_trans _ _ _ H1 H2).
Qed.

Lemma subsequence_slice (l : list string) (n : number) :
  subsequence (sliceFromStart l n) l.
Proof.
  destruct n; simpl; try apply subsequence_firstn; try apply subsequence_refl;
    induction l; constructor; assumption.
Qed.

Lemma removeFields_subsequence (allFields : list string)
    (options : FieldFilterOptions.t) :
  subsequence (removeFields allFields options) allFields.
Proof.
  unfold removeFields. cbv zeta.
  apply subsequence_step.
  { destruct (FieldFilterOptions.maxFields options);
      [apply subsequence_slice | apply subsequence_refl]. }
  apply subsequence_step; [apply subsequence_filter|].
  apply subsequence_step; [apply subsequence_filter|].
  apply subsequence_step; [|apply subsequence_refl].
  destruct (FieldFilterOptions.excludeFields options);
    [apply subsequence_filter | apply subsequence_refl].
Qed.

Lemma filterFields_no_list (summaryPreset allFields : list string)
    (options : FieldFilterOptions.t) :
  nonEmptyList (FieldFilterOptions.includeFields options) = false ->
  FieldFilterOptions.preset options = None ->
  filterFields summaryPreset allFields options
  = if Nat.eqb (List.length (removeFields allFields options))
         (List.length allFields)
    then None else Some (removeFields allFields options).
Proof.
  intros I P. unfold filterFields. now rewrite I, P.
Qed.

Lemma filterFields_stands_for (summaryPreset allFields : list string)
    (options : FieldFilterOptions.t) :
  nonEmptyList (FieldFilterOptions.includeFields options) = false ->
  FieldFilterOptions.preset options = None ->
  returnedFields allFields (filterFields summaryPreset allFields options)
  = removeFields allFields options.
Proof.
  intros I P. rewrite (filterFields_no_list _ _ _ I P).
  destruct (Nat.eqb _ _) eqn:E; [|reflexivity].
  apply Nat.eqb_eq in E. simpl. symmetry.
  exact (subsequence_same_length _ _
           (removeFields_subsequence allFields options) E).
Qed.

(** X23. Without a white list and without a preset, [filterFields] only
    removes fields: a list it returns is the list of all fields with some
    fields left out, the others in their order, and it is strictly shorter
    than the list of all fields; it returns [undefined] exactly when the
    exclusions and the limit remove nothing. In both cases the fields it
    stands for are those the four steps leave. *)
Theorem filterFields_removes (summaryPreset allFields : list string)
    (options : FieldFilterOptions.t) :
  nonEmptyList (FieldFilterOptions.includeFields options) = false ->
  FieldFilterOptions.preset options = None ->
  (forall fields,
     filterFields summaryPreset allFields options = Some fields ->
     subsequence fields allFields
     /\ List.length fields < List.length allFields)
  /\ (filterFields summaryPreset allFields options = None
      <-> removeFields allFields options = allFields)
  /\ returnedFields allFields (filterFields summaryPreset allFields options)
     = removeFields allFields options.
Proof.
  intros I P. rewrite (filterFields_no_list _ _ _ I P).
  pose proof (removeFields_subsequence allFields options) as S.
  pose proof (subsequence_length _ _ S) as L.
  destruct (Nat.eqb _ _) eqn:E.
  - apply Nat.eqb_eq in E.
    pose proof (subsequence_same_length _ _ S E) as Q.
    split; [discriminate|]. split; [tauto|]. simpl. now rewrite Q.
  - apply Nat.eqb_neq in E. split; [|split; [|reflexivity]].
    + intros fields H. injection H as <-. split; [exact S | lia].
    + split; [discriminate|]. intros Q. rewrite Q in E. congruence.
Qed.

Lemma filterFields_removes_witness :
  subsequence ["Name"; "Bio"] ["Name"; "Headshot"; "Email"; "Bio"]
  /\ List.length ["Name"; "Bio"] < List.length ["Name"; "Headshot"; "Email"; "Bio"].
Proof.
  exact (proj1 (filterFields_removes [] ["Name"; "Headshot"; "Email"; "Bio"]
                  (FieldFilterOptions.mk None (Some ["Email"]) (Some true)
                     None None None) eq_refl eq_refl)
           ["Name"; "Bio"] eq_refl).
Defined.

Lemma sliceFromStart_length (l : list string) (z : Z) :
  (0 < z)%Z ->
  (Z.of_nat (List.length (sliceFromStart l (Finite z))) <= z)%Z.
Proof.
  intros H. simpl. rewrite length_firstn. lia.
Qed.

(** X24. Without a white list and without a preset, a limit [maxFields]
    that is a positive integer is kept: the fields the call stands for,
    which are all the fields when it returns [undefined], are at most
    [maxFields]. *)
Theorem filterFields_maxFields (summaryPreset allFields : list string)
    (options : FieldFilterOptions.t) (limit : Z) :
  nonEmptyList (FieldFilterOptions.includeFields options) = false ->
  FieldFilterOptions.preset options = None ->
  FieldFilterOptions.maxFields options = Some (Finite limit) ->
  (0 < limit)%Z ->
  (Z.of_nat (List.length
     (returnedFields allFields (filterFields summaryPreset allFields options)))
   <= limit)%Z.
Proof.
  intros I P M H.
  rewrite (filterFields_stands_for summaryPreset allFields options I P).
  unfold removeFields. rewrite M. cbn [positiveNumber].
  apply Z.ltb_lt in H. rewrite H.
  apply sliceFromStart_length. now apply Z.ltb_lt.
Qed.

Lemma filterFields_maxFields_witness :
  (Z.of_nat (List.length
     (returnedFields ["Name"; "Email"; "Phone"; "City"]
        (filterFields [] ["Name"; "Email"; "Phone"; "City"]
           (FieldFilterOptions.mk None None None None None (Some (Finite 2))))))
   <= 2)%Z.
Proof.
  apply (filterFields_maxFields [] ["Name"; "Email"; "Phone"; "City"]
           (FieldFilterOptions.mk None None None None None (Some (Finite 2))) 2);
    reflexivity.
Defined.

(** X25. [smartFilterFields] and [getSafeFields] return the same fields:
    the two ways of leaving out attachment and long text fields agree, also
    when nothing is left out and when everything is. *)
Theorem smartFilterFields_getSafeFields (summaryPreset allFields : list string) :
  smartFilterFields summaryPreset allFields = getSafeFields allFields.
Proof.
  unfold smartFilterFields.
  set (options := FieldFilterOptions.mk None None (Some true) (Some true) None None).
  pose proof (filterFields_stands_for summaryPreset allFields options
                eq_refl eq_refl) as R.
  unfold returnedFields in R. rewrite R.
  rewrite getSafeFields_filter. reflexivity.
Qed.

(** ** Errors *)

Lemma afterWord_split (word : string) :
  forall s rest,
    Err.afterWord word s = Some rest ->
    exists w, s = w ++ rest /\ JS.toLowerCase w = JS.toLowerCase word.
Proof.
  induction word as [|c word IH]; intros s rest; simpl.
  - intros H. injection H as ->. now exists "".
  - destruct s as [|d s]; [discriminate|].
    destruct (JS.char_eqb _ _) eqn:E; [|discriminate].
    apply char_eqb_eq in E. intros H.
    destruct (IH s rest H) as (w & -> & Hw). exists (String d w).
    simpl. now rewrite E, Hw.
Qed.

Lemma takeWhile_dropWhile (p : ascii -> bool) (s : string) :
  Err.takeWhile p s ++ Err.dropWhile p s = s.
Proof.
  induction s as [|c s IH]; simpl; [reflexivity|].
  destruct (p c); simpl; [now rewrite IH | reflexivity].
Qed.

Lemma takeWhile_all (p : ascii -> bool) (s : string) :
  JS.all p (Err.takeWhile p s) = true.
Proof.
  induction s as [|c s IH]; simpl; [reflexivity|].
  destruct (p c) eqn:P; simpl; [now rewrite P, IH | reflexivity].
Qed.

Lemma takeWhile_occurs (p : ascii -> bool) (s : string) :
  occursIn (Err.takeWhile p s) s.
Proof.
  exists "", (Err.dropWhile p s). simpl. now rewrite takeWhile_dropWhile.
Qed.

Lemma all_notQuote (s : string) :
  JS.all Err.notQuote s = true -> JS.any Err.isQuote s = false.
Proof. apply any_all_negb. Qed.

Lemma space_not_quote (c : ascii) :
  JS.isWhiteSpace c = true -> Err.isQuote c = false.
Proof. by_chars c. Qed.

Lemma lastChar_all (p : ascii -> bool) (s : string) :
  forall c, p c = true -> JS.all p s = true -> p (Err.lastChar c s) = true.
Proof.
  induction s as [|d s IH]; intros c Hc H; simpl; [exact Hc|].
  simpl in H. apply andb_true_iff in H as [Hd Hs]. now apply IH.
Qed.

Lemma lastChar_occurs (s : string) :
  forall c, occursIn (String (Err.lastChar c s) "") (String c s).
Proof.
  induction s as [|d s IH]; intros c; simpl.
  - now exists "", "".
  - destruct (IH d) as (a & b & E). exists (String c a), b.
    simpl. now rewrite E.
Qed.

Lemma occursIn_append_l (x a s : string) : occursIn x s -> occursIn x (a ++ s).
Proof.
  intros (u & v & ->). exists (a ++ u), v. now rewrite append_assoc.
Qed.

Lemma occursIn_append_r (x s b : string) : occursIn x s -> occursIn x (s ++ b).
Proof.
  intros (u & v & ->). exists u, (v ++ b). now rewrite !append_assoc.
Qed.

(** The group of a match is not empty, has no quote and stands in the
    string. *)
Lemma matchTableAt_group (s group : string) :
  Err.matchTableAt s = Some group ->
  group <> "" /\ JS.any Err.isQuote group = false /\ occursIn group s.
Proof.
  unfold Err.matchTableAt.
  destruct (Err.afterWord "table" s) as [rest|] eqn:W; [|discriminate].
  apply afterWord_split in W as (w & -> & _).
  pose proof (takeWhile_dropWhile JS.isWhiteSpace rest) as TD.
  pose proof (takeWhile_all JS.isWhiteSpace rest) as TA.
  set (spaces := Err.takeWhile JS.isWhiteSpace rest) in *.
  set (after := Err.dropWhile JS.isWhiteSpace rest) in *.
  assert (G : forall g,
             match spaces with
             | String c1 (String c2 more) =>
                 Some (String (Err.lastChar c2 more) "")
             | _ => None
             end = Some g ->
             g <> "" /\ JS.any Err.isQuote g = false /\ occursIn g (w ++ rest)).
  { intros g. destruct spaces as [|c1 [|c2 more]]; try discriminate.
    intros H. injection H as <-. split; [discriminate|].
    simpl in TA. apply andb_true_iff in TA as [_ TA].
    apply andb_true_iff in TA as [T2 TA]. split.
    - simpl. rewrite orb_false_r. apply space_not_quote.
      now apply lastChar_all.
    - apply occursIn_append_l. rewrite <- TD. apply occursIn_append_r.
      apply (occursIn_append_l _ (String c1 "")). apply lastChar_occurs. }
  assert (T : forall x y,
             after = x ++ y -> y <> "" ->
             (forall c y', y = String c y' -> Err.isQuote c = false) ->
             Err.takeWhile Err.notQuote y <> ""
             /\ JS.any Err.isQuote (Err.takeWhile Err.notQuote y) = false
             /\ occursIn (Err.takeWhile Err.notQuote y) (w ++ rest)).
  { intros x y E Hy Hq. split; [|split].
    - destruct y as [|c y']; [congruence|]. simpl. unfold Err.notQuote at 1.
      rewrite (Hq c y' eq_refl). discriminate.
    - apply all_notQuote, takeWhile_all.
    - apply occursIn_append_l. rewrite <- TD. apply occursIn_append_l.
      rewrite E. apply occursIn_append_l. apply takeWhile_occurs. }
  destruct spaces as [|s1 spaces'] eqn:S; [discriminate|].
  destruct after as [|q after'] eqn:A; [apply G|].
  destruct (Err.isQuote q) eqn:Q.
  - destruct after' as [|c after''] eqn:A'; [apply G|].
    destruct (Err.isQuote c) eqn:C; [apply G|].
    intros H. injection H as <-.
    apply (T (String q "") (String c after'')); [reflexivity | discriminate|].
    intros c0 y' E. injection E as <- _. exact C.
  - intros H. injection H as <-.
    apply (T "" (String q after')); [reflexivity | discriminate|].
    intros c0 y' E. injection E as <- _. exact Q.
Qed.

Lemma searchTable_group (s : string) :
  forall group,
    Err.searchTable s = Some group ->
    group <> "" /\ JS.any Err.isQuote group = false /\ occursIn group s.
Proof.
  induction s as [|c s IH]; intros group; cbn [Err.searchTable].
  - destruct (Err.matchTableAt "") eqn:M; [|discriminate].
    intros H. injection H as <-. now apply matchTableAt_group.
  - destruct (Err.matchTableAt (String c s)) eqn:M.
    + intros H. injection H as <-. now apply matchTableAt_group.
    + intros H. apply IH in H as (N & Q & O). repeat split; try assumption.
      now apply (occursIn_append_l _ (String c "")).
Qed.

(** X26. [wrapError] returns an [AirtableMCPError] as it is, and turns
    anything else into one of four errors. For an [Error] whose message
    has neither [AIRTABLE] nor [API], the client is given a fixed text in
    place of the message unless the message says not found or could not
    find, whatever the case: the message itself never reaches the client.
    A value that is not an [Error] gives the internal text too. *)
Theorem wrapError_hides_message (m : string) :
  JS.includes "AIRTABLE" m = false ->
  JS.includes "API" m = false ->
  hasKeyword m "not found" = false ->
  hasKeyword m "could not find" = false ->
  (Err.error (Err.toClientError (wrapError (ThrownError m))) = authenticationText
   \/ Err.error (Err.toClientError (wrapError (ThrownError m))) = internalText)
  /\ Err.error (Err.toClientError (wrapError ThrownOther)) = internalText
  /\ forall e, wrapError (ThrownMCPError e) = e.
Proof.
  unfold hasKeyword. intros A P N C. split; [|split; reflexivity].
  unfold wrapError. rewrite A, P, N, C. cbn [orb].
  destruct (_ || _); [left | right]; reflexivity.
Qed.

Lemma wrapError_hides_message_witness :
  Err.error (Err.toClientError
    (wrapError (ThrownError "connect ECONNREFUSED 10.0.0.12:5432 (db-internal)")))
  = authenticationText
  \/ Err.error (Err.toClientError
       (wrapError (ThrownError "connect ECONNREFUSED 10.0.0.12:5432 (db-internal)")))
     = internalText.
Proof.
  exact (proj1 (wrapError_hides_message
                  "connect ECONNREFUSED 10.0.0.12:5432 (db-internal)"
                  eq_refl eq_refl eq_refl eq_refl)).
Defined.

(** X27. A message with [API] or [AIRTABLE] in capitals is an Airtable API
    error with the status 500, whatever else it says: the words of an
    authentication failure or of a missing resource are looked for only in
    the messages without them. So [Invalid API key] is not reported as an
    authentication error. *)
Theorem wrapError_api_first (a b : string) :
  (wrapError (ThrownError (a ++ "API" ++ b))
   = AirtableAPIError (a ++ "API" ++ b) None (Finite 500))
  /\ (wrapError (ThrownError (a ++ "AIRTABLE" ++ b))
      = AirtableAPIError (a ++ "AIRTABLE" ++ b) None (Finite 500))
  /\ Err.code (wrapError (ThrownError (a ++ "API" ++ b))) = "AIRTABLE_API_ERROR"
  /\ Err.statusCode (wrapError (ThrownError (a ++ "API" ++ b))) = Finite 500.
Proof.
  assert (P : JS.includes "API" (a ++ "API" ++ b) = true)
    by (apply includes_iff; now exists a, b).
  assert (A : JS.includes "AIRTABLE" (a ++ "AIRTABLE" ++ b) = true)
    by (apply includes_iff; now exists a, b).
  unfold wrapError. rewrite P, A, orb_true_r. repeat split.
Qed.

(** X28. When [wrapError] reports a missing resource, the client is given
    [Resource not found] or [Table 'name' not found], where the name is a
    part of the message that is not empty and has no single or double
    quote. The name is not redacted. *)
Theorem wrapError_not_found (m : string) :
  JS.includes "AIRTABLE" m = false ->
  JS.includes "API" m = false ->
  (exists msg, wrapError (ThrownError m) = NotFoundError msg) ->
  Err.code (wrapError (ThrownError m)) = "NOT_FOUND"
  /\ Err.statusCode (wrapError (ThrownError m)) = Finite 404
  /\ (Err.error (Err.toClientError (wrapError (ThrownError m)))
      = "Resource not found"
      \/ exists name,
           Err.error (Err.toClientError (wrapError (ThrownError m)))
           = "Table '" ++ name ++ "' not found"
           /\ name <> "" /\ JS.any Err.isQuote name = false
           /\ occursIn name m).
Proof.
  intros A P. unfold wrapError. rewrite A, P. cbn [orb].
  destruct (_ || _); [intros (msg & H); discriminate|].
  destruct (_ || _); [|intros (msg & H); discriminate].
  intros _. split; [reflexivity|]. split; [reflexivity|].
  destruct (Err.searchTable m) as [name|] eqn:S; [right | left; reflexivity].
  exists name. split.
  - simpl. f_equal. repeat (cbn [append]; rewrite ?append_assoc). reflexivity.
  - now apply searchTable_group.
Qed.

Lemma wrapError_not_found_witness :
  Err.error (Err.toClientError
    (wrapError (ThrownError "Could not find table 'Creators' in base")))
  = "Resource not found"
  \/ exists name,
       Err.error (Err.toClientError
         (wrapError (ThrownError "Could not find table 'Creators' in base")))
       = "Table '" ++ name ++ "' not found"
       /\ name <> "" /\ JS.any Err.isQuote name = false
       /\ occursIn name "Could not find table 'Creators' in base".
Proof.
  assert (H : exists msg,
            wrapError (ThrownError "Could not find table 'Creators' in base")
            = NotFoundError msg) by (eexists; reflexivity).
  exact (proj2 (proj2 (wrapError_not_found
                         "Could not find table 'Creators' in base"
                         eq_refl eq_refl H))).
Defined.

(** ** Redaction of Airtable messages *)

Lemma length_append (a b : string) :
  String.length (a ++ b) = String.length a + String.length b.
Proof. induction a as [|c a IH]; simpl; [reflexivity | now rewrite IH]. Qed.

Lemma toLowerCase_length (s : string) :
  String.length (JS.toLowerCase s) = String.length s.
Proof. induction s as [|c s IH]; simpl; [reflexivity | now rewrite IH]. Qed.

Lemma lower_same_length (a b : string) :
  JS.toLowerCase a = JS.toLowerCase b -> String.length a = String.length b.
Proof.
  intros H. rewrite <- (toLowerCase_length a), <- (toLowerCase_length b).
  now rewrite H.
Qed.

Lemma isAlnum_lowerChar (c : ascii) :
  Err.isAlnum (JS.lowerChar c) = Err.isAlnum c.
Proof. by_chars c. Qed.

Lemma all_alnum_lower (s : string) :
  JS.all Err.isAlnum (JS.toLowerCase s) = JS.all Err.isAlnum s.
Proof.
  induction s as [|c s IH]; simpl; [reflexivity|].
  now rewrite isAlnum_lowerChar, IH.
Qed.

Lemma all_alnum_same_lower (a b : string) :
  JS.toLowerCase a = JS.toLowerCase b ->
  JS.all Err.isAlnum a = JS.all Err.isAlnum b.
Proof.
  intros H. rewrite <- (all_alnum_lower a), <- (all_alnum_lower b).
  now rewrite H.
Qed.

Lemma afterWord_ci (word : string) :
  forall w y,
    JS.toLowerCase w = JS.toLowerCase word ->
    Err.afterWord word (w ++ y) = Some y.
Proof.
  induction word as [|c word IH]; intros w y H.
  - apply (proj1 (toLowerCase_empty w)) in H. now subst.
  - destruct w as [|d w]; [discriminate|]. simpl in H.
    injection H as Hc Hw. simpl. rewrite Hc, char_eqb_refl. now apply IH.
Qed.

Lemma takeWhile_append_all (p : ascii -> bool) (r t : string) :
  JS.all p r = true ->
  Err.takeWhile p (r ++ t) = r ++ Err.takeWhile p t.
Proof.
  induction r as [|c r IH]; simpl; [reflexivity|].
  intros H. apply andb_true_iff in H as [Hc Hr]. now rewrite Hc, IH.
Qed.

Lemma prefix_of_length (n : nat) :
  forall s, n <= String.length s ->
  exists p t, s = p ++ t /\ String.length p = n.
Proof.
  induction n as [|n IH]; intros s H.
  - now exists "", s.
  - destruct s as [|c s]; simpl in H; [lia|].
    destruct (IH s) as (p & t & -> & L); [lia|].
    exists (String c p), t. simpl. now rewrite L.
Qed.

(** A token at the start of a string is a window of letters and digits,
    and any string that begins with the same window up to case has the
    token too. *)
Lemma tokenAt_window (word b : string) :
  JS.all Err.isAlnum word = true ->
  tokenAt word b = true ->
  exists w t,
    b = w ++ t
    /\ JS.all Err.isAlnum w = true
    /\ String.length w = String.length word + 14
    /\ forall w' t', JS.toLowerCase w' = JS.toLowerCase w ->
                     tokenAt word (w' ++ t') = true.
Proof.
  intros Hword. unfold tokenAt.
  destruct (Err.afterWord word b) as [rest|] eqn:A; [|discriminate].
  apply afterWord_split in A as (w0 & -> & Hw0). intros H.
  apply Nat.leb_le in H.
  destruct (prefix_of_length 14 _ H) as (r & r' & Er & Lr).
  pose proof (takeWhile_all Err.isAlnum rest) as TA.
  rewrite Er, all_append in TA. apply andb_true_iff in TA as [Hr _].
  pose proof (takeWhile_dropWhile Err.isAlnum rest) as TD.
  rewrite Er, append_assoc in TD.
  exists (w0 ++ r), (r' ++ Err.dropWhile Err.isAlnum rest).
  split; [now rewrite append_assoc, TD|].
  split; [rewrite all_append, (all_alnum_same_lower _ _ Hw0), Hword; exact Hr|].
  split; [rewrite length_append, (lower_same_length _ _ Hw0); lia|].
  intros w' t' E. rewrite toLowerCase_append in E.
  apply toLowerCase_split in E as (w0' & r0 & -> & E0 & E1).
  rewrite append_assoc, (afterWord_ci word w0' _ (eq_trans E0 Hw0)).
  assert (A1 : JS.all Err.isAlnum r0 = true)
    by (rewrite (all_alnum_same_lower _ _ E1); exact Hr).
  rewrite (takeWhile_append_all _ _ _ A1), length_append.
  rewrite (lower_same_length _ _ E1), Lr. reflexivity.
Qed.

Lemma tokenAt_short (word b : string) :
  JS.all Err.isAlnum word = true ->
  tokenAt word b = true -> String.length word + 14 <= String.length b.
Proof.
  intros Hw H. destruct (tokenAt_window word b Hw H) as (w & t & -> & _ & L & _).
  rewrite length_append. lia.
Qed.

Lemma append_split (a b r o : string) :
  a ++ b = r ++ o ->
  (exists a1, a = r ++ a1 /\ o = a1 ++ b)
  \/ (exists r1 r2, r = r1 ++ r2 /\ r2 <> "" /\ a = r1 /\ b = r2 ++ o).
Proof.
  revert r. induction a as [|c a IH]; intros r E; simpl in E.
  - destruct r as [|d r].
    + left. now exists "".
    + right. exists "", (String d r). repeat split; [discriminate | exact E].
  - destruct r as [|d r].
    + left. exists (String c a). now split.
    + simpl in E. injection E as -> E.
      destruct (IH r E) as [(a1 & -> & ->) | (r1 & r2 & -> & N & -> & ->)].
      * left. now exists a1.
      * right. exists (String d r1), r2. repeat split. exact N.
Qed.

Lemma replaceMatches_skip (matchAt : string -> option nat) (R x : string) :
  forall t,
    Err.replaceMatches matchAt R (String.length x) (x ++ t)
    = Err.replaceMatches matchAt R 0 t.
Proof.
  induction x as [|c x IH]; intros t; [reflexivity|].
  simpl. apply IH.
Qed.

Lemma replaceMatches_redacts (matchAt : string -> option nat) (W R : string) :
  matcherOf W matchAt ->
  forall n s, String.length s <= n ->
  redacts matchAt W R s (Err.replaceMatches matchAt R 0 s).
Proof.
  intros HM. induction n as [|n IH]; intros s L.
  - destruct s; simpl in L; [constructor | lia].
  - destruct s as [|c s]; [constructor|].
    cbn [Err.replaceMatches].
    destruct (matchAt (String c s)) as [k|] eqn:M.
    + destruct (HM _ _ M) as (wm & mr & t & E & Hw & Lk & K).
      assert (X : exists x, wm ++ mr = String c x).
      { destruct (wm ++ mr) as [|d x] eqn:Q; [simpl in Lk; lia|].
        rewrite <- append_assoc, Q in E. simpl in E. injection E as -> _.
        now exists x. }
      destruct X as (x & Q).
      assert (S' : s = x ++ t).
      { rewrite <- append_assoc, Q in E. simpl in E. now injection E. }
      rewrite Q in Lk. simpl in Lk. subst k. cbn [Nat.pred].
      rewrite S', replaceMatches_skip.
      change (String c (x ++ t)) with (String c x ++ t).
      rewrite <- Q, append_assoc.
      apply redacts_match; [exact Hw|].
      apply IH. simpl in L. rewrite S', length_append in L. lia.
    + apply redacts_keep; [exact M|]. apply IH. simpl in L. lia.
Qed.

Section Transfer.

Variable matchAt : string -> option nat.
Variables W T R word : string.
Hypothesis R_parts : R = W ++ T.
Hypothesis T_first : T <> "".
Hypothesis T_chars : JS.any Err.isAlnum T = false.
Hypothesis word_chars : JS.all Err.isAlnum word = true.
Hypothesis W_short : String.length W < String.length word + 14.

Lemma replacement_suffix (r1 : string) :
  forall W0 r2,
    r1 ++ r2 = W0 ++ T -> r2 <> "" ->
    exists q t T', r2 = q ++ String t T'
                   /\ String.length q <= String.length W0
                   /\ Err.isAlnum t = false.
Proof.
  induction r1 as [|c r1 IH]; intros W0 r2 E N; simpl in E.
  - destruct T as [|t T'] eqn:ET; [congruence|].
    exists W0, t, T'. split; [exact E|]. split; [lia|].
    simpl in T_chars. now apply orb_false_iff in T_chars as [H _].
  - destruct W0 as [|d W0]; simpl in E.
    + destruct r2 as [|t r2']; [congruence|].
      exists "", t, r2'. split; [reflexivity|]. split; [simpl; lia|].
      rewrite <- E in T_chars. simpl in T_chars.
      apply orb_false_iff in T_chars as [_ H].
      rewrite any_append in H. apply orb_false_iff in H as [_ H].
      simpl in H. now apply orb_false_iff in H as [H _].
    + injection E as _ E. destruct (IH W0 r2 E N) as (q & t & T' & -> & L & A).
      exists q, t, T'. split; [reflexivity|]. split; [simpl; lia | exact A].
Qed.

Lemma window_stops (q : string) :
  forall w t' t rest,
    w ++ t' = q ++ String t rest ->
    JS.all Err.isAlnum w = true ->
    String.length q < String.length w ->
    Err.isAlnum t = true.
Proof.
  induction q as [|x q IH]; intros w t' t rest E A L; simpl in E.
  - destruct w as [|c w]; [simpl in L; lia|]. simpl in E. injection E as -> _.
    simpl in A. now apply andb_true_iff in A as [A _].
  - destruct w as [|c w]; [simpl in L; lia|]. simpl in E. injection E as _ E.
    simpl in A. apply andb_true_iff in A as [_ A].
    apply (IH w t' t rest E A). simpl in L. lia.
Qed.

Lemma alnum_prefix_of_replacement (p : string) :
  forall W0 x o,
    p ++ x = W0 ++ T ++ o -> JS.all Err.isAlnum p = true ->
    exists q, W0 = p ++ q.
Proof.
  induction p as [|c p IH]; intros W0 x o E A; simpl in E.
  - now exists W0.
  - destruct W0 as [|d W0]; simpl in E.
    + destruct T as [|t T'] eqn:ET; [congruence|]. simpl in E.
      injection E as -> _. simpl in A, T_chars.
      apply andb_true_iff in A as [A _].
      apply orb_false_iff in T_chars as [H _]. congruence.
    + injection E as -> E. simpl in A. apply andb_true_iff in A as [_ A].
      destruct (IH W0 x o E A) as (q & ->). now exists q.
Qed.

Lemma prefix_transfer (s o : string) :
  redacts matchAt W R s o ->
  forall p x,
    o = p ++ x -> JS.all Err.isAlnum p = true ->
    exists p' x', s = p' ++ x' /\ JS.toLowerCase p' = JS.toLowerCase p.
Proof.
  induction 1 as [|c s o _ _ IH|wm mr s o Hw _ _]; intros p x E A.
  - destruct p; [|discriminate]. now exists "", "".
  - destruct p as [|d p].
    + now exists "", (String c s).
    + simpl in E. injection E as <- E. simpl in A.
      apply andb_true_iff in A as [_ A].
      destruct (IH p x E A) as (p' & x' & -> & Hp).
      exists (String c p'), x'. simpl. now rewrite Hp.
  - rewrite R_parts, append_assoc in E. symmetry in E.
    destruct (alnum_prefix_of_replacement p W x o E A) as (q & EW).
    rewrite EW, toLowerCase_append in Hw.
    apply toLowerCase_split in Hw as (p' & q' & -> & Hp & _).
    exists p', (q' ++ mr ++ s). split; [now rewrite !append_assoc | exact Hp].
Qed.

Lemma token_transfer (s o : string) :
  redacts matchAt W R s o ->
  hasToken word o ->
  exists a b, s = a ++ b /\ tokenAt word b = true /\ matchAt b = None.
Proof.
  induction 1 as [|c s o Hnone Hred IH|wm mr s o Hw Hred IH];
    intros (a & b & E & Hb).
  - apply (tokenAt_short word b word_chars) in Hb.
    apply (f_equal String.length) in E. rewrite length_append in E.
    simpl in E. lia.
  - destruct a as [|d a]; simpl in E.
    + destruct (tokenAt_window word b word_chars Hb) as (w & t & Eb & Aw & _ & Hci).
      assert (Rk : redacts matchAt W R (String c s) (String c o))
        by (now apply redacts_keep).
      destruct (prefix_transfer _ _ Rk w t (eq_trans E Eb) Aw)
        as (p' & x' & Es & Hp).
      exists "", (String c s). split; [reflexivity|]. split; [|exact Hnone].
      rewrite Es. now apply Hci.
    + injection E as <- E.
      destruct IH as (a' & b' & -> & Hb' & Hn); [now exists a, b|].
      exists (String c a'), b'. now split.
  - symmetry in E. apply append_split in E
      as [(a1 & -> & Eo) | (r1 & r2 & ER & N & -> & ->)].
    + destruct IH as (a' & b' & -> & Hb' & Hn); [now exists a1, b|].
      exists (wm ++ mr ++ a'), b'. split; [now rewrite !append_assoc | tauto].
    + exfalso. rewrite R_parts in ER. symmetry in ER.
      destruct (replacement_suffix r1 W r2 ER N) as (q & t & T' & -> & Lq & At).
      destruct (tokenAt_window word _ word_chars Hb) as (w & t' & Eb & Aw & Lw & _).
      rewrite append_assoc in Eb. symmetry in Eb.
      assert (Lt : String.length q < String.length w) by lia.
      pose proof (window_stops q w t' t _ Eb Aw Lt). congruence.
Qed.

End Transfer.

Lemma takeWhile_length (p : ascii -> bool) (s : string) :
  String.length (Err.takeWhile p s) <= String.length s.
Proof.
  rewrite <- (takeWhile_dropWhile p s) at 2. rewrite length_append. lia.
Qed.

Lemma matchKey_matcher : matcherOf "key" Err.matchKey.
Proof.
  intros s n. unfold Err.matchKey.
  destruct (Err.afterWord "key" s) as [rest|] eqn:A; [|discriminate].
  apply afterWord_split in A as (w & -> & Hw).
  destruct (Nat.leb 14 _) eqn:L; [|discriminate].
  intros H. injection H as <-.
  exists w, (Err.takeWhile Err.isAlnum rest), (Err.dropWhile Err.isAlnum rest).
  rewrite takeWhile_dropWhile, length_append, (lower_same_length _ _ Hw).
  split; [reflexivity|]. split; [exact Hw|]. split; simpl; lia.
Qed.

Lemma matchId_matcher (word : string) : matcherOf word (Err.matchId word).
Proof.
  intros s n. unfold Err.matchId.
  destruct (Err.afterWord word s) as [rest|] eqn:A; [|discriminate].
  apply afterWord_split in A as (w & -> & Hw).
  destruct (Nat.leb 14 _) eqn:L; [|discriminate]. apply Nat.leb_le in L.
  intros H. injection H as <-.
  pose proof (takeWhile_length Err.isAlnum rest) as L'.
  destruct (prefix_of_length 14 rest) as (p & t & -> & Lp); [lia|].
  exists w, p, t. rewrite length_append, (lower_same_length _ _ Hw), Lp.
  split; [reflexivity|]. split; [exact Hw|]. split; lia.
Qed.

Lemma matchBearer_matcher : matcherOf "Bearer" Err.matchBearer.
Proof.
  intros s n. unfold Err.matchBearer.
  destruct (Err.afterWord "bearer" s) as [rest|] eqn:A; [|discriminate].
  apply afterWord_split in A as (w & -> & Hw).
  destruct (_ && _) eqn:L; [|discriminate].
  intros H. injection H as <-.
  set (spaces := Err.takeWhile JS.isWhiteSpace rest).
  set (after := Err.dropWhile JS.isWhiteSpace rest).
  exists w, (spaces ++ Err.takeWhile Err.notSpace after),
    (Err.dropWhile Err.notSpace after).
  rewrite append_assoc, takeWhile_dropWhile. subst spaces after.
  rewrite takeWhile_dropWhile, !length_append, (lower_same_length _ _ Hw).
  split; [reflexivity|]. split; [exact Hw|]. split; simpl; lia.
Qed.

Lemma matchKey_none (b : string) :
  Err.matchKey b = None -> tokenAt "key" b = false.
Proof.
  unfold Err.matchKey, tokenAt.
  destruct (Err.afterWord "key" b); [|reflexivity].
  destruct (Nat.leb 14 _); [discriminate | reflexivity].
Qed.

Lemma matchId_none (word b : string) :
  Err.matchId word b = None -> tokenAt word b = false.
Proof.
  unfold Err.matchId, tokenAt.
  destruct (Err.afterWord word b); [|reflexivity].
  destruct (Nat.leb 14 _); [discriminate | reflexivity].
Qed.

(** A replacement by a word and stars brings in no token of [word]. *)
Lemma redaction_keeps_clean (matchAt : string -> option nat)
    (W T word s : string) :
  matcherOf W matchAt ->
  T <> "" -> JS.any Err.isAlnum T = false ->
  JS.all Err.isAlnum word = true ->
  String.length W < String.length word + 14 ->
  ~ hasToken word s ->
  ~ hasToken word (Err.replaceMatches matchAt (W ++ T) 0 s).
Proof.
  intros HM T1 T2 Hw L Hs Ho. apply Hs.
  pose proof (replaceMatches_redacts matchAt W (W ++ T) HM _ s (le_n _)) as Rd.
  destruct (token_transfer matchAt W T (W ++ T) word eq_refl T1 T2 Hw L _ _ Rd Ho)
    as (a & b & E & Hb & _).
  now exists a, b.
Qed.

(** The replacement of the tokens of [word] leaves none of them. *)
Lemma redaction_removes (matchAt : string -> option nat) (word s : string) :
  matcherOf word matchAt ->
  (forall b, matchAt b = None -> tokenAt word b = false) ->
  JS.all Err.isAlnum word = true ->
  String.length word < String.length word + 14 ->
  ~ hasToken word (Err.replaceMatches matchAt (word ++ "***") 0 s).
Proof.
  intros HM HN Hw L Ho.
  pose proof (replaceMatches_redacts matchAt word (word ++ "***") HM _ s (le_n _))
    as Rd.
  destruct (token_transfer matchAt word "***" (word ++ "***") word eq_refl
              ltac:(discriminate) eq_refl Hw L _ _ Rd Ho)
    as (a & b & E & Hb & Hn).
  apply HN in Hn. congruence.
Qed.

(** X29. The message [sanitizeAirtableError] returns has no API key, no
    base and no record identifier left: nowhere in it stands [key], [app]
    or [rec], in any case, followed by fourteen or more letters or digits.
    So the client text of an [AirtableAPIError] has none either. *)
Theorem sanitizeAirtableError_no_token (m word : string) :
  In word ["key"; "app"; "rec"] ->
  ~ hasToken word (Err.sanitizeAirtableError m)
  /\ forall code status,
       ~ hasToken word
           (Err.error (Err.toClientError (AirtableAPIError m code status))).
Proof.
  intros H.
  assert (N : ~ hasToken word (Err.sanitizeAirtableError m)).
  { unfold Err.sanitizeAirtableError. cbv zeta.
    destruct H as [<- | [<- | [<- | []]]].
    - apply (redaction_keeps_clean Err.matchBearer "Bearer" " ***" "key");
        try reflexivity; try discriminate;
        [exact matchBearer_matcher | simpl; lia|].
      apply (redaction_keeps_clean (Err.matchId "rec") "rec" "***" "key");
        try reflexivity; try discriminate;
        [apply matchId_matcher | simpl; lia|].
      apply (redaction_keeps_clean (Err.matchId "app") "app" "***" "key");
        try reflexivity; try discriminate;
        [apply matchId_matcher | simpl; lia|].
      apply (redaction_removes Err.matchKey "key");
        [exact matchKey_matcher | exact matchKey_none | reflexivity | simpl; lia].
    - apply (redaction_keeps_clean Err.matchBearer "Bearer" " ***" "app");
        try reflexivity; try discriminate;
        [exact matchBearer_matcher | simpl; lia|].
      apply (redaction_keeps_clean (Err.matchId "rec") "rec" "***" "app");
        try reflexivity; try discriminate;
        [apply matchId_matcher | simpl; lia|].
      apply (redaction_removes (Err.matchId "app") "app");
        [apply matchId_matcher | apply matchId_none | reflexivity | simpl; lia].
    - apply (redaction_keeps_clean Err.matchBearer "Bearer" " ***" "rec");
        try reflexivity; try discriminate;
        [exact matchBearer_matcher | simpl; lia|].
      apply (redaction_removes (Err.matchId "rec") "rec");
        [apply matchId_matcher | apply matchId_none | reflexivity | simpl; lia]. }
  split; [exact N|]. intros code status. exact N.
Qed.

Lemma sanitizeAirtableError_no_token_witness :
  ~ hasToken "key"
      (Err.sanitizeAirtableError "401 for keyAbCdEfGhIjKlMn01 on app12345678901234").
Proof.
  exact (proj1 (sanitizeAirtableError_no_token
                  "401 for keyAbCdEfGhIjKlMn01 on app12345678901234" "key"
                  (or_introl eq_refl))).
Defined.
